(** * The API gateway of the captcha platform, embedded in Rocq

    A shallow embedding of the Go gateway (packages [config], [middleware],
    [proxy], [handlers] and [main]) together with the properties its
    specification states about it.

    Go strings are byte strings: they are modelled by [string] (a list of
    8-bit [ascii]).  Go maps are finite maps ([gmap]).  A gin handler is a
    computation over the gin context and the process-wide state; a panic is
    the [None] outcome of that computation, which [Recovery] catches. *)

From stdpp Require Import gmap strings list fin_maps pretty relations.
From Stdlib Require Import ZArith Lia Ascii Sorted.

Local Open Scope Z_scope.

(** ** Package [strings] and friends (Go standard library) *)

Module strs.

(** [strings.ToLower] restricted to its effect on ASCII letters: bytes
    outside [A-Z] are kept.  The gateway only compares the result with the
    ASCII literal [bearer], and no non-ASCII rune lowers to one of its
    letters, so the comparison is the one Go makes. *)
Definition lower_byte (c : ascii) : ascii :=
  let n := Ascii.N_of_ascii c in
  if ((65 <=? n) && (n <=? 90))%N then Ascii.ascii_of_N (n + 32) else c.

Fixpoint ToLower (s : string) : string :=
  match s with
  | EmptyString => EmptyString
  | String c s' => String (lower_byte c) (ToLower s')
  end.

(** [strings.Cut] for a one-byte separator. *)
Fixpoint Cut (s : string) (sep : ascii) : option (string * string) :=
  match s with
  | EmptyString => None
  | String c s' =>
      if decide (c = sep) then Some (EmptyString, s')
      else match Cut s' sep with
           | Some (before, after) => Some (String c before, after)
           | None => None
           end
  end.

(** [strings.Split s sep] for a one-byte separator: one more piece than
    there are separators, so the empty string gives one empty piece. *)
Fixpoint Split (s : string) (sep : ascii) : list string :=
  match s with
  | EmptyString => [EmptyString]
  | String c s' =>
      if decide (c = sep) then EmptyString :: Split s' sep
      else match Split s' sep with
           | piece :: rest => String c piece :: rest
           | [] => [String c EmptyString]
           end
  end.

(** [strings.SplitN s sep n] for [n >= 0]: at most [n] pieces, the last
    one being the unsplit remainder. *)
Fixpoint SplitN (s : string) (sep : ascii) (n : nat) : list string :=
  match n with
  | O => []
  | S O => [s]
  | S n' =>
      match Cut s sep with
      | Some (before, after) => before :: SplitN after sep n'
      | None => [s]
      end
  end.

Definition HasPrefix (s prefix : string) : bool := String.prefix prefix s.

Fixpoint drop_bytes (n : nat) (s : string) : string :=
  match n, s with
  | O, _ => s
  | S n', String _ s' => drop_bytes n' s'
  | S _, EmptyString => EmptyString
  end.

(** [strings.TrimPrefix]. *)
Definition TrimPrefix (s prefix : string) : string :=
  if HasPrefix s prefix then drop_bytes (String.length prefix) s else s.

(** [strings.Join]. *)
Fixpoint Join (elems : list string) (sep : string) : string :=
  match elems with
  | [] => EmptyString
  | [e] => e
  | e :: rest => e +:+ sep +:+ Join rest sep
  end.

(** [strconv.Itoa] and [strconv.FormatUint n 10]. *)
Definition Itoa (n : Z) : string := pretty n.
Definition FormatUint (n : N) : string := pretty n.

End strs.

(** Go's [int] and [int64] on the platforms the gateway is built for:
    64-bit two's complement. *)
Definition int_min : Z := - 2 ^ 63.
Definition int_max : Z := 2 ^ 63 - 1.
Definition int_wrap (z : Z) : Z := (z + 2 ^ 63) mod 2 ^ 64 - 2 ^ 63.

(** ** [net/http]: header maps, requests, responses *)

Module http.

Abbreviation Header := (gmap string (list string)).

(** The bytes [net/textproto] accepts in a header field name. *)
Definition validHeaderFieldByte (c : ascii) : bool :=
  let n := Ascii.N_of_ascii c in
  (((48 <=? n) && (n <=? 57)) || ((65 <=? n) && (n <=? 90))
   || ((97 <=? n) && (n <=? 122))
   || bool_decide (n ∈ [33; 35; 36; 37; 38; 39; 42; 43; 45; 46; 94; 95; 96; 124; 126]))%N.

Fixpoint all_valid (s : string) : bool :=
  match s with
  | EmptyString => true
  | String c s' => validHeaderFieldByte c && all_valid s'
  end.

Fixpoint canon_from (upper : bool) (s : string) : string :=
  match s with
  | EmptyString => EmptyString
  | String c s' =>
      let n := Ascii.N_of_ascii c in
      let c' :=
        if (upper && (97 <=? n) && (n <=? 122))%N then Ascii.ascii_of_N (n - 32)
        else if (negb upper && (65 <=? n) && (n <=? 90))%N then Ascii.ascii_of_N (n + 32)
        else c in
      String c' (canon_from (bool_decide (c' = "-"%char)) s')
  end.

(** [textproto.CanonicalMIMEHeaderKey]: the first letter and every letter
    after a hyphen in upper case, the others in lower case; a name with a
    byte that is not a token byte is left as it is. *)
Definition CanonicalHeaderKey (s : string) : string :=
  if all_valid s then canon_from true s else s.

Definition Get (h : Header) (key : string) : string :=
  match h !! CanonicalHeaderKey key with
  | Some (v :: _) => v
  | _ => EmptyString
  end.

Definition Set_ (h : Header) (key value : string) : Header :=
  <[CanonicalHeaderKey key := [value]]> h.

Definition Add (h : Header) (key value : string) : Header :=
  <[CanonicalHeaderKey key := default [] (h !! CanonicalHeaderKey key) ++ [value]]> h.

Definition Del (h : Header) (key : string) : Header :=
  delete (CanonicalHeaderKey key) h.

(** [url.Userinfo] and [url.URL], field by field. *)
Record Userinfo := {
  username : string;
  password : string;
  passwordSet : bool;
}.

Record URL := {
  Scheme : string;
  Opaque : string;
  User : option Userinfo;
  Host : string;
  Path : string;
  RawPath : string;
  OmitHost : bool;
  ForceQuery : bool;
  RawQuery : string;
  Fragment : string;
  RawFragment : string;
}.

(** The assignments [u.Path = p] and [u.RawQuery = q]. *)
Definition set_Path (p : string) (u : URL) : URL :=
  {| Scheme := Scheme u; Opaque := Opaque u; User := User u; Host := Host u; Path := p;
     RawPath := RawPath u; OmitHost := OmitHost u; ForceQuery := ForceQuery u;
     RawQuery := RawQuery u; Fragment := Fragment u; RawFragment := RawFragment u |}.

Definition set_RawQuery (q : string) (u : URL) : URL :=
  {| Scheme := Scheme u; Opaque := Opaque u; User := User u; Host := Host u;
     Path := Path u; RawPath := RawPath u; OmitHost := OmitHost u;
     ForceQuery := ForceQuery u; RawQuery := q; Fragment := Fragment u;
     RawFragment := RawFragment u |}.

(** A request body is a stream: the chunks its reader delivers, ended by
    EOF or by a read error. *)
Record BodyReader := {
  chunks : list string;
  read_error : bool;
}.

(** [io.ReadAll]: everything the reader delivers, in one buffer, and the
    error that ended the reading, if any. *)
Definition ReadAll (r : BodyReader) : string * bool :=
  (foldr String.append EmptyString (chunks r), read_error r).

Record Request := {
  Method : string;
  URL_Path : string;
  URL_RawQuery : string;
  ReqHeader : Header;
  Body : option BodyReader;
}.

Definition set_ReqHeader (f : Header → Header) (r : Request) : Request :=
  {| Method := Method r; URL_Path := URL_Path r; URL_RawQuery := URL_RawQuery r;
     ReqHeader := f (ReqHeader r); Body := Body r |}.

(** The request [ProxyRequest] hands to [httpClient.Do]: the method, the
    URL [http.NewRequestWithContext] parsed, the header map the forwarder
    filled and the body.  The client may send more than this one request:
    it follows the redirects a backend answers. *)
Record ClientRequest := {
  CMethod : string;
  CURL : URL;
  CHeader : Header;
  CBody : string;
}.

(** What [httpClient.Do] returns: the response the client ends with, after
    the redirects it followed, and the result of reading the body of that
    response (the bytes, or a read error). *)
Record ClientResponse := {
  StatusCode : Z;
  RespHeader : Header;
  RespBody : option string;
}.


End http.

(** ** Package [logger] *)

Inductive Level := DebugLevel | InfoLevel | WarnLevel | ErrorLevel | FatalLevel.

Definition is_warn (l : Level) : bool :=
  match l with WarnLevel => true | _ => false end.

(** Values stored under [gin.Context] keys and logged as fields. *)
Inductive Value :=
  | VString (s : string)
  | VUint64 (n : N)
  | VInt (z : Z)
  | VDuration (ns : Z)
  | VTime (ns : Z)
  | VError.

Record LogRecord := {
  time : Z;
  level : Level;
  msg : string;
  fields : list (string * Value);
}.

Definition record_is_warn (r : LogRecord) : bool := is_warn (level r).

(** ** Package [config] *)

Inductive result (A : Type) :=
  | Ok (a : A)
  | Err (e : string).
Arguments Ok {A} a.
Arguments Err {A} e.

Module config.

Record JWTConfig := {
  Secret : string;
  ExpiresIn : Z;
  RefreshExpiresIn : Z;
}.

Record CORSConfig := {
  AllowedOrigins : list string;
  AllowedMethods : list string;
  AllowedHeaders : list string;
}.

Record RateLimitConfig := {
  Requests : Z;
  Window : Z;
}.

Record RedisConfig := {
  RHost : string;
  RPort : Z;
  Password : string;
  DB : Z;
}.

Record ServicesConfig := {
  AuthURL : string;
  CaptchaURL : string;
}.

Record Config := {
  Port : Z;
  Environment : string;
  JWT : JWTConfig;
  CORS : CORSConfig;
  RateLimit : RateLimitConfig;
  Redis : RedisConfig;
  Services : ServicesConfig;
  LogLevel : string;
}.

(** Durations are nanoseconds, as [time.Duration]. *)
Definition Second : Z := 1000000000.
Definition Minute : Z := 60 * Second.
Definition Hour : Z := 60 * Minute.

(** The process environment; [os.Getenv] gives the empty string for a
    variable that is not set. *)
Definition Getenv (environ : gmap string string) (key : string) : string :=
  default EmptyString (environ !! key).

Section Load.

(** [strconv.Atoi] and [time.ParseDuration] of the Go library: [None] is
    their error result. *)
Variable Atoi : string → option Z.
Variable ParseDuration : string → option Z.

Variable environ : gmap string string.

Definition getEnv (key defaultValue : string) : string :=
  let value := Getenv environ key in
  if decide (value ≠ EmptyString) then value else defaultValue.

Definition getEnvInt (key : string) (defaultValue : Z) : Z :=
  let value := Getenv environ key in
  if decide (value ≠ EmptyString) then
    match Atoi value with
    | Some intVal => intVal
    | None => defaultValue
    end
  else defaultValue.

Definition getEnvSlice (key : string) (defaultValue : list string) : list string :=
  let value := Getenv environ key in
  if decide (value ≠ EmptyString) then strs.Split value ","%char else defaultValue.

Definition getEnvDuration (key : string) (defaultValue : Z) : Z :=
  let value := Getenv environ key in
  if decide (value ≠ EmptyString) then
    match ParseDuration value with
    | Some duration => duration
    | None => defaultValue
    end
  else defaultValue.

Definition Load : result Config :=
  let cfg := {|
    Port := getEnvInt "GATEWAY_PORT" 8080;
    Environment := getEnv "GATEWAY_ENV" "development";
    LogLevel := getEnv "LOG_LEVEL" "info";
    JWT := {|
      Secret := getEnv "JWT_SECRET" "your-secret-key-min-32-characters-long";
      ExpiresIn := getEnvDuration "JWT_EXPIRES_IN" (24 * Hour);
      RefreshExpiresIn := getEnvDuration "JWT_REFRESH_EXPIRES_IN" (7 * 24 * Hour);
    |};
    CORS := {|
      AllowedOrigins := getEnvSlice "CORS_ORIGINS" ["http://localhost:3000"];
      AllowedMethods := ["GET"; "POST"; "PUT"; "DELETE"; "OPTIONS"; "PATCH"];
      AllowedHeaders := ["Accept"; "Authorization"; "Content-Type"; "X-API-Key";
                         "X-Request-ID"; "X-Requested-With"];
    |};
    RateLimit := {|
      Requests := getEnvInt "RATE_LIMIT_REQUESTS" 100;
      Window := int_wrap (getEnvInt "RATE_LIMIT_WINDOW_SECONDS" 60 * Second);
    |};
    Redis := {|
      RHost := getEnv "REDIS_HOST" "localhost";
      RPort := getEnvInt "REDIS_PORT" 6379;
      Password := getEnv "REDIS_PASSWORD" EmptyString;
      DB := getEnvInt "REDIS_DB" 0;
    |};
    Services := {|
      AuthURL := getEnv "AUTH_SERVICE_URL" "http://localhost:8081";
      CaptchaURL := getEnv "CAPTCHA_SERVICE_URL" "http://localhost:8082";
    |};
  |} in
  if bool_decide (Secret (JWT cfg) = EmptyString)
     || bool_decide (String.length (Secret (JWT cfg)) < 32)%nat
  then Err "JWT_SECRET must be at least 32 characters"
  else Ok cfg.

End Load.

End config.

(** ** Package [time]: the seconds of a duration *)

Module time.

(** The binary64 number nearest to [n/d] (ties to even) for positive [n]
    and [d], as a mantissa of 53 bits and an exponent: its value is
    [m * 2^e].  The quotients formed below are far from the subnormal
    numbers and from overflow. *)
Definition round53 (n d : Z) : Z * Z :=
  let scaled (e : Z) : Z * Z :=
    if decide (0 ≤ e) then (n, d * 2 ^ e) else (n * 2 ^ (- e), d) in
  let e1 := Z.log2 n - Z.log2 d - 52 in
  let e := if decide ((scaled e1).1 / (scaled e1).2 < 2 ^ 52) then e1 - 1 else e1 in
  let '(num, den) := scaled e in
  let q := num / den in
  let r := num - q * den in
  if decide (2 * r > den ∨ (2 * r = den ∧ Z.odd q = true)) then (q + 1, e) else (q, e).

(** [int(d.Seconds())].  [Seconds] computes [float64(sec) + float64(nsec)/1e9]
    from the quotient and the remainder of [d] by a second, in binary64;
    the conversion to [int] truncates.  For a whole number of seconds the
    result is that number; just below a whole second, from about
    [2^33] seconds on, the sum rounds up to the next second. *)
Definition Seconds_int (d : Z) : Z :=
  let a := Z.abs d in
  let sec := a / config.Second in
  let nsec := a mod config.Second in
  Z.sgn d *
  (if decide (nsec = 0) then sec
   else
     let '(m2, e2) := round53 nsec config.Second in
     let '(m, e) := round53 (sec * 2 ^ (- e2) + m2) (2 ^ (- e2)) in
     if decide (0 ≤ e) then m * 2 ^ e else m / 2 ^ (- e)).

End time.

(** ** The gin framework: context, writer, handler chains *)

Module gin.

Inductive Mode := DebugMode | ReleaseMode | TestMode.

(** What a handler writes as the response body: nothing, a [gin.H] object
    rendered as JSON (keys in the order [encoding/json] emits them, that is
    sorted), or raw bytes. *)
Inductive Body :=
  | NoBody
  | JSONBody (obj : list (string * Value))
  | DataBody (data : string).

Record Response := {
  Status : Z;
  Header_ : http.Header;
  RBody : Body;
}.

(** What the world outside supplies while one request is served. *)
Record Env := {
  ClientIP : string;                      (* c.ClientIP() *)
  Now : Z;                                (* time.Now(), in nanoseconds *)
  Elapsed : Z;                            (* time.Since(start) after the chain ran *)
  NewUUID : string;                       (* the 16 random bytes of uuid.New() *)
  RedisFails : bool;                      (* pipe.Exec returns an error *)
  Backend : option http.ClientResponse;   (* what httpClient.Do returns; None: an error *)
}.

(** One entry of the in-memory limiter's map. *)
Record client := {
  count : Z;
  lastSeen : Z;
}.

(** One key of the counter store: its integer value and the instant it
    expires. *)
Record counter := {
  value : Z;
  expires : Z;
}.

(** What outlives a request: gin's mode variable, the limiter's map, the
    counter store, the log and the requests handed to [httpClient.Do]. *)
Record World := {
  GinMode : Mode;
  Clients : gmap string client;
  Store : gmap string counter;
  Log : list LogRecord;
  Sent : list http.ClientRequest;
}.

(** [gin.Context], with the world the request runs in.  [Written] is the
    state of gin's response writer once it counts the header as written:
    the status it holds, the header map as it was then and the body
    rendered. *)
Record Context := {
  env : Env;
  Request : http.Request;
  Keys : gmap string Value;
  WHeader : http.Header;
  Written : option Response;
  world : World;
}.

Definition set_Request (f : http.Request → http.Request) (c : Context) : Context :=
  {| env := env c; Request := f (Request c); Keys := Keys c; WHeader := WHeader c;
     Written := Written c; world := world c |}.
Definition set_Keys (f : gmap string Value → gmap string Value) (c : Context) : Context :=
  {| env := env c; Request := Request c; Keys := f (Keys c); WHeader := WHeader c;
     Written := Written c; world := world c |}.
Definition set_WHeader (f : http.Header → http.Header) (c : Context) : Context :=
  {| env := env c; Request := Request c; Keys := Keys c; WHeader := f (WHeader c);
     Written := Written c; world := world c |}.
Definition set_Written (w : option Response) (c : Context) : Context :=
  {| env := env c; Request := Request c; Keys := Keys c; WHeader := WHeader c;
     Written := w; world := world c |}.
Definition set_world (f : World → World) (c : Context) : Context :=
  {| env := env c; Request := Request c; Keys := Keys c; WHeader := WHeader c;
     Written := Written c; world := f (world c) |}.

Definition set_Clients (f : gmap string client → gmap string client) (w : World) : World :=
  {| GinMode := GinMode w; Clients := f (Clients w); Store := Store w; Log := Log w;
     Sent := Sent w |}.
Definition set_Store (f : gmap string counter → gmap string counter) (w : World) : World :=
  {| GinMode := GinMode w; Clients := Clients w; Store := f (Store w); Log := Log w;
     Sent := Sent w |}.
Definition add_Log (r : LogRecord) (w : World) : World :=
  {| GinMode := GinMode w; Clients := Clients w; Store := Store w; Log := Log w ++ [r];
     Sent := Sent w |}.
Definition add_Sent (r : http.ClientRequest) (w : World) : World :=
  {| GinMode := GinMode w; Clients := Clients w; Store := Store w; Log := Log w;
     Sent := Sent w ++ [r] |}.

(** A handler body: a computation on the context that returns a value or
    panics ([None]). *)
Definition M (A : Type) : Type := Context → option A * Context.

Global Instance M_ret : MRet M := λ A x c, (Some x, c).
Global Instance M_bind : MBind M := λ A B f m c,
  match m c with
  | (Some x, c') => f x c'
  | (None, c') => (None, c')
  end.

Definition panic {A} : M A := λ c, (None, c).
Definition gets {A} (f : Context → A) : M A := λ c, (Some (f c), c).
Definition modify (f : Context → Context) : M unit := λ c, (Some tt, f c).

(** A middleware receives the rest of the chain: calling it is [c.Next()];
    returning without calling it, after an [Abort...], ends the chain. *)
Definition HandlerFunc : Type := M unit → M unit.

Definition chain (middleware : list HandlerFunc) (final : M unit) : M unit :=
  foldr (λ h rest, h rest) final middleware.

(** [c.GetHeader]. *)
Definition GetHeader (key : string) : M string :=
  gets (λ c, http.Get (http.ReqHeader (Request c)) key).

(** [c.Header]: sets the response header, or deletes it when the value is
    empty. *)
Definition setHeader (h : http.Header) (key value : string) : http.Header :=
  if decide (value = EmptyString) then http.Del h key else http.Set_ h key value.

Definition Header (key value : string) : M unit :=
  modify (set_WHeader (λ h, setHeader h key value)).

(** [c.Request.Header.Set]. *)
Definition RequestHeaderSet (key value : string) : M unit :=
  modify (set_Request (http.set_ReqHeader (λ h, http.Set_ h key value))).

(** [c.Set], [c.Get], [c.GetString]. *)
Definition Set_ (key : string) (v : Value) : M unit :=
  modify (set_Keys (λ k, <[key := v]> k)).
Definition Get (key : string) : M (option Value) :=
  gets (λ c, Keys c !! key).
Definition GetString (key : string) : M string :=
  gets (λ c, match Keys c !! key with Some (VString s) => s | _ => EmptyString end).

(** [c.Writer.Status()]: 200 until a handler sets another one. *)
Definition WriterStatus : M Z :=
  gets (λ c, match Written c with Some r => Status r | None => 200 end).

(** The codes [net/http]'s [WriteHeader] panics for, and the codes it
    sends as the header of the response: a code from 100 to 199 other
    than 101 goes out as an informational header, after which the
    response is still to be written. *)
Definition refused_code (code : Z) : bool := (code <? 100) || (999 <? code).
Definition final_code (code : Z) : bool :=
  bool_decide (code = 101) || ((200 <=? code) && (code <=? 999)).

(** gin's [bodyAllowedForStatus]: a response with a status from 100 to
    199, 204 or 304 is rendered without its body. *)
Definition bodyAllowedForStatus (status : Z) : bool :=
  negb (((100 <=? status) && (status <=? 199))
        || bool_decide (status = 204) || bool_decide (status = 304)).

(** [c.Status(code)] followed by the first [WriteHeaderNow]: gin's writer
    keeps its status (200 at first) when the code is not positive, counts
    the header as written and only then calls [net/http]'s [WriteHeader],
    which panics for a code it refuses.  Later writes change nothing.  The
    body is the one the handler renders, when the status allows one. *)
Definition write (code : Z) (body : Body) : M unit := λ c,
  match Written c with
  | Some _ => (Some tt, c)
  | None =>
      let status := if decide (0 < code) then code else 200 in
      let c' := set_Written
                  (Some {| Status := status; Header_ := WHeader c;
                           RBody := if bodyAllowedForStatus status then body
                                    else NoBody |}) c in
      if refused_code status then (None, c') else (Some tt, c')
  end.

(** gin sets the content type of a rendered body only when the header map
    has none yet. *)
Definition writeContentType (contentType : string) : M unit :=
  modify (set_WHeader (λ h,
    match h !! "Content-Type" with
    | Some (_ :: _) => h
    | _ => <["Content-Type" := [contentType]]> h
    end)).

(** [c.JSON] and [c.AbortWithStatusJSON]; the abort is the caller's not
    running the rest of the chain. *)
Definition JSON (code : Z) (obj : list (string * Value)) : M unit :=
  writeContentType "application/json; charset=utf-8";;
  write code (JSONBody obj).
Definition AbortWithStatusJSON (code : Z) (obj : list (string * Value)) : M unit :=
  JSON code obj.

(** [c.AbortWithStatus]. *)
Definition AbortWithStatus (code : Z) : M unit := write code NoBody.

(** [c.Data]. *)
Definition Data (code : Z) (contentType : string) (data : string) : M unit :=
  writeContentType contentType;;
  write code (DataBody data).

(** A call of [Debug], [Info], [Warn] or [Error] on the logger.  [Log] holds
    the records handed to the logger, in order; the lines the zap core
    writes are those among them that pass its level threshold and its
    sampling. *)
Definition log (l : Level) (m : string) (kv : list (string * Value)) : M unit :=
  modify (λ c,
    set_world (add_Log {| time := Now (env c); level := l; msg := m; fields := kv |}) c).

(** [gin.Recovery]: a panic below becomes a 500 without body, unless gin's
    writer counts the header as written already. *)
Definition Recovery : HandlerFunc := λ next c,
  match next c with
  | (None, c') => AbortWithStatus 500 c'
  | done => done
  end.

(** What the client receives when the chain has run: the response gin's
    writer handed to [net/http] with a code that ends the header; in all
    other cases (no handler wrote, the code was refused, or it was an
    informational one) the server's own final flush, with status 200, the
    header map as it is then and no body. *)
Definition response (c : Context) : Response :=
  match Written c with
  | Some r =>
      if final_code (Status r) then r
      else {| Status := 200; Header_ := WHeader c; RBody := NoBody |}
  | None => {| Status := 200; Header_ := WHeader c; RBody := NoBody |}
  end.

End gin.

(** ** Package [middleware] *)

Module middleware.
Import gin.

(** [hex.EncodeToString]. *)
Definition hex_digit (n : N) : ascii :=
  if (n <? 10)%N then Ascii.ascii_of_N (48 + n) else Ascii.ascii_of_N (87 + n).

Fixpoint EncodeToString (src : string) : string :=
  match src with
  | EmptyString => EmptyString
  | String c rest =>
      String (hex_digit (Ascii.N_of_ascii c / 16))
        (String (hex_digit (Ascii.N_of_ascii c mod 16)) (EncodeToString rest))
  end.

(** [uuid.UUID.String]: the sixteen bytes in hexadecimal, in five groups
    separated by hyphens. *)
Definition uuid_String (u : string) : string :=
  EncodeToString (String.substring 0 4 u) +:+ "-" +:+
  EncodeToString (String.substring 4 2 u) +:+ "-" +:+
  EncodeToString (String.substring 6 2 u) +:+ "-" +:+
  EncodeToString (String.substring 8 2 u) +:+ "-" +:+
  EncodeToString (String.substring 10 6 u).

Definition uintToString (n : N) : string := strs.FormatUint n.
Definition intToString (n : Z) : string := strs.Itoa n.

(** [Logger]: one info record per request, written after the rest of the
    chain has run. *)
Definition Logger : HandlerFunc := λ next,
  path ← gets (λ c, http.URL_Path (Request c));
  query ← gets (λ c, http.URL_RawQuery (Request c));
  next;;
  latency ← gets (λ c, Elapsed (env c));
  status ← WriterStatus;
  method ← gets (λ c, http.Method (Request c));
  clientIP ← gets (λ c, ClientIP (env c));
  requestID ← GetString "request_id";
  log InfoLevel "HTTP Request"
    [("method", VString method); ("path", VString path); ("query", VString query);
     ("status", VInt status); ("latency", VDuration latency);
     ("client_ip", VString clientIP); ("request_id", VString requestID)].

Definition RequestID : HandlerFunc := λ next,
  requestID ← GetHeader "X-Request-ID";
  requestID ← (if decide (requestID = EmptyString)
               then gets (λ c, uuid_String (NewUUID (env c)))
               else mret requestID);
  Set_ "request_id" (VString requestID);;
  Header "X-Request-ID" requestID;;
  next.

Definition CORS (cfg : config.CORSConfig) : HandlerFunc := λ next,
  origin ← GetHeader "Origin";
  let allowed :=
    existsb (λ allowedOrigin,
               bool_decide (allowedOrigin = "*") || bool_decide (allowedOrigin = origin))
            (config.AllowedOrigins cfg) in
  (if allowed && bool_decide (origin ≠ EmptyString)
   then Header "Access-Control-Allow-Origin" origin
   else mret tt);;
  Header "Access-Control-Allow-Methods" (strs.Join (config.AllowedMethods cfg) ", ");;
  Header "Access-Control-Allow-Headers" (strs.Join (config.AllowedHeaders cfg) ", ");;
  Header "Access-Control-Allow-Credentials" "true";;
  Header "Access-Control-Max-Age" "86400";;
  method ← gets (λ c, http.Method (Request c));
  if decide (method = "OPTIONS") then AbortWithStatus 204 else next.

Definition SecurityHeaders : HandlerFunc := λ next,
  Header "X-Content-Type-Options" "nosniff";;
  Header "X-Frame-Options" "DENY";;
  Header "X-XSS-Protection" "1; mode=block";;
  Header "Referrer-Policy" "strict-origin-when-cross-origin";;
  mode ← gets (λ c, GinMode (world c));
  (match mode with
   | ReleaseMode =>
       Header "Strict-Transport-Security" "max-age=31536000; includeSubDomains"
   | _ => mret tt
   end);;
  next.

Record JWTClaims := {
  UserID : N;
  Email : string;
  Role : string;
}.

Definition ErrInvalidToken : string := "invalid token".

(** [validateJWT]: the token is cut at its dots and must have three
    segments; the secret is not consulted, no segment is decoded, and the
    claims returned are the zero user. *)
Definition validateJWT (tokenString secret : string) : result JWTClaims :=
  let parts := strs.Split tokenString "."%char in
  if decide (length parts ≠ 3%nat) then Err ErrInvalidToken
  else Ok {| UserID := 0; Email := EmptyString; Role := EmptyString |}.

Definition unauthorized (message : string) : list (string * Value) :=
  [("error", VString "unauthorized"); ("message", VString message)].

Definition AuthRequired (secret : string) : HandlerFunc := λ next,
  authHeader ← GetHeader "Authorization";
  if decide (authHeader = EmptyString) then
    AbortWithStatusJSON 401 (unauthorized "Authorization header is required")
  else
    match strs.SplitN authHeader " "%char 2 with
    | [scheme; token] =>
        if decide (strs.ToLower scheme ≠ "bearer") then
          AbortWithStatusJSON 401 (unauthorized "Invalid authorization header format")
        else
          match validateJWT token secret with
          | Err _ =>
              AbortWithStatusJSON 401 (unauthorized "Invalid or expired token")
          | Ok claims =>
              Set_ "user_id" (VUint64 (UserID claims));;
              Set_ "user_email" (VString (Email claims));;
              Set_ "user_role" (VString (Role claims));;
              RequestHeaderSet "X-User-ID" (uintToString (UserID claims));;
              RequestHeaderSet "X-User-Email" (Email claims);;
              RequestHeaderSet "X-User-Role" (Role claims);;
              next
          end
    | _ => AbortWithStatusJSON 401 (unauthorized "Invalid authorization header format")
    end.

Section APIKey.

(** [sha256.Sum256] of the Go library: the 32-byte digest. *)
Variable Sum256 : string → string.

Definition APIKeyOrJWTAuth (jwtSecret : string) : HandlerFunc := λ next,
  apiKey ← GetHeader "X-API-Key";
  if decide (apiKey ≠ EmptyString) then
    let keyHash := Sum256 apiKey in
    Set_ "api_key_hash" (VString (EncodeToString keyHash));;
    Set_ "auth_type" (VString "api_key");;
    RequestHeaderSet "X-API-Key-Hash" (EncodeToString keyHash);;
    next
  else
    authHeader ← GetHeader "Authorization";
    let reject :=
      AbortWithStatusJSON 401 (unauthorized "API key or valid JWT token required") in
    if decide (authHeader ≠ EmptyString) then
      match strs.SplitN authHeader " "%char 2 with
      | [scheme; token] =>
          if decide (strs.ToLower scheme = "bearer") then
            match validateJWT token jwtSecret with
            | Ok claims =>
                Set_ "user_id" (VUint64 (UserID claims));;
                Set_ "user_email" (VString (Email claims));;
                Set_ "user_role" (VString (Role claims));;
                Set_ "auth_type" (VString "jwt");;
                RequestHeaderSet "X-User-ID" (uintToString (UserID claims));;
                RequestHeaderSet "X-User-Email" (Email claims);;
                RequestHeaderSet "X-User-Role" (Role claims);;
                next
            | Err _ => reject
            end
          else reject
      | _ => reject
      end
    else reject.

End APIKey.

Definition rate_limit_exceeded : list (string * Value) :=
  [("error", VString "rate_limit_exceeded");
   ("message", VString "Too many requests, please try again later")].

(** *** The counter store

    The two commands the limiter pipelines, as the store executes them at
    instant [now]: [INCR key] counts from zero when the key is absent or
    has expired and fails when the value would leave the 64-bit range;
    [EXPIRE key seconds] sets the key to expire that many seconds from now
    and deletes it at once when the number is not positive.  The client
    passes the window in whole seconds ([formatSec]): 1 for a positive
    window below one second, the truncated quotient otherwise.  [None] is
    the error of [pipe.Exec]: the store unreachable, or a failed command.
    There is one clock: the instant of the request is the instant at which
    the store executes the commands. *)
Definition live_value (now : Z) (store : gmap string counter) (key : string) : option Z :=
  match store !! key with
  | Some c => if decide (expires c < now) then None else Some (value c)
  | None => None
  end.

Definition formatSec (dur : Z) : Z :=
  if decide (0 < dur ∧ dur < config.Second) then 1 else dur ÷ config.Second.

(** The time to live a key gets for a window. *)
Definition ttl (window : Z) : Z := formatSec window * config.Second.

Definition Expire (key : string) (window now : Z) (n : option Z)
    (store : gmap string counter) : gmap string counter :=
  match n with
  | Some v =>
      if decide (formatSec window ≤ 0) then delete key store
      else <[key := {| value := v; expires := now + ttl window |}]> store
  | None => delete key store
  end.

Definition pipeline_Exec (fails : bool) (key : string) (window now : Z)
    (store : gmap string counter) : gmap string counter * option Z :=
  if fails then (store, None)
  else
    let old := live_value now store key in
    if decide (default 0 old + 1 > int_max) then (Expire key window now old store, None)
    else (Expire key window now (Some (default 0 old + 1)) store, Some (default 0 old + 1)).

(** What a limiter decides for one request: the rate-limit headers it
    emits and whether the request goes on. *)
Record decision := {
  headers : list (string * string);
  proceed : bool;
}.

Definition redis_decide (maxRequests window : Z) (res : option Z) : decision :=
  match res with
  | None => {| headers := []; proceed := true |}
  | Some n =>
      let remaining := int_wrap (maxRequests - n) in
      let remaining := if decide (remaining < 0) then 0 else remaining in
      {| headers := [("X-RateLimit-Limit", intToString maxRequests);
                     ("X-RateLimit-Remaining", intToString remaining);
                     ("X-RateLimit-Reset", intToString (time.Seconds_int window))];
         proceed := negb (bool_decide (n > maxRequests)) |}
  end.

Definition emit (d : decision) (next : M unit) : M unit :=
  foldr (λ kv rest, Header kv.1 kv.2;; rest) (mret tt) (headers d);;
  if proceed d then next else AbortWithStatusJSON 429 rate_limit_exceeded.

Definition RateLimiterRedis (maxRequests window : Z) : HandlerFunc := λ next,
  ip ← gets (λ c, ClientIP (env c));
  let key := "rate_limit:" +:+ ip in
  now ← gets (λ c, Now (env c));
  fails ← gets (λ c, RedisFails (env c));
  store ← gets (λ c, Store (world c));
  let '(store', res) := pipeline_Exec fails key window now store in
  modify (set_world (set_Store (λ _, store')));;
  emit (redis_decide maxRequests window res) next.

(** *** The in-memory limiter *)

Definition window : Z := config.Minute.

(** One pass of the cleanup goroutine, under the mutex, at instant [now]. *)
Definition cleanup (now : Z) (clients : gmap string client) : gmap string client :=
  filter (λ kv, ¬ (now - lastSeen kv.2 > window * 2)) clients.

Definition memory_step (maxRequests : Z) (ip : string) (now : Z)
    (clients : gmap string client) : gmap string client * decision :=
  match clients !! ip with
  | Some cl =>
      let cl' :=
        if decide (now - lastSeen cl > window)
        then {| count := 1; lastSeen := now |}
        else {| count := int_wrap (count cl + 1); lastSeen := lastSeen cl |} in
      let remaining := int_wrap (maxRequests - count cl') in
      let remaining := if decide (remaining < 0) then 0 else remaining in
      (<[ip := cl']> clients,
       {| headers := [("X-RateLimit-Limit", intToString maxRequests);
                      ("X-RateLimit-Remaining", intToString remaining)];
          proceed := negb (bool_decide (count cl' > maxRequests)) |})
  | None =>
      (<[ip := {| count := 1; lastSeen := now |}]> clients,
       {| headers := [("X-RateLimit-Limit", intToString maxRequests);
                      ("X-RateLimit-Remaining", intToString (int_wrap (maxRequests - 1)))];
          proceed := true |})
  end.

Definition RateLimiterMemory (maxRequests : Z) : HandlerFunc := λ next,
  ip ← gets (λ c, ClientIP (env c));
  now ← gets (λ c, Now (env c));
  clients ← gets (λ c, Clients (world c));
  let '(clients', d) := memory_step maxRequests ip now clients in
  modify (set_world (set_Clients (λ _, clients')));;
  emit d next.

End middleware.

(** ** Package [proxy] *)

Module proxy.
Import gin.

Record ServiceProxy := {
  targetURL : string;
}.

(** The two nested loops that copy a header map: every value of every key
    is passed to [put], which is [Header.Add] for the request and
    [c.Header] for the response. *)
Definition copyHeaders (put : http.Header → string → string → http.Header)
    (src dst : http.Header) : http.Header :=
  map_fold (λ key values dst, foldl (λ dst value, put dst key value) dst values) dst src.

(** [fmt.Sprintf] with the verb [%v]. *)
Definition Sprintf_v (v : Value) : string :=
  match v with
  | VString s => s
  | VUint64 n => pretty n
  | VInt z => pretty z
  | VDuration ns => pretty ns
  | VTime ns => pretty ns
  | VError => "error"
  end.

(** The type assertion [v.(string)]: it panics on any other value. *)
Definition assertString (v : Value) : M string :=
  match v with
  | VString s => mret s
  | _ => panic
  end.

Definition proxy_error (message : string) : list (string * Value) :=
  [("error", VString "proxy_error"); ("message", VString message)].

(** [header.Set(key, v.(string))] for a context value that is present. *)
Definition setAsserted (header : http.Header) (key : string) (v : option Value)
    : M http.Header :=
  match v with
  | Some v => s ← assertString v; mret (http.Set_ header key s)
  | None => mret header
  end.

(** The header of the request to the backend: the inbound header copied
    value by value, then the client address, the request id and what the
    authentication middleware left under the context keys. *)
Definition forwardHeader (req : http.Request) : M http.Header :=
  let header := copyHeaders http.Add (http.ReqHeader req) ∅ in
  clientIP ← gets (λ c, ClientIP (env c));
  let header :=
    if decide (clientIP ≠ EmptyString)
    then http.Set_ (http.Set_ header "X-Forwarded-For" clientIP) "X-Real-IP" clientIP
    else header in
  requestID ← GetString "request_id";
  let header :=
    if decide (requestID ≠ EmptyString)
    then http.Set_ header "X-Request-ID" requestID
    else header in
  userID ← Get "user_id";
  let header :=
    match userID with
    | Some v => http.Set_ header "X-User-ID" (Sprintf_v v)
    | None => header
    end in
  userEmail ← Get "user_email";
  header ← setAsserted header "X-User-Email" userEmail;
  userRole ← Get "user_role";
  header ← setAsserted header "X-User-Role" userRole;
  apiKeyHash ← Get "api_key_hash";
  setAsserted header "X-API-Key-Hash" apiKeyHash.

(** What [ProxyRequest] does with the outcome of [httpClient.Do]; [target]
    is the target URL as a string. *)
Definition relay (target : string) (backend : option http.ClientResponse) : M unit :=
  match backend with
  | None =>
      log ErrorLevel "Failed to proxy request"
        [("error", VError); ("target", VString target)];;
      JSON 502 [("error", VString "service_unavailable");
                ("message", VString "Backend service is unavailable")]
  | Some resp =>
      match http.RespBody resp with
      | None =>
          log ErrorLevel "Failed to read response body" [("error", VError)];;
          JSON 500 (proxy_error "Failed to read response")
      | Some respBody =>
          modify (set_WHeader (copyHeaders setHeader (http.RespHeader resp)));;
          Data (http.StatusCode resp)
               (http.Get (http.RespHeader resp) "Content-Type") respBody
      end
  end.

Section ProxyRequest.

(** Of the Go library: [url.Parse] ([None] is its error), [URL.String],
    and [http.NewRequestWithContext] as a function of the method and of
    the URL string it is given: [None] is its error (a method that is not
    a token, a string [url.Parse] rejects), otherwise the URL of the
    request it builds, which is what it parsed from the string. *)
Variable url_Parse : string → option http.URL.
Variable URL_String : http.URL → string.
Variable NewRequest : string → string → option http.URL.

Definition ProxyRequest (p : ServiceProxy) (path : string) : M unit :=
  match url_Parse (targetURL p) with
  | None =>
      log ErrorLevel "Failed to parse target URL"
        [("error", VError); ("url", VString (targetURL p))];;
      JSON 500 (proxy_error "Failed to proxy request")
  | Some parsed =>
      req ← gets Request;
      let target :=
        http.set_RawQuery (http.URL_RawQuery req)
          (http.set_Path ("/api/v1" +:+ path) parsed) in
      let '(bodyBytes, err) :=
        match http.Body req with
        | Some r => http.ReadAll r
        | None => (EmptyString, false)
        end in
      if err then
        log ErrorLevel "Failed to read request body" [("error", VError)];;
        JSON 400 [("error", VString "bad_request");
                  ("message", VString "Failed to read request body")]
      else
        match NewRequest (http.Method req) (URL_String target) with
        | None =>
            log ErrorLevel "Failed to create proxy request" [("error", VError)];;
            JSON 500 (proxy_error "Failed to create proxy request")
        | Some url =>
            header ← forwardHeader req;
            log DebugLevel "Proxying request"
              [("method", VString (http.Method req)); ("path", VString path);
               ("target", VString (URL_String target))];;
            modify (set_world (add_Sent
              {| http.CMethod := http.Method req; http.CURL := url;
                 http.CHeader := header; http.CBody := bodyBytes |}));;
            backend ← gets (λ c, Backend (env c));
            relay (URL_String target) backend
        end
  end.

End ProxyRequest.

End proxy.

(** ** Package [handlers] *)

Module handlers.
Import gin.

Record ProxyHandler := {
  authProxy : proxy.ServiceProxy;
  captchaProxy : proxy.ServiceProxy;
}.

Section Handlers.

Variable url_Parse : string → option http.URL.
Variable URL_String : http.URL → string.
Variable NewRequest : string → string → option http.URL.

Definition ProxyToAuth (h : ProxyHandler) : M unit :=
  path ← gets (λ c, http.URL_Path (Request c));
  let servicePath := strs.TrimPrefix path "/api/v1" in
  log DebugLevel "Proxying to auth service" [("path", VString servicePath)];;
  proxy.ProxyRequest url_Parse URL_String NewRequest (authProxy h) servicePath.

Definition ProxyToCaptcha (h : ProxyHandler) : M unit :=
  path ← gets (λ c, http.URL_Path (Request c));
  let servicePath := strs.TrimPrefix path "/api/v1" in
  log DebugLevel "Proxying to captcha service" [("path", VString servicePath)];;
  proxy.ProxyRequest url_Parse URL_String NewRequest (captchaProxy h) servicePath.

End Handlers.

End handlers.

(** ** Package [main]: the route table and the server *)

Module main.
Import gin.

Inductive service := AuthService | CaptchaService.

(** The authentication middleware a route is registered behind. *)
Inductive policy := Public | JWTOnly | APIKeyOrJWT.

Record route := {
  verb : string;
  fullPath : string;
  auth : policy;
  backend : service;
}.

(** The routes [main] registers under the group [/api/v1], with the group
    prefixes written out. *)
Definition routes : list route := [
  {| verb := "POST"; fullPath := "/api/v1/auth/register"; auth := Public; backend := AuthService |};
  {| verb := "POST"; fullPath := "/api/v1/auth/login"; auth := Public; backend := AuthService |};
  {| verb := "POST"; fullPath := "/api/v1/auth/refresh"; auth := Public; backend := AuthService |};
  {| verb := "POST"; fullPath := "/api/v1/auth/logout"; auth := Public; backend := AuthService |};
  {| verb := "GET"; fullPath := "/api/v1/auth/me"; auth := JWTOnly; backend := AuthService |};
  {| verb := "PUT"; fullPath := "/api/v1/auth/me"; auth := JWTOnly; backend := AuthService |};
  {| verb := "PUT"; fullPath := "/api/v1/auth/me/password"; auth := JWTOnly; backend := AuthService |};
  {| verb := "GET"; fullPath := "/api/v1/api-keys"; auth := JWTOnly; backend := AuthService |};
  {| verb := "POST"; fullPath := "/api/v1/api-keys"; auth := JWTOnly; backend := AuthService |};
  {| verb := "DELETE"; fullPath := "/api/v1/api-keys/:id"; auth := JWTOnly; backend := AuthService |};
  {| verb := "POST"; fullPath := "/api/v1/captcha/solve"; auth := APIKeyOrJWT; backend := CaptchaService |};
  {| verb := "POST"; fullPath := "/api/v1/captcha/solve/batch"; auth := APIKeyOrJWT; backend := CaptchaService |};
  {| verb := "GET"; fullPath := "/api/v1/captcha/models"; auth := JWTOnly; backend := CaptchaService |};
  {| verb := "POST"; fullPath := "/api/v1/captcha/models/upload"; auth := JWTOnly; backend := CaptchaService |};
  {| verb := "POST"; fullPath := "/api/v1/captcha/train"; auth := JWTOnly; backend := CaptchaService |};
  {| verb := "GET"; fullPath := "/api/v1/captcha/train/:job_id"; auth := JWTOnly; backend := CaptchaService |};
  {| verb := "GET"; fullPath := "/api/v1/captcha/logs"; auth := JWTOnly; backend := CaptchaService |};
  {| verb := "GET"; fullPath := "/api/v1/captcha/stats"; auth := JWTOnly; backend := CaptchaService |}
].

(** gin's route lookup, segment by segment: a segment of the pattern that
    starts with a colon matches any non-empty segment, any other segment
    matches itself only. *)
Definition segment_matches (pat seg : string) : bool :=
  match pat with
  | String ":" _ => bool_decide (seg ≠ EmptyString)
  | _ => bool_decide (pat = seg)
  end.

Fixpoint segments_match (pats segs : list string) : bool :=
  match pats, segs with
  | [], [] => true
  | pat :: pats', seg :: segs' => segment_matches pat seg && segments_match pats' segs'
  | _, _ => false
  end.

Definition path_matches (pattern path : string) : bool :=
  segments_match (strs.Split pattern "/"%char) (strs.Split path "/"%char).

Definition lookup (method path : string) : option route :=
  snd <$> list_find (λ r, verb r = method ∧ path_matches (fullPath r) path = true) routes.

(** The methods the engine has a tree of routes for: [GET], for the health
    check, and the methods of the table. *)
Definition has_tree (method : string) : bool :=
  bool_decide (method = "GET") || existsb (λ r, bool_decide (verb r = method)) routes.

(** Whether a handler is registered for the method and path. *)
Definition routed (method path : string) : bool :=
  bool_decide (method = "GET" ∧ path = "/health")
  || match lookup method path with Some _ => true | None => false end.

Record Server := {
  cfg : config.Config;
  redisClient : bool;
}.

(** [gin.SetMode] as [main] calls it. *)
Definition SetMode (c : config.Config) (mode : Mode) : Mode :=
  if decide (config.Environment c = "production") then ReleaseMode else mode.

Section Main.

Variable Atoi : string → option Z.
Variable ParseDuration : string → option Z.
Variable Sum256 : string → string.
Variable url_Parse : string → option http.URL.
Variable URL_String : http.URL → string.
Variable NewRequest : string → string → option http.URL.

(** gin's engine, for a request that no route of the method's tree matches:
    when the tree recommends the same path with, or without, a trailing
    slash, the engine ([RedirectTrailingSlash], which [gin.New] turns on)
    answers itself with [http.Redirect], before any handler.  [Some] is
    what [http.Redirect] writes for the recommended path (the header with
    the [Location], and the body); [None] when the tree recommends
    nothing.  The status is the engine's: see [redirected]. *)
Variable trailingSlash : http.Request → option Response.

(** The start of [main], up to the listener: the configuration is loaded
    (a failure is fatal), gin's mode is set, the counter store is pinged
    ([redisUp]) and a warning logged when it does not answer.  [mode] is
    gin's mode before [main] runs and [store] what the counter store holds. *)
Definition start (environ : gmap string string) (mode : Mode) (redisUp : bool)
    (store : gmap string counter) (now : Z) : result (Server * World) :=
  let starting :=
    {| time := now; level := InfoLevel; msg := "Starting API Gateway..."; fields := [] |} in
  match config.Load Atoi ParseDuration environ with
  | Err e => Err e
  | Ok c =>
      Ok ({| cfg := c; redisClient := redisUp |},
          {| GinMode := SetMode c mode; Clients := ∅; Store := store;
             Log := starting ::
               (if redisUp then []
                else [{| time := now; level := WarnLevel;
                         msg := "Failed to connect to Redis, using in-memory rate limiting";
                         fields := [("error", VError)] |}]);
             Sent := [] |})
  end.

Definition proxyHandler (srv : Server) : handlers.ProxyHandler :=
  {| handlers.authProxy :=
       {| proxy.targetURL := config.AuthURL (config.Services (cfg srv)) |};
     handlers.captchaProxy :=
       {| proxy.targetURL := config.CaptchaURL (config.Services (cfg srv)) |} |}.

Definition health : M unit :=
  now ← gets (λ c, Now (env c));
  JSON 200 [("service", VString "gateway"); ("status", VString "healthy");
            ("time", VTime now)].

(** gin's answer when no route matches. *)
Definition notFound : M unit :=
  modify (set_WHeader (λ h, <["Content-Type" := ["text/plain"]]> h));;
  write 404 (DataBody "404 page not found").

Definition global (srv : Server) : list HandlerFunc :=
  [Recovery; middleware.Logger; middleware.RequestID;
   middleware.CORS (config.CORS (cfg srv)); middleware.SecurityHeaders].

Definition limiter (srv : Server) : HandlerFunc :=
  if redisClient srv
  then middleware.RateLimiterRedis (config.Requests (config.RateLimit (cfg srv)))
                                   (config.Window (config.RateLimit (cfg srv)))
  else middleware.RateLimiterMemory (config.Requests (config.RateLimit (cfg srv))).

Definition guard (srv : Server) (p : policy) : list HandlerFunc :=
  match p with
  | Public => []
  | JWTOnly => [middleware.AuthRequired (config.Secret (config.JWT (cfg srv)))]
  | APIKeyOrJWT =>
      [middleware.APIKeyOrJWTAuth Sum256 (config.Secret (config.JWT (cfg srv)))]
  end.

Definition forward (srv : Server) (b : service) : M unit :=
  match b with
  | AuthService => handlers.ProxyToAuth url_Parse URL_String NewRequest (proxyHandler srv)
  | CaptchaService => handlers.ProxyToCaptcha url_Parse URL_String NewRequest (proxyHandler srv)
  end.

(** The handler chain of a route under [/api/v1], after the global
    middleware. *)
Definition routeChain (srv : Server) (r : route) : M unit :=
  chain (limiter srv :: guard srv (auth r)) (forward srv (backend r)).

(** What the engine runs after the global middleware: the health handler,
    the chain of the route the request matches, or the 404 answer. *)
Definition handlerFor (srv : Server) (method path : string) : M unit :=
  if decide (method = "GET" ∧ path = "/health") then health
  else match lookup method path with
       | Some r => routeChain srv r
       | None => notFound
       end.

(** The code [redirectRequest] gives [http.Redirect]. *)
Definition redirect_code (method : string) : Z :=
  if decide (method = "GET") then 301 else 307.

(** The engine's own answer to a request, if it gives one: the redirect is
    tried when no handler is registered for the path, the method has a
    tree, is not [CONNECT] and the path is not the root. *)
Definition redirected (req : http.Request) : option Response :=
  if negb (routed (http.Method req) (http.URL_Path req)) && has_tree (http.Method req)
     && bool_decide (http.Method req ≠ "CONNECT") && bool_decide (http.URL_Path req ≠ "/")
  then (λ r, {| Status := redirect_code (http.Method req); Header_ := Header_ r;
                RBody := RBody r |}) <$> trailingSlash req
  else None.

Definition ServeHTTP (srv : Server) : M unit :=
  req ← gets Request;
  match redirected req with
  | Some r => modify (set_Written (Some r))
  | None => chain (global srv) (handlerFor srv (http.Method req) (http.URL_Path req))
  end.

(** Serving one request in world [w]: the final context. *)
Definition serve (srv : Server) (req : http.Request) (e : Env) (w : World) : Context :=
  (ServeHTTP srv {| env := e; Request := req; Keys := ∅; WHeader := ∅;
                    Written := None; world := w |}).2.

(** What happens to the running server: a request is served, or the
    cleanup goroutine makes a pass over the in-memory limiter's map.  The
    goroutine belongs to [RateLimiterMemory], which [main] constructs only
    when there is no counter store; a pass takes the limiter's mutex, so
    it falls before or after the limiter's step of any request. *)
Inductive step :=
  | Serve (req : http.Request) (e : Env)
  | Cleanup (now : Z).


Definition pass (srv : Server) (now : Z) (w : World) : World :=
  if redisClient srv then w else set_Clients (middleware.cleanup now) w.

(** The server's run: the world afterwards, and the responses to the
    requests served, in order. *)
Fixpoint serveAll (srv : Server) (steps : list step) (w : World)
    : World * list Response :=
  match steps with
  | [] => (w, [])
  | Serve req e :: rest =>
      let c := serve srv req e w in
      let '(w', rs) := serveAll srv rest (world c) in
      (w', response c :: rs)
  | Cleanup now :: rest => serveAll srv rest (pass srv now w)
  end.

End Main.

End main.

(** ** Runs of the two limiters

    The limiter middlewares are driven by what [memory_step] and
    [pipeline_Exec] decide; a run feeds them the requests that reach the
    limiter, in the order they take the mutex (or reach the store), and
    records for each whether it went on. *)

Module limiter.
Import gin middleware.

Record hit := {
  who : string;
  at_ : Z;
  passed : bool;
}.

(** What happens to the in-memory limiter: a request of a client, or a
    pass of the cleanup goroutine. *)
Inductive event :=
  | Arrive (ip : string) (now : Z)
  | Sweep (now : Z).

Definition event_time (e : event) : Z :=
  match e with
  | Arrive _ now => now
  | Sweep now => now
  end.

Fixpoint memory_run (maxRequests : Z) (evs : list event)
    (clients : gmap string client) : list hit :=
  match evs with
  | [] => []
  | Arrive ip now :: rest =>
      let '(clients', d) := memory_step maxRequests ip now clients in
      {| who := ip; at_ := now; passed := proceed d |} :: memory_run maxRequests rest clients'
  | Sweep now :: rest => memory_run maxRequests rest (cleanup now clients)
  end.

(** A request reaching the shared limiter: its client, the instant, and
    whether the round trip to the store fails. *)
Record arrival := {
  ip : string;
  now : Z;
  fails : bool;
}.

Definition key_of (client_ip : string) : string := "rate_limit:" +:+ client_ip.

Fixpoint redis_run (maxRequests window : Z) (evs : list arrival)
    (store : gmap string counter) : list hit :=
  match evs with
  | [] => []
  | e :: rest =>
      let '(store', res) := pipeline_Exec (fails e) (key_of (ip e)) window (now e) store in
      {| who := ip e; at_ := now e; passed := proceed (redis_decide maxRequests window res) |}
      :: redis_run maxRequests window rest store'
  end.

(** The requests of client [C] that went on (were not answered 429) in the
    window of length [W] that starts at [a]. *)
Definition counted (C : string) (a W : Z) (h : hit) : bool :=
  bool_decide (who h = C) && bool_decide (a ≤ at_ h) && bool_decide (at_ h < a + W)
  && passed h.

Fixpoint passed_in (C : string) (a W : Z) (hits : list hit) : nat :=
  match hits with
  | [] => 0%nat
  | h :: rest => ((if counted C a W h then 1 else 0) + passed_in C a W rest)%nat
  end.



Definition sound_counter (n : nat) (entry : option counter) : Prop :=
  match entry with
  | None => Z.of_nat n ≤ int_max
  | Some c => 0 ≤ value c ∧ value c + Z.of_nat n ≤ int_max
  end.

End limiter.

(** ** Invariants of handler chains *)

Module inv.
Import gin.

(** The header [k] of the response as the client would receive it now. *)
Definition header_is (k : string) (o : option (list string)) (c : Context) : Prop :=
  Header_ (response c) !! k = o.

(** No header name of the backend's answer canonicalises to [k]. *)
Definition relay_clear (k : string) (e : Env) : Prop :=
  ∀ resp, Backend e = Some resp →
    map_Forall (λ k' _, http.CanonicalHeaderKey k' ≠ k) (http.RespHeader resp).

(** The requests handed to the backends since the world was [w]. *)
Definition sent_since (w : World) (P : http.ClientRequest → Prop) (c : Context) : Prop :=
  ∃ new, Sent (world c) = Sent w ++ new ∧ Forall P new.

(** The header [forwardHeader] builds in context [c] when no type assertion
    panics: the copy of the inbound header with the injected names set. *)
Definition put_string (key : string) (v : option Value) (h : http.Header) : http.Header :=
  match v with
  | Some (VString s) => http.Set_ h key s
  | _ => h
  end.

Definition base_header (c : Context) : http.Header :=
  let header := proxy.copyHeaders http.Add (http.ReqHeader (Request c)) ∅ in
  let clientIP := ClientIP (env c) in
  let header :=
    if decide (clientIP ≠ EmptyString)
    then http.Set_ (http.Set_ header "X-Forwarded-For" clientIP) "X-Real-IP" clientIP
    else header in
  let requestID :=
    match Keys c !! "request_id" with Some (VString s) => s | _ => EmptyString end in
  let header :=
    if decide (requestID ≠ EmptyString)
    then http.Set_ header "X-Request-ID" requestID
    else header in
  match Keys c !! "user_id" with
  | Some v => http.Set_ header "X-User-ID" (proxy.Sprintf_v v)
  | None => header
  end.

Definition upstream_header (c : Context) : http.Header :=
  put_string "X-API-Key-Hash" (Keys c !! "api_key_hash")
    (put_string "X-User-Role" (Keys c !! "user_role")
       (put_string "X-User-Email" (Keys c !! "user_email") (base_header c))).

Definition body_bytes (b : option http.BodyReader) : string :=
  match b with
  | Some r => (http.ReadAll r).1
  | None => EmptyString
  end.

(** The request handed to the client in context [c], given the URL
    [http.NewRequestWithContext] parsed. *)
Definition upstream_request (url : http.URL) (c : Context) : http.ClientRequest :=
  {| http.CMethod := http.Method (Request c);
     http.CURL := url;
     http.CHeader := upstream_header c;
     http.CBody := body_bytes (http.Body (Request c)) |}.

(** The context values [forwardHeader] asserts to be strings are strings. *)
Definition string_or_absent (v : option Value) : Prop :=
  match v with
  | Some (VString _) | None => True
  | Some _ => False
  end.

Definition typed_keys (c : Context) : Prop :=
  string_or_absent (Keys c !! "user_email") ∧ string_or_absent (Keys c !! "user_role") ∧
  string_or_absent (Keys c !! "api_key_hash").

(** The outcome of [setAsserted]: the header, or a panic. *)
Definition asserted (key : string) (v : option Value) (h : http.Header)
    : option http.Header :=
  match v with
  | Some (VString s) => Some (http.Set_ h key s)
  | Some _ => None
  | None => Some h
  end.

(** *** The footprint of a handler

    One change a handler of the gateway makes to the context.  [Ph] and
    [Pk] say which response header names (in canonical form) and which
    context keys may be set. *)
Section Footprint.

Variable Ph : string → Prop.
Variable Pk : string → Prop.

Inductive change : Context → Context → Prop :=
  | ch_header c k v :
      Ph (http.CanonicalHeaderKey k) →
      change c (set_WHeader (λ h, setHeader h k v) c)
  | ch_ctype c ct :
      Ph "Content-Type" →
      change c (writeContentType ct c).2
  | ch_relay c resp :
      Backend (env c) = Some resp →
      change c (set_WHeader (proxy.copyHeaders setHeader (http.RespHeader resp)) c)
  | ch_write c code body :
      change c (write code body c).2
  | ch_key c k v :
      Pk k →
      change c (set_Keys (λ m, <[k := v]> m) c)
  | ch_reqheader c k v :
      change c (set_Request (http.set_ReqHeader (λ h, http.Set_ h k v)) c)
  | ch_log c l m kv :
      is_warn l = false →
      change c (log l m kv c).2
  | ch_clients c m :
      change c (set_world (set_Clients (λ _, m)) c)
  | ch_store c m :
      change c (set_world (set_Store (λ _, m)) c)
  | ch_sent c url :
      change c (set_world (add_Sent (upstream_request url c)) c).

(** Every run of [m] is a sequence of such changes. *)
Definition footprint {A} (m : M A) : Prop :=
  ∀ c, rtc change c (m c).2.

End Footprint.

(** The contexts the first three global middlewares hand to the rest of
    the chain. *)
Definition request_id_of (c : Context) : string :=
  let requestID := http.Get (http.ReqHeader (Request c)) "X-Request-ID" in
  if decide (requestID = EmptyString) then middleware.uuid_String (NewUUID (env c))
  else requestID.

Definition with_request_id (c : Context) : Context :=
  set_WHeader (λ h, setHeader h "X-Request-ID" (request_id_of c))
    (set_Keys (λ k, <["request_id" := VString (request_id_of c)]> k) c).

Definition with_security (c : Context) : Context :=
  let c := set_WHeader (λ h, setHeader h "X-Content-Type-Options" "nosniff") c in
  let c := set_WHeader (λ h, setHeader h "X-Frame-Options" "DENY") c in
  let c := set_WHeader (λ h, setHeader h "X-XSS-Protection" "1; mode=block") c in
  let c := set_WHeader (λ h, setHeader h "Referrer-Policy" "strict-origin-when-cross-origin") c in
  match GinMode (world c) with
  | ReleaseMode =>
      set_WHeader (λ h, setHeader h "Strict-Transport-Security"
                                  "max-age=31536000; includeSubDomains") c
  | _ => c
  end.

Definition with_cors (cfg : config.CORSConfig) (c : Context) : Context :=
  let origin := http.Get (http.ReqHeader (Request c)) "Origin" in
  let allowed :=
    existsb (λ allowedOrigin,
               bool_decide (allowedOrigin = "*") || bool_decide (allowedOrigin = origin))
            (config.AllowedOrigins cfg) in
  let c := if allowed && bool_decide (origin ≠ EmptyString)
           then set_WHeader (λ h, setHeader h "Access-Control-Allow-Origin" origin) c
           else c in
  let c := set_WHeader (λ h, setHeader h "Access-Control-Allow-Methods"
                               (strs.Join (config.AllowedMethods cfg) ", ")) c in
  let c := set_WHeader (λ h, setHeader h "Access-Control-Allow-Headers"
                               (strs.Join (config.AllowedHeaders cfg) ", ")) c in
  let c := set_WHeader (λ h, setHeader h "Access-Control-Allow-Credentials" "true") c in
  set_WHeader (λ h, setHeader h "Access-Control-Max-Age" "86400") c.

(** The canonical names of the response headers each part of the chain
    sets, and the context keys the authentication middlewares set. *)
Definition limiter_names : list string :=
  ["X-Ratelimit-Limit"; "X-Ratelimit-Remaining"; "X-Ratelimit-Reset"].
Definition tail_names : list string := "Content-Type" :: limiter_names.
Definition cors_names : list string :=
  ["Access-Control-Allow-Origin"; "Access-Control-Allow-Methods";
   "Access-Control-Allow-Headers"; "Access-Control-Allow-Credentials";
   "Access-Control-Max-Age"].
Definition security_names : list string :=
  ["X-Content-Type-Options"; "X-Frame-Options"; "X-Xss-Protection"; "Referrer-Policy";
   "Strict-Transport-Security"].
Definition tail_keys : list string :=
  ["user_id"; "user_email"; "user_role"; "auth_type"; "api_key_hash"].

(** The body [ProxyRequest] reads and whether reading it fails; the target
    it builds from the parsed target URL; the context after it has
    announced the request in the log. *)
Definition read_body (c : Context) : string * bool :=
  match http.Body (Request c) with
  | Some r => http.ReadAll r
  | None => (EmptyString, false)
  end.

Definition target_of (parsed : http.URL) (path : string) (c : Context) : http.URL :=
  http.set_RawQuery (http.URL_RawQuery (Request c))
    (http.set_Path ("/api/v1" +:+ path) parsed).

Definition announced (target : string) (path : string) (c : Context) : Context :=
  (log DebugLevel "Proxying request"
     [("method", VString (http.Method (Request c))); ("path", VString path);
      ("target", VString target)] c).2.

(** What [ProxyRequest] does once the target (as a string), the body and
    the request (its URL) are there. *)
Definition dispatch (target : string) (url : http.URL) (path : string) (c : Context)
    : M unit :=
  header ← proxy.forwardHeader (Request c);
  log DebugLevel "Proxying request"
    [("method", VString (http.Method (Request c))); ("path", VString path);
     ("target", VString target)];;
  modify (set_world (add_Sent
    {| http.CMethod := http.Method (Request c); http.CURL := url;
       http.CHeader := header; http.CBody := (read_body c).1 |}));;
  backend ← gets (λ c, Backend (env c));
  proxy.relay target backend.

(** When [ProxyRequest] gets as far as the client: the target parses, the
    body reads, the request is built, with URL [url], and no assertion
    panics. *)
Definition reaches (url_Parse : string → option http.URL)
    (URL_String : http.URL → string) (NewRequest : string → string → option http.URL)
    (p : proxy.ServiceProxy) (path : string) (c : Context) (parsed url : http.URL)
    : Prop :=
  url_Parse (proxy.targetURL p) = Some parsed ∧ (read_body c).2 = false ∧
  NewRequest (http.Method (Request c)) (URL_String (target_of parsed path c)) = Some url ∧
  typed_keys c.

(** The proxy a route's handler forwards through, and the context after
    the handler has logged the service path. *)
Definition proxy_of (srv : main.Server) (b : main.service) : proxy.ServiceProxy :=
  match b with
  | main.AuthService => handlers.authProxy (main.proxyHandler srv)
  | main.CaptchaService => handlers.captchaProxy (main.proxyHandler srv)
  end.

Definition service_name (b : main.service) : string :=
  match b with
  | main.AuthService => "Proxying to auth service"
  | main.CaptchaService => "Proxying to captcha service"
  end.

Definition service_path (c : Context) : string :=
  strs.TrimPrefix (http.URL_Path (Request c)) "/api/v1".

Definition handed (b : main.service) (c : Context) : Context :=
  (log DebugLevel (service_name b) [("path", VString (service_path c))] c).2.



(** The security headers and the values [SecurityHeaders] gives them. *)
Definition security_values : list (string * string) :=
  [("X-Content-Type-Options", "nosniff"); ("X-Frame-Options", "DENY");
   ("X-Xss-Protection", "1; mode=block");
   ("Referrer-Policy", "strict-origin-when-cross-origin")].

Definition hsts : string := "max-age=31536000; includeSubDomains".

(** The records of [l] at warn level whose time lies in [a, b). *)
Definition warn_between (a b : Z) (l : list LogRecord) : nat :=
  length (List.filter (λ r, record_is_warn r && bool_decide (a ≤ time r)
                            && bool_decide (time r < b)) l).

(** The context [AuthRequired] hands on for a token it accepts: the zero
    user under the context keys and in the request header. *)
Definition as_zero_user (c : Context) : Context :=
  set_Request (http.set_ReqHeader (λ h,
      http.Set_ (http.Set_ (http.Set_ h "X-User-ID" (middleware.uintToString 0))
                           "X-User-Email" EmptyString)
                "X-User-Role" EmptyString))
    (set_Keys (λ k, <["user_role" := VString EmptyString]>
                      (<["user_email" := VString EmptyString]>
                         (<["user_id" := VUint64 0]> k))) c).

(** A code [net/http] accepts, as the literal codes of the gateway are;
    and the status the client gets when the gateway relays a backend's
    code: that code when it ends the header, otherwise the 200 of the
    server's final flush. *)
Definition accepted (code : Z) : Prop := 100 ≤ code ≤ 999.

Definition relayed_status (code : Z) : Z := if final_code code then code else 200.

(** The context a request starts with. *)
Definition fresh (req : http.Request) (e : Env) (w : World) : Context :=
  {| env := e; Request := req; Keys := ∅; WHeader := ∅; Written := None; world := w |}.

Definition canonical_keys (h : http.Header) : Prop :=
  map_Forall (λ k _, http.CanonicalHeaderKey k = k) h.

Definition warnings (l : list LogRecord) : list LogRecord :=
  List.filter record_is_warn l.

End inv.

(** ** A running gateway, for concrete requests

    The gateway started with an empty environment (default configuration,
    development mode, in-memory limiter), with stand-ins for the library
    functions: the identity for the digest, and [url.Parse], [URL.String]
    and [http.NewRequestWithContext] as they work on the strings used
    here, which are printable ASCII without [%], [@], brackets and
    spaces: there the library escapes nothing, unescapes nothing and
    finds no invalid byte. *)

Module demo.
Import gin.

Definition Sum256 (s : string) : string := s.

Definition is_letter (c : ascii) : bool :=
  let n := Ascii.N_of_ascii c in
  (((65 <=? n) && (n <=? 90)) || ((97 <=? n) && (n <=? 122)))%N.

Definition is_digit (c : ascii) : bool :=
  let n := Ascii.N_of_ascii c in ((48 <=? n) && (n <=? 57))%N.

Fixpoint all_digits (s : string) : bool :=
  match s with
  | EmptyString => true
  | String c s' => is_digit c && all_digits s'
  end.

Fixpoint count_byte (s : string) (b : ascii) : nat :=
  match s with
  | EmptyString => O
  | String c s' => ((if decide (c = b) then 1 else 0) + count_byte s' b)%nat
  end.

Definition HasSuffix (s suffix : string) : bool :=
  String.prefix (String.rev suffix) (String.rev s).

(** [s] without its last byte. *)
Definition drop_last (s : string) : string :=
  String.rev (strs.drop_bytes 1 (String.rev s)).

(** What follows the last colon of [s], colon included; empty without a
    colon. *)
Fixpoint from_last_colon (s : string) : string :=
  match s with
  | EmptyString => EmptyString
  | String c s' =>
      if decide (from_last_colon s' = EmptyString)
      then (if decide (c = ":"%char) then s else EmptyString)
      else from_last_colon s'
  end.

(** [getScheme]: the scheme, empty when the string has none, and the rest;
    [None] is the error for a string that starts with a colon. *)
Fixpoint getScheme_from (first : bool) (s : string) : option (option (string * string)) :=
  match s with
  | EmptyString => Some None
  | String c s' =>
      let continue :=
        match getScheme_from false s' with
        | Some (Some (scheme, rest)) => Some (Some (String c scheme, rest))
        | other => other
        end in
      if is_letter c then continue
      else if is_digit c || bool_decide (c ∈ ["+"; "-"; "."]%char) then
        (if first then Some None else continue)
      else if decide (c = ":"%char) then
        (if first then None else Some (Some (EmptyString, s')))
      else Some None
  end.

Definition getScheme (rawURL : string) : option (string * string) :=
  match getScheme_from true rawURL with
  | None => None
  | Some None => Some (EmptyString, rawURL)
  | Some (Some found) => Some found
  end.

Definition cut (s : string) (sep : ascii) : string * string :=
  match strs.Cut s sep with
  | Some found => found
  | None => (s, EmptyString)
  end.

(** [url.Parse]: the fragment is cut off first, then the scheme, then the
    query; a rest that does not start with a slash is opaque data under a
    scheme; an authority follows two slashes, and its port, if any, must
    be digits. *)
Definition parse (rawURL : string) : option http.URL :=
  let '(u, frag) := cut rawURL "#" in
  let url (scheme opaque host path : string) (force : bool) (query : string) :=
    {| http.Scheme := scheme; http.Opaque := opaque; http.User := None;
       http.Host := host; http.Path := path; http.RawPath := EmptyString;
       http.OmitHost := false; http.ForceQuery := force; http.RawQuery := query;
       http.Fragment := frag; http.RawFragment := EmptyString |} in
  if decide (u = "*") then Some (url EmptyString EmptyString EmptyString "*" false EmptyString)
  else
    match getScheme u with
    | None => None
    | Some (scheme, rest) =>
        let scheme := strs.ToLower scheme in
        let '(rest, query, force) :=
          if HasSuffix rest "?" && bool_decide (count_byte rest "?" = 1%nat)
          then (drop_last rest, EmptyString, true)
          else (cut rest "?", false) in
        if negb (strs.HasPrefix rest "/") && bool_decide (scheme ≠ EmptyString)
        then Some (url scheme rest EmptyString EmptyString force query)
        else if negb (strs.HasPrefix rest "/")
                && bool_decide (count_byte (cut rest "/").1 ":" ≠ O)
        then None
        else
          let '(host, path) :=
            if (bool_decide (scheme ≠ EmptyString) || negb (strs.HasPrefix rest "///"))
               && strs.HasPrefix rest "//"
            then
              let authority := strs.drop_bytes 2 rest in
              match strs.Cut authority "/" with
              | Some (host, after) => (host, String "/" after)
              | None => (authority, EmptyString)
              end
            else (EmptyString, rest) in
          if all_digits (strs.drop_bytes 1 (from_last_colon host))
          then Some (url scheme EmptyString host path force query)
          else None
    end.

(** [URL.String]. *)
Definition String_ (u : http.URL) : string :=
  let scheme :=
    if decide (http.Scheme u = EmptyString) then EmptyString else http.Scheme u +:+ ":" in
  let authority :=
    if decide (http.Scheme u ≠ EmptyString ∨ http.Host u ≠ EmptyString)
    then (if http.OmitHost u && bool_decide (http.Host u = EmptyString) then EmptyString
          else (if decide (http.Host u ≠ EmptyString ∨ http.Path u ≠ EmptyString)
                then "//" else EmptyString) +:+ http.Host u)
    else EmptyString in
  let path :=
    (if negb (strs.HasPrefix (http.Path u) "/")
        && bool_decide (http.Path u ≠ EmptyString ∧ http.Host u ≠ EmptyString)
     then "/"
     else if bool_decide (scheme +:+ authority = EmptyString)
             && bool_decide (count_byte (cut (http.Path u) "/").1 ":" ≠ O)
     then "./" else EmptyString) +:+ http.Path u in
  scheme +:+
  (if decide (http.Opaque u ≠ EmptyString) then http.Opaque u else authority +:+ path) +:+
  (if http.ForceQuery u || bool_decide (http.RawQuery u ≠ EmptyString)
   then "?" +:+ http.RawQuery u else EmptyString) +:+
  (if decide (http.Fragment u ≠ EmptyString) then "#" +:+ http.Fragment u else EmptyString).

(** [http.NewRequestWithContext]: the method must be a token (an empty one
    stands for [GET]) and the string must parse; a colon that ends the
    host without a port is removed. *)
Definition NewRequest (method rawURL : string) : option http.URL :=
  if http.all_valid method then
    match parse rawURL with
    | Some u =>
        let host :=
          if decide (from_last_colon (http.Host u) = ":") then drop_last (http.Host u)
          else http.Host u in
        Some {| http.Scheme := http.Scheme u; http.Opaque := http.Opaque u;
                http.User := http.User u; http.Host := host; http.Path := http.Path u;
                http.RawPath := http.RawPath u; http.OmitHost := http.OmitHost u;
                http.ForceQuery := http.ForceQuery u; http.RawQuery := http.RawQuery u;
                http.Fragment := http.Fragment u; http.RawFragment := http.RawFragment u |}
    | None => None
    end
  else None.

(** The URL [http://host/path?query] as [parse] gives it. *)
Definition http_url (host path query : string) : http.URL :=
  {| http.Scheme := "http"; http.Opaque := EmptyString; http.User := None;
     http.Host := host; http.Path := path; http.RawPath := EmptyString;
     http.OmitHost := false; http.ForceQuery := false; http.RawQuery := query;
     http.Fragment := EmptyString; http.RawFragment := EmptyString |}.

(** The path without its last byte, when that is a slash. *)
Fixpoint without_slash (path : string) : option string :=
  match path with
  | EmptyString => None
  | String c EmptyString => if decide (c = "/"%char) then Some EmptyString else None
  | String c rest => String c <$> without_slash rest
  end.

(** The trailing-slash redirect for the gateway's routes, none of which ends
    in a slash: a path that is a registered path followed by a slash is
    redirected to the registered path, as [http.Redirect] writes it for a
    request without [X-Forwarded-Prefix] whose path is clean and whose
    query has no byte that HTML escapes: the location, and for [GET] the
    content type and the short body. *)
Definition redirect (req : http.Request) : option Response :=
  match without_slash (http.URL_Path req) with
  | Some p =>
      if main.routed (http.Method req) p
      then
        let location :=
          p +:+ (if decide (http.URL_RawQuery req = EmptyString)
                 then EmptyString else "?" +:+ http.URL_RawQuery req) in
        let quote := String "034"%char EmptyString in
        Some {| Status := main.redirect_code (http.Method req);
                Header_ :=
                  if decide (http.Method req = "GET")
                  then <[ "Content-Type" := ["text/html; charset=utf-8"] ]>
                         {[ "Location" := [location] ]}
                  else {[ "Location" := [location] ]};
                RBody :=
                  if decide (http.Method req = "GET")
                  then DataBody ("<a href=" +:+ quote +:+ location +:+ quote +:+ ">"
                                 +:+ "Moved Permanently</a>." +:+ String "010"%char
                                       (String "010"%char EmptyString))
                  else NoBody |}
      else None
  | None => None
  end.

(** The configuration [Load] gives for an empty environment. *)
Definition cfg : config.Config :=
  {| config.Port := 8080;
     config.Environment := "development";
     config.JWT := {| config.Secret := "your-secret-key-min-32-characters-long";
                      config.ExpiresIn := 24 * config.Hour;
                      config.RefreshExpiresIn := 7 * 24 * config.Hour |};
     config.CORS := {| config.AllowedOrigins := ["http://localhost:3000"];
                       config.AllowedMethods :=
                         ["GET"; "POST"; "PUT"; "DELETE"; "OPTIONS"; "PATCH"];
                       config.AllowedHeaders :=
                         ["Accept"; "Authorization"; "Content-Type"; "X-API-Key";
                          "X-Request-ID"; "X-Requested-With"] |};
     config.RateLimit := {| config.Requests := 100; config.Window := 60 * config.Second |};
     config.Redis := {| config.RHost := "localhost"; config.RPort := 6379;
                        config.Password := EmptyString; config.DB := 0 |};
     config.Services := {| config.AuthURL := "http://localhost:8081";
                           config.CaptchaURL := "http://localhost:8082" |};
     config.LogLevel := "info" |}.

Definition server : main.Server := {| main.cfg := cfg; main.redisClient := false |}.

(** The same gateway with the counter store connected. *)
Definition shared : main.Server := {| main.cfg := cfg; main.redisClient := true |}.

Definition world0 : World :=
  {| GinMode := DebugMode; Clients := ∅; Store := ∅; Log := []; Sent := [] |}.

Definition answer (h : http.Header) : http.ClientResponse :=
  {| http.StatusCode := 200; http.RespHeader := h; http.RespBody := Some "ok" |}.

Definition json : http.Header := {[ "Content-Type" := ["application/json"] ]}.

Definition at_ (now : Z) (backend : option http.ClientResponse) : Env :=
  {| ClientIP := "10.0.0.1"; Now := now; Elapsed := 1000; NewUUID := "0123456789abcdef";
     RedisFails := false; Backend := backend |}.

(** The store unreachable. *)
Definition outage (now : Z) : Env :=
  {| ClientIP := "10.0.0.1"; Now := now; Elapsed := 1000; NewUUID := "0123456789abcdef";
     RedisFails := true; Backend := Some (answer json) |}.

Definition run (req : http.Request) (e : Env) : Context :=
  main.serve Sum256 parse String_ NewRequest redirect server req e world0.

Definition request (method path : string) (h : http.Header) : http.Request :=
  {| http.Method := method; http.URL_Path := path; http.URL_RawQuery := "page=2";
     http.ReqHeader := h; http.Body := None |}.

(** A token of three segments that no secret signs: its last segment is
    one byte long, an HMAC-SHA256 tag is thirty-two. *)
Definition forged : http.Request :=
  request "GET" "/api/v1/auth/me" {[ "Authorization" := ["Bearer a.b.c"] ]}.

Definition preflight : http.Request :=
  request "OPTIONS" "/api/v1/auth/me" {[ "Origin" := ["http://localhost:3000"] ]}.

Definition tagged : http.Request :=
  request "POST" "/api/v1/auth/login" {[ "X-Request-Id" := ["abc"] ]}.


(** A body of [n] bytes. *)
Fixpoint pad (n : nat) : string :=
  match n with
  | O => EmptyString
  | S n' => String "a"%char (pad n')
  end.

Definition auth_proxy : proxy.ServiceProxy :=
  {| proxy.targetURL := "http://localhost:8081" |}.

Definition carrying (body : string) : Context :=
  inv.fresh
    {| http.Method := "POST"; http.URL_Path := "/api/v1/auth/login";
       http.URL_RawQuery := EmptyString;
       http.ReqHeader := <[ "Connection" := ["close"] ]>
                           {[ "Content-Type" := ["application/json"] ]};
       http.Body := Some {| http.chunks := [body]; http.read_error := false |} |}
    (at_ 0 (Some (answer json)))
    world0.

End demo.

(** ** What a served request leaves behind *)

Module obs.
Import gin inv.

(** The context the global middlewares hand to the handlers of a route:
    request id, CORS headers and security headers are set. *)
Definition entry (cfg : config.CORSConfig) (c : Context) : Context :=
  with_security (with_cors cfg (with_request_id c)).

(** The record [Logger] writes when the rest of the chain has turned the
    context [c] it was called with into [c1]. *)
Definition access_record (c c1 : Context) : LogRecord :=
  {| time := Now (env c1); level := InfoLevel; msg := "HTTP Request";
     fields :=
       [("method", VString (http.Method (Request c1)));
        ("path", VString (http.URL_Path (Request c)));
        ("query", VString (http.URL_RawQuery (Request c)));
        ("status", VInt (match Written c1 with Some r => Status r | None => 200 end));
        ("latency", VDuration (Elapsed (env c1)));
        ("client_ip", VString (ClientIP (env c1)));
        ("request_id",
         VString (match Keys c1 !! "request_id" with
                  | Some (VString s) => s
                  | _ => EmptyString
                  end))] |}.

(** The code of the backend's answer, when its body reads, is one
    [net/http] takes from gin's writer: not positive (the writer then
    keeps its 200) or from 100 to 999. *)
Definition writable (e : Env) : Prop :=
  ∀ resp body, Backend e = Some resp → http.RespBody resp = Some body →
    http.StatusCode resp ≤ 0 ∨ 100 ≤ http.StatusCode resp ≤ 999.

(** A handler that returns normally from every context in which the keys
    [ProxyRequest] asserts to be strings are strings and the backend's
    code is one the writer can pass on. *)
Definition never_panics (m : M unit) : Prop :=
  ∀ c, typed_keys c → writable (env c) → (m c).1 = Some tt.

(** What a limiter or an authentication middleware leaves of the context
    it hands on. *)
Definition same_request (c c1 : Context) : Prop :=
  env c1 = env c ∧ http.Method (Request c1) = http.Method (Request c) ∧
  http.URL_Path (Request c1) = http.URL_Path (Request c) ∧
  http.URL_RawQuery (Request c1) = http.URL_RawQuery (Request c) ∧
  http.Body (Request c1) = http.Body (Request c) ∧
  Written c1 = Written c ∧ Sent (world c1) = Sent (world c) ∧
  Log (world c1) = Log (world c) ∧ GinMode (world c1) = GinMode (world c).

(** The contexts [APIKeyOrJWTAuth] hands on: for an API key, its digest
    under the context keys and in the request header; for a token, the zero
    user as [AuthRequired] leaves it, with the authentication type. *)
Definition with_api_key (Sum256 : string → string) (c : Context) : Context :=
  let digest :=
    middleware.EncodeToString (Sum256 (http.Get (http.ReqHeader (Request c)) "X-API-Key")) in
  set_Request (http.set_ReqHeader (λ h, http.Set_ h "X-API-Key-Hash" digest))
    (set_Keys (λ k, <["auth_type" := VString "api_key"]>
                      (<["api_key_hash" := VString digest]> k)) c).

Definition as_jwt_user (c : Context) : Context :=
  set_Request (http.set_ReqHeader (λ h,
      http.Set_ (http.Set_ (http.Set_ h "X-User-ID" (middleware.uintToString 0))
                           "X-User-Email" EmptyString)
                "X-User-Role" EmptyString))
    (set_Keys (λ k, <["auth_type" := VString "jwt"]>
                      (<["user_role" := VString EmptyString]>
                         (<["user_email" := VString EmptyString]>
                            (<["user_id" := VUint64 0]> k)))) c).

(** The request headers by which the gateway tells a backend who the caller
    is, in canonical form. *)
Definition identity_names : list string :=
  ["X-User-Id"; "X-User-Email"; "X-User-Role"; "X-Api-Key-Hash"].

(** The message of the 401 a route answers to a request without
    credentials. *)
Definition credentials_required (p : main.policy) : string :=
  match p with
  | main.APIKeyOrJWT => "API key or valid JWT token required"
  | _ => "Authorization header is required"
  end.

(** A failure of the forwarder in context [c]: the response written in
    [c'] has the status and the JSON error object, and the last record
    logged is at error level with message [m]. *)
Definition fails_with (code : Z) (obj : list (string * Value)) (m : string)
    (c c' : Context) : Prop :=
  Status (response c') = code ∧ RBody (response c') = JSONBody obj ∧
  ∃ before kv,
    Log (world c') = Log (world c) ++ before ++
      [{| time := Now (env c); level := ErrorLevel; msg := m; fields := kv |}].

(** The arrivals of client [C] each find its counter alive: each comes no
    later than the expiry, which every arrival of [C] moves to the time
    to live [W] after itself. *)
Fixpoint renewed (W : Z) (C : string) (deadline : Z) (evs : list limiter.arrival) : Prop :=
  match evs with
  | [] => True
  | e :: rest =>
      if decide (limiter.ip e = C)
      then limiter.now e ≤ deadline ∧ renewed W C (limiter.now e + W) rest
      else renewed W C deadline rest
  end.

(** The environment variables [Load] reads as integers and as durations. *)
Definition integer_variables : list string :=
  ["GATEWAY_PORT"; "RATE_LIMIT_REQUESTS"; "RATE_LIMIT_WINDOW_SECONDS"; "REDIS_PORT";
   "REDIS_DB"].

Definition duration_variables : list string :=
  ["JWT_EXPIRES_IN"; "JWT_REFRESH_EXPIRES_IN"].

(** The events of the in-memory limiter that concern client [C]: its own
    requests and the cleanup passes. *)
Definition concerns (C : string) (ev : limiter.event) : bool :=
  match ev with
  | limiter.Arrive ip _ => bool_decide (ip = C)
  | limiter.Sweep _ => true
  end.

(** What a step of the server contributes to a run of the limiters: a
    request its event, or its arrival at the counter store; a cleanup
    pass the sweep of the in-memory limiter, and nothing at the store. *)
Definition event_of (s : main.step) : limiter.event :=
  match s with
  | main.Serve _ e => limiter.Arrive (ClientIP e) (Now e)
  | main.Cleanup now => limiter.Sweep now
  end.

Definition arrival_of (s : main.step) : list limiter.arrival :=
  match s with
  | main.Serve _ e =>
      [{| limiter.ip := ClientIP e; limiter.now := Now e; limiter.fails := RedisFails e |}]
  | main.Cleanup _ => []
  end.

(** The limiter's map, and the counter store, after a run. *)
Fixpoint memory_after (maxRequests : Z) (evs : list limiter.event)
    (clients : gmap string client) : gmap string client :=
  match evs with
  | [] => clients
  | limiter.Arrive ip now :: rest =>
      memory_after maxRequests rest (middleware.memory_step maxRequests ip now clients).1
  | limiter.Sweep now :: rest =>
      memory_after maxRequests rest (middleware.cleanup now clients)
  end.

Fixpoint redis_after (window : Z) (evs : list limiter.arrival)
    (store : gmap string counter) : gmap string counter :=
  match evs with
  | [] => store
  | e :: rest =>
      redis_after window rest
        (middleware.pipeline_Exec (limiter.fails e) (limiter.key_of (limiter.ip e)) window
           (limiter.now e) store).1
  end.

(** A response is the limiter's refusal. *)
Definition refused (r : Response) : Prop :=
  Status r = 429 ∧ RBody r = JSONBody middleware.rate_limit_exceeded.

(** A step of the server that, when it is a request, matches a route. *)
Definition routed_step (s : main.step) : Prop :=
  match s with
  | main.Serve req _ => is_Some (main.lookup (http.Method req) (http.URL_Path req))
  | main.Cleanup _ => True
  end.

(** A request of client [C] served in the window of length [W] that
    starts at [a], with a response that is not a 429. *)
Definition answered (C : string) (a W : Z) (e : Env) (r : Response) : bool :=
  bool_decide (ClientIP e = C) && bool_decide (a ≤ Now e) && bool_decide (Now e < a + W)
  && negb (bool_decide (Status r = 429)).

(** How many such requests a run of the server has, [rs] being the
    responses to its requests in order. *)
Fixpoint answered_in (C : string) (a W : Z) (steps : list main.step) (rs : list Response)
    : nat :=
  match steps, rs with
  | main.Serve _ e :: rest, r :: rs' =>
      ((if answered C a W e r then 1 else 0) + answered_in C a W rest rs')%nat
  | main.Cleanup _ :: rest, _ => answered_in C a W rest rs
  | _, _ => 0%nat
  end.

End obs.

(** ** More concrete requests

    Requests, contexts and limiter states for the gateway of [demo]. *)

Module sample.
Import gin.

Definition probe : http.Request := demo.request "GET" "/health" ∅.

Definition nowhere : http.Request := demo.request "GET" "/api/v2/ping" ∅.

(** A request to a route behind [AuthRequired] that brings no credentials,
    and the route. *)
Definition anonymous : http.Request := demo.request "GET" "/api/v1/auth/me" ∅.

Definition me : main.route :=
  {| main.verb := "GET"; main.fullPath := "/api/v1/auth/me"; main.auth := main.JWTOnly;
     main.backend := main.AuthService |}.

(** A request to a public route that names a user itself. *)
Definition claiming : http.Request :=
  demo.request "POST" "/api/v1/auth/login" {[ "X-User-Id" := ["7"] ]}.

Definition login : main.route :=
  {| main.verb := "POST"; main.fullPath := "/api/v1/auth/login"; main.auth := main.Public;
     main.backend := main.AuthService |}.

(** A proxy whose target does not parse: it has no protocol scheme before
    the colon. *)
Definition broken : proxy.ServiceProxy := {| proxy.targetURL := ":8081" |}.

(** An answer whose status line has a code below 100. *)
Definition odd_answer : http.ClientResponse :=
  {| http.StatusCode := 42; http.RespHeader := demo.json; http.RespBody := Some "ok" |}.

(** A request with an API key, as it reaches the handlers of a route. *)
Definition keyed : Context :=
  inv.fresh (demo.request "POST" "/api/v1/captcha/solve" {[ "X-Api-Key" := ["k-123"] ]})
    (demo.at_ 0 (Some (demo.answer demo.json))) demo.world0.

Definition captcha_url : http.URL := demo.http_url "localhost:8082" EmptyString EmptyString.

(** An arrival of the client of [demo] at the shared limiter, and a store
    in which that client has used up a limit of two. *)
Definition arrival (now : Z) : limiter.arrival :=
  {| limiter.ip := "10.0.0.1"; limiter.now := now; limiter.fails := false |}.

Definition used_up : gmap string counter :=
  {[ limiter.key_of "10.0.0.1" := {| value := 2; expires := 60 * config.Second |} ]}.

(** A map of the in-memory limiter with an entry a cleanup pass at three
    minutes removes. *)
Definition idle : gmap string client :=
  {[ "10.0.0.1" := {| count := 2; lastSeen := 0 |} ]}.

(** The gateway of [demo] with another limit and another window. *)
Definition limited (requests window : Z) (redis : bool) : main.Server :=
  {| main.cfg :=
       {| config.Port := config.Port demo.cfg;
          config.Environment := config.Environment demo.cfg;
          config.JWT := config.JWT demo.cfg;
          config.CORS := config.CORS demo.cfg;
          config.RateLimit := {| config.Requests := requests; config.Window := window |};
          config.Redis := config.Redis demo.cfg;
          config.Services := config.Services demo.cfg;
          config.LogLevel := config.LogLevel demo.cfg |};
     main.redisClient := redis |}.

(** The window [Load] computes for [RATE_LIMIT_WINDOW_SECONDS=18446744075]:
    the product with a second's nanoseconds wraps in 64 bits to a little
    under 1.3 seconds. *)
Definition wrapped_window : Z := 1290448384.

(** The requests of one client to the login route at the given instants. *)
Definition logins (instants : list Z) : list main.step :=
  map (λ t, main.Serve demo.tagged (demo.at_ t (Some (demo.answer demo.json)))) instants.

End sample.
(** * Proofs *)

Import gin inv.

Ltac munfold :=
  unfold log, JSON, AbortWithStatusJSON, AbortWithStatus, Data, write, writeContentType,
    Header, Set_, Get, GetString, GetHeader, RequestHeaderSet, WriterStatus,
    mbind, M_bind, mret, M_ret, gets, modify, panic.

(** ** Configuration *)

Section LoadFacts.

Variable Atoi : string → option Z.
Variable ParseDuration : string → option Z.

Lemma Load_cases environ :
  let s := config.getEnv environ "JWT_SECRET" "your-secret-key-min-32-characters-long" in
  (∃ e, config.Load Atoi ParseDuration environ = Err e ∧
        (s = EmptyString ∨ (String.length s < 32)%nat)) ∨
  (∃ cfg, config.Load Atoi ParseDuration environ = Ok cfg ∧
          config.Secret (config.JWT cfg) = s ∧ ¬ (String.length s < 32)%nat).
Proof.
  intros s. unfold config.Load. cbn -[String.length]. fold s.
  case_bool_decide; cbn -[String.length].
  - left. eauto.
  - case_bool_decide; cbn -[String.length].
    + left. eauto.
    + right. eexists. split; [reflexivity|]. split; [reflexivity|done].
Qed.

Lemma getEnv_unset environ key d :
  environ !! key = None ∨ environ !! key = Some EmptyString →
  config.getEnv environ key d = d.
Proof.
  intros H. unfold config.getEnv, config.Getenv.
  destruct H as [-> | ->]; reflexivity.
Qed.

Lemma getEnv_set environ key d :
  config.getEnv environ key d ≠ d →
  ∃ v, environ !! key = Some v ∧ v ≠ EmptyString ∧ config.getEnv environ key d = v.
Proof.
  unfold config.getEnv, config.Getenv.
  destruct (environ !! key) as [v|]; cbn; [|done].
  destruct (decide (v ≠ EmptyString)); [|done]. eauto.
Qed.

(** C10: with [JWT_SECRET] unset or empty, [Load] succeeds with the built-in
    default secret, and so does the start of [main]; [Load] fails only for a
    secret that was provided, is not empty and is shorter than 32 bytes. *)
Theorem load_default_secret (environ : gmap string string) :
  (environ !! "JWT_SECRET" = None ∨ environ !! "JWT_SECRET" = Some EmptyString →
   (∃ cfg, config.Load Atoi ParseDuration environ = Ok cfg ∧
           config.Secret (config.JWT cfg) = "your-secret-key-min-32-characters-long") ∧
   (∀ mode redisUp store now, ∃ srv w,
      main.start Atoi ParseDuration environ mode redisUp store now = Ok (srv, w))) ∧
  (∀ e, config.Load Atoi ParseDuration environ = Err e →
        ∃ secret, environ !! "JWT_SECRET" = Some secret ∧ secret ≠ EmptyString ∧
                  (String.length secret < 32)%nat).
Proof.
  destruct (Load_cases environ) as [(e & He & Hs) | (cfg & Hc & Hs & Hl)]; split.
  - intros H. rewrite (getEnv_unset _ _ _ H) in Hs.
    destruct Hs as [Hs | Hs]; [discriminate Hs | cbn in Hs; lia].
  - intros e' _.
    destruct (getEnv_set environ "JWT_SECRET" "your-secret-key-min-32-characters-long")
      as (v & Hv & Hne & Hg).
    { intros Heq. rewrite Heq in Hs.
      destruct Hs as [Hs | Hs]; [discriminate Hs | cbn in Hs; lia]. }
    exists v. rewrite Hg in Hs. destruct Hs as [-> | Hs]; done.
  - intros H. split.
    + exists cfg. split; [done|]. rewrite Hs. by apply getEnv_unset.
    + intros. unfold main.start. rewrite Hc. eauto.
  - intros e He. rewrite Hc in He. discriminate He.
Qed.

End LoadFacts.

Lemma load_default_secret_witness :
  ∃ cfg, config.Load (λ _, None) (λ _, None) ∅ = Ok cfg ∧
         config.Secret (config.JWT cfg) = "your-secret-key-min-32-characters-long".
Proof.
  apply (load_default_secret (λ _, None) (λ _, None) ∅). left. reflexivity.
Defined.

(** ** Authentication *)

Lemma AuthRequired_missing secret next c :
  http.Get (http.ReqHeader (Request c)) "Authorization" = EmptyString →
  middleware.AuthRequired secret next c =
  AbortWithStatusJSON 401
    (middleware.unauthorized "Authorization header is required") c.
Proof.
  intros H. unfold middleware.AuthRequired, GetHeader.
  unfold mbind at 1, M_bind at 1, gets at 1. cbv beta iota.
  rewrite H. reflexivity.
Qed.

Lemma AuthRequired_malformed secret next c :
  http.Get (http.ReqHeader (Request c)) "Authorization" ≠ EmptyString →
  (∀ scheme token,
     strs.SplitN (http.Get (http.ReqHeader (Request c)) "Authorization") " "%char 2
       = [scheme; token] → strs.ToLower scheme ≠ "bearer") →
  middleware.AuthRequired secret next c =
  AbortWithStatusJSON 401
    (middleware.unauthorized "Invalid authorization header format") c.
Proof.
  intros Hne Hbad. unfold middleware.AuthRequired, GetHeader.
  unfold mbind at 1, M_bind at 1, gets at 1. cbv beta iota.
  destruct (decide _) as [|_]; [done|].
  destruct (strs.SplitN _ _ _) as [|scheme [|token [|]]] eqn:E; try reflexivity.
  destruct (decide _) as [|Hb]; [reflexivity|].
  exfalso. apply (Hbad scheme token); [reflexivity|]. by apply dec_stable.
Qed.

Lemma AuthRequired_segments secret next c scheme token :
  http.Get (http.ReqHeader (Request c)) "Authorization" ≠ EmptyString →
  strs.SplitN (http.Get (http.ReqHeader (Request c)) "Authorization") " "%char 2
    = [scheme; token] →
  strs.ToLower scheme = "bearer" →
  length (strs.Split token "."%char) ≠ 3%nat →
  middleware.AuthRequired secret next c =
  AbortWithStatusJSON 401 (middleware.unauthorized "Invalid or expired token") c.
Proof.
  intros Hne Hs Hl Ht. unfold middleware.AuthRequired, GetHeader.
  unfold mbind at 1, M_bind at 1, gets at 1. cbv beta iota.
  destruct (decide _) as [|_]; [done|]. rewrite Hs.
  destruct (decide _) as [|_]; [done|].
  unfold middleware.validateJWT.
  destruct (decide _) as [_|]; [reflexivity|done].
Qed.

Lemma AuthRequired_accepts secret next c scheme token :
  http.Get (http.ReqHeader (Request c)) "Authorization" ≠ EmptyString →
  strs.SplitN (http.Get (http.ReqHeader (Request c)) "Authorization") " "%char 2
    = [scheme; token] →
  strs.ToLower scheme = "bearer" →
  length (strs.Split token "."%char) = 3%nat →
  middleware.AuthRequired secret next c = next (as_zero_user c).
Proof.
  intros Hne Hs Hl Ht. unfold middleware.AuthRequired, GetHeader.
  unfold mbind at 1, M_bind at 1, gets at 1. cbv beta iota.
  destruct (decide _) as [|_]; [done|]. rewrite Hs.
  destruct (decide _) as [|_]; [done|].
  unfold middleware.validateJWT.
  destruct (decide _) as [|_]; [done|]. reflexivity.
Qed.
(** ** The forwarder *)

Lemma setAsserted_eq h key v c :
  proxy.setAsserted h key v c = (asserted key v h, c).
Proof. destruct v as [[]|]; reflexivity. Qed.

Lemma forwardHeader_eq c :
  proxy.forwardHeader (Request c) c =
  (h ← asserted "X-User-Email" (Keys c !! "user_email") (base_header c);
   h ← asserted "X-User-Role" (Keys c !! "user_role") h;
   asserted "X-API-Key-Hash" (Keys c !! "api_key_hash") h, c).
Proof.
  unfold proxy.forwardHeader. munfold. cbv beta.
  change (proxy.setAsserted _ "X-User-Email" (Keys c !! "user_email") c)
    with (proxy.setAsserted (base_header c) "X-User-Email" (Keys c !! "user_email") c).
  cbv zeta.
  rewrite setAsserted_eq.
  destruct (asserted "X-User-Email" _ _) as [h1|]; cbn [mbind option_bind]; [|reflexivity].
  rewrite setAsserted_eq.
  destruct (asserted "X-User-Role" _ _) as [h2|]; cbn [mbind option_bind]; [|reflexivity].
  rewrite setAsserted_eq. reflexivity.
Qed.

Lemma forwardHeader_typed c :
  typed_keys c → proxy.forwardHeader (Request c) c = (Some (upstream_header c), c).
Proof.
  rewrite forwardHeader_eq.
  unfold typed_keys, string_or_absent, upstream_header, put_string, asserted.
  intros (H1 & H2 & H3).
  destruct (Keys c !! "user_email") as [[]|]; cbn; try done;
  destruct (Keys c !! "user_role") as [[]|]; cbn; try done;
  destruct (Keys c !! "api_key_hash") as [[]|]; cbn; try done.
Qed.

Section Forwarder.

Variable url_Parse : string → option http.URL.
Variable URL_String : http.URL → string.
Variable NewRequest : string → string → option http.URL.

Lemma ProxyRequest_unfold p path c :
  proxy.ProxyRequest url_Parse URL_String NewRequest p path c =
  match url_Parse (proxy.targetURL p) with
  | None =>
      (log ErrorLevel "Failed to parse target URL"
         [("error", VError); ("url", VString (proxy.targetURL p))];;
       JSON 500 (proxy.proxy_error "Failed to proxy request")) c
  | Some parsed =>
      if (read_body c).2 then
        (log ErrorLevel "Failed to read request body" [("error", VError)];;
         JSON 400 [("error", VString "bad_request");
                   ("message", VString "Failed to read request body")]) c
      else
        match NewRequest (http.Method (Request c))
                (URL_String (target_of parsed path c)) with
        | None =>
            (log ErrorLevel "Failed to create proxy request" [("error", VError)];;
             JSON 500 (proxy.proxy_error "Failed to create proxy request")) c
        | Some url => dispatch (URL_String (target_of parsed path c)) url path c c
        end
  end.
Proof.
  unfold proxy.ProxyRequest, dispatch, read_body, target_of.
  destruct (url_Parse (proxy.targetURL p)) as [parsed|]; [|reflexivity].
  unfold mbind at 1, M_bind at 1, gets at 1. cbv beta iota.
  destruct (http.Body (Request c)) as [r|];
    [destruct (http.ReadAll r) as [bytes [|]]; cbn [snd fst]|cbn [snd fst]];
    try reflexivity; destruct (NewRequest _ _); reflexivity.
Qed.

Lemma dispatch_typed target url path c :
  typed_keys c →
  dispatch target url path c c =
  proxy.relay target (Backend (env c))
    (set_world (add_Sent (upstream_request url c)) (announced target path c)).
Proof.
  intros Ht. unfold dispatch.
  unfold mbind at 1, M_bind at 1. rewrite (forwardHeader_typed c Ht). cbv beta iota.
  unfold upstream_request, body_bytes, read_body.
  destruct (http.Body (Request c)); reflexivity.
Qed.

Lemma dispatch_untyped target url path c :
  typed_keys c ∨ dispatch target url path c c = (None, c).
Proof.
  unfold dispatch. unfold mbind at 1, M_bind at 1. rewrite forwardHeader_eq.
  unfold typed_keys, string_or_absent, asserted.
  destruct (Keys c !! "user_email") as [[]|]; cbn; auto;
  destruct (Keys c !! "user_role") as [[]|]; cbn; auto;
  destruct (Keys c !! "api_key_hash") as [[]|]; cbn; auto.
Qed.

Lemma ProxyRequest_reaches p path c parsed url :
  reaches url_Parse URL_String NewRequest p path c parsed url →
  proxy.ProxyRequest url_Parse URL_String NewRequest p path c =
  proxy.relay (URL_String (target_of parsed path c)) (Backend (env c))
    (set_world (add_Sent (upstream_request url c))
       (announced (URL_String (target_of parsed path c)) path c)).
Proof.
  intros (Hp & Hb & Hn & Ht). rewrite ProxyRequest_unfold, Hp, Hb, Hn.
  by apply dispatch_typed.
Qed.

Lemma ProxyRequest_cases p path c :
  (∃ parsed url, reaches url_Parse URL_String NewRequest p path c parsed url) ∨
  (∃ m kv code obj,
     proxy.ProxyRequest url_Parse URL_String NewRequest p path c =
       (log ErrorLevel m kv;; JSON code obj) c ∧ (code = 400 ∨ code = 500)) ∨
  proxy.ProxyRequest url_Parse URL_String NewRequest p path c = (None, c).
Proof.
  rewrite ProxyRequest_unfold. unfold reaches.
  destruct (url_Parse (proxy.targetURL p)) as [parsed|].
  2: { right; left. do 4 eexists. split; [reflexivity | by right]. }
  destruct (read_body c).2 eqn:Hb.
  { right; left. do 4 eexists. split; [reflexivity | by left]. }
  destruct (NewRequest _ _) as [url|] eqn:Hn.
  2: { right; left. do 4 eexists. split; [reflexivity | by right]. }
  destruct (dispatch_untyped (URL_String (target_of parsed path c)) url path c)
    as [Ht | Hd].
  - left. exists parsed, url. split_and!; [reflexivity | reflexivity | exact Hn | exact Ht].
  - right; right. exact Hd.
Qed.

(** What [relay] and the error answers leave alone. *)
Lemma write_frame code body c :
  let c' := (write code body c).2 in
  env c' = env c ∧ Request c' = Request c ∧ Keys c' = Keys c ∧ world c' = world c ∧
  WHeader c' = WHeader c.
Proof.
  unfold write. destruct (Written c); [done|].
  cbv zeta. destruct (refused_code _); done.
Qed.

Lemma accepted_not_refused code :
  accepted code → refused_code (if decide (0 < code) then code else 200) = false.
Proof.
  unfold accepted, refused_code. intros H.
  destruct (decide (0 < code)); [|lia].
  apply orb_false_intro; [apply Z.ltb_ge | apply Z.ltb_ge]; lia.
Qed.

Lemma write_outcome code body c :
  accepted code → (write code body c).1 = Some tt.
Proof.
  intros H. unfold write. destruct (Written c); [done|].
  cbv zeta. by rewrite (accepted_not_refused _ H).
Qed.

Lemma Data_eq code contentType data c :
  Data code contentType data c
  = write code (DataBody data) (writeContentType contentType c).2.
Proof. reflexivity. Qed.

Lemma JSON_eq code obj c :
  JSON code obj c
  = write code (JSONBody obj) (writeContentType "application/json; charset=utf-8" c).2.
Proof. reflexivity. Qed.

Lemma JSON_frame code obj c :
  let c' := (JSON code obj c).2 in
  env c' = env c ∧ Request c' = Request c ∧ Keys c' = Keys c ∧ world c' = world c.
Proof.
  cbv zeta. rewrite JSON_eq.
  match goal with |- context [write ?code ?body ?c0] =>
    destruct (write_frame code body c0) as (-> & -> & -> & -> & _) end.
  done.
Qed.

Lemma log_then l m kv (next : M unit) c :
  (log l m kv;; next) c
  = next (set_world (add_Log {| time := Now (env c); level := l; msg := m;
                                fields := kv |}) c).
Proof. reflexivity. Qed.

Lemma log_JSON_frame l m kv code obj c :
  let c' := ((log l m kv;; JSON code obj) c).2 in
  env c' = env c ∧ Request c' = Request c ∧ Keys c' = Keys c ∧
  Sent (world c') = Sent (world c).
Proof.
  cbv zeta. rewrite log_then.
  destruct (JSON_frame code obj
              (set_world (add_Log {| time := Now (env c); level := l; msg := m;
                                     fields := kv |}) c)) as (-> & -> & -> & ->).
  done.
Qed.

Lemma relay_answer target resp respBody c :
  http.RespBody resp = Some respBody →
  proxy.relay target (Some resp) c
  = Data (http.StatusCode resp) (http.Get (http.RespHeader resp) "Content-Type") respBody
      (set_WHeader (proxy.copyHeaders setHeader (http.RespHeader resp)) c).
Proof. intros H. unfold proxy.relay. rewrite H. reflexivity. Qed.

Lemma relay_frame target b c :
  let c' := (proxy.relay target b c).2 in
  env c' = env c ∧ Request c' = Request c ∧ Keys c' = Keys c ∧
  Sent (world c') = Sent (world c).
Proof.
  destruct b as [resp|]; [destruct (http.RespBody resp) eqn:Hb|];
    [|unfold proxy.relay; try rewrite Hb; apply log_JSON_frame..].
  cbv zeta. rewrite (relay_answer target resp _ c Hb), Data_eq.
  match goal with |- context [write ?code ?body ?c0] =>
    destruct (write_frame code body c0) as (-> & -> & -> & -> & _) end.
  done.
Qed.

Lemma ProxyRequest_sent p path c parsed url :
  reaches url_Parse URL_String NewRequest p path c parsed url →
  Sent (world (proxy.ProxyRequest url_Parse URL_String NewRequest p path c).2) =
  Sent (world c) ++ [upstream_request url c].
Proof.
  intros Hr. rewrite (ProxyRequest_reaches _ _ _ _ _ Hr).
  destruct (relay_frame (URL_String (target_of parsed path c)) (Backend (env c))
    (set_world (add_Sent (upstream_request url c))
       (announced (URL_String (target_of parsed path c)) path c)))
    as (_ & _ & _ & ->).
  reflexivity.
Qed.

Lemma ProxyRequest_sent_cases p path c :
  let c' := (proxy.ProxyRequest url_Parse URL_String NewRequest p path c).2 in
  Sent (world c') = Sent (world c) ∨
  ∃ parsed url, reaches url_Parse URL_String NewRequest p path c parsed url ∧
                Sent (world c') = Sent (world c) ++ [upstream_request url c].
Proof.
  destruct (ProxyRequest_cases p path c)
    as [(parsed & url & Hr) | [(m & kv & code & obj & He & _) | He]].
  - right. exists parsed, url. split; [done | by apply (ProxyRequest_sent _ _ _ parsed)].
  - left. cbv zeta. rewrite He. apply log_JSON_frame.
  - left. cbv zeta. rewrite He. reflexivity.
Qed.

End Forwarder.

(** ** Paths *)

Lemma prefix_restore p s :
  String.prefix p s = true → p +:+ strs.drop_bytes (String.length p) s = s.
Proof.
  revert s. induction p as [|a p IH]; intros s H; [reflexivity|].
  destruct s as [|b s]; [discriminate H|]. cbn in H.
  destruct (Ascii.ascii_dec a b) as [->|]; [|discriminate H].
  change (String b (p +:+ strs.drop_bytes (String.length p) s) = String b s).
  f_equal. by apply IH.
Qed.

Lemma TrimPrefix_restore s p :
  strs.HasPrefix s p = true → p +:+ strs.TrimPrefix s p = s.
Proof.
  intros H. unfold strs.TrimPrefix. rewrite H. by apply prefix_restore.
Qed.

Lemma Split_nonempty s c : strs.Split s c ≠ [].
Proof.
  destruct s as [|a s]; cbn; [done|].
  destruct (decide (a = c)); [done|]. by destruct (strs.Split s c).
Qed.

Lemma Join_cons e rest sep :
  rest ≠ [] → strs.Join (e :: rest) sep = e +:+ sep +:+ strs.Join rest sep.
Proof. by destruct rest. Qed.

Lemma Join_Split s c : strs.Join (strs.Split s c) (String c EmptyString) = s.
Proof.
  induction s as [|a s IH]; [reflexivity|]. cbn [strs.Split].
  destruct (decide (a = c)) as [->|Hne].
  - rewrite Join_cons by apply Split_nonempty. rewrite IH. reflexivity.
  - pose proof (Split_nonempty s c) as Hs.
    destruct (strs.Split s c) as [|piece rest]; [done|].
    destruct rest as [|r rest].
    + cbn in IH. cbn. by rewrite IH.
    + rewrite Join_cons by done. rewrite Join_cons in IH by done.
      cbn. by rewrite <- IH.
Qed.

Lemma literal_segment pat seg :
  main.segment_matches pat seg = true →
  (∀ rest, pat ≠ String ":"%char rest) → seg = pat.
Proof.
  intros H Hlit. unfold main.segment_matches in H.
  destruct pat as [|a pat].
  - by apply bool_decide_eq_true_1 in H.
  - destruct (decide (a = ":"%char)) as [->|Hne]; [by destruct (Hlit pat)|].
    assert (bool_decide (String a pat = seg) = true) as H'.
    { revert H. destruct a as [[] [] [] [] [] [] [] []]; try done. }
    by apply bool_decide_eq_true_1 in H'.
Qed.

Lemma under_v1_segments pats segs :
  main.segments_match ("" :: "api" :: "v1" :: pats) segs = true →
  ∃ rest, segs = "" :: "api" :: "v1" :: rest.
Proof.
  intros H. destruct segs as [|s0 [|s1 [|s2 rest]]]; try discriminate H.
  - cbn in H. by rewrite andb_false_r in H.
  - cbn in H. by rewrite !andb_false_r in H.
  - cbn [main.segments_match] in H.
    apply andb_true_iff in H as [H0 H]. apply andb_true_iff in H as [H1 H].
    apply andb_true_iff in H as [H2 _].
    apply literal_segment in H0; [|done]. apply literal_segment in H1; [|done].
    apply literal_segment in H2; [|done]. subst. by exists rest.
Qed.

Lemma under_v1_prefix path rest :
  strs.Split path "/"%char = "" :: "api" :: "v1" :: rest →
  strs.HasPrefix path "/api/v1" = true.
Proof.
  intros H. rewrite <- (Join_Split path "/"%char), H.
  destruct rest as [|r rest]; [reflexivity|].
  rewrite !Join_cons by done. reflexivity.
Qed.

Lemma routes_under_v1 r :
  r ∈ main.routes →
  ∃ pats, strs.Split (main.fullPath r) "/"%char = "" :: "api" :: "v1" :: pats.
Proof.
  unfold main.routes. intros H.
  repeat (apply elem_of_cons in H as [-> | H]; [eexists; vm_compute; reflexivity|]).
  by apply elem_of_nil in H.
Qed.

Lemma lookup_under_v1 method path r :
  main.lookup method path = Some r → strs.HasPrefix path "/api/v1" = true.
Proof.
  unfold main.lookup. intros H.
  apply fmap_Some in H as ([i r'] & Hf & ->).
  apply list_find_Some in Hf as (Hi & (_ & Hm) & _).
  apply list_elem_of_lookup_2 in Hi. destruct (routes_under_v1 _ Hi) as (pats & Hp).
  unfold main.path_matches in Hm. cbn [snd] in *. rewrite Hp in Hm.
  destruct (under_v1_segments _ _ Hm) as (rest & Hrest).
  by apply (under_v1_prefix _ rest).
Qed.

Section Routes.

Variable url_Parse : string → option http.URL.
Variable URL_String : http.URL → string.
Variable NewRequest : string → string → option http.URL.

Lemma forward_eq srv b c :
  main.forward url_Parse URL_String NewRequest srv b c =
  proxy.ProxyRequest url_Parse URL_String NewRequest (proxy_of srv b) (service_path c)
    (handed b c).
Proof. destruct b; reflexivity. Qed.

Lemma forward_sent_cases srv b c :
  let c' := (main.forward url_Parse URL_String NewRequest srv b c).2 in
  Sent (world c') = Sent (world c) ∨
  ∃ parsed url,
    reaches url_Parse URL_String NewRequest (proxy_of srv b) (service_path c) c parsed url ∧
    Sent (world c') = Sent (world c) ++ [upstream_request url c].
Proof.
  cbv zeta. rewrite forward_eq.
  exact (ProxyRequest_sent_cases url_Parse URL_String NewRequest (proxy_of srv b)
           (service_path c) (handed b c)).
Qed.

Lemma forward_sent srv b c parsed url :
  reaches url_Parse URL_String NewRequest (proxy_of srv b) (service_path c) c parsed url →
  Sent (world (main.forward url_Parse URL_String NewRequest srv b c).2) =
  Sent (world c) ++ [upstream_request url c].
Proof.
  intros Hr. rewrite forward_eq.
  exact (ProxyRequest_sent url_Parse URL_String NewRequest (proxy_of srv b)
           (service_path c) (handed b c) parsed url Hr).
Qed.



End Routes.
(** ** Header maps *)

Lemma Set_lookup_ne h k v k' :
  http.CanonicalHeaderKey k ≠ k' → http.Set_ h k v !! k' = h !! k'.
Proof. intros H. unfold http.Set_. by rewrite lookup_insert_ne. Qed.

Lemma Set_lookup h k v : http.Set_ h k v !! http.CanonicalHeaderKey k = Some [v].
Proof. unfold http.Set_. by rewrite lookup_insert_eq. Qed.

Lemma setHeader_lookup_ne h k v k' :
  http.CanonicalHeaderKey k ≠ k' → setHeader h k v !! k' = h !! k'.
Proof.
  intros H. unfold setHeader, http.Del. destruct (decide _).
  - by rewrite lookup_delete_ne.
  - by apply Set_lookup_ne.
Qed.

Lemma foldl_Add_other i k x (r : http.Header) :
  http.CanonicalHeaderKey i ≠ k →
  foldl (λ dst value, http.Add dst i value) r x !! k = r !! k.
Proof.
  intros Hne. revert r. induction x as [|v x IH]; intros r; [reflexivity|].
  cbn [foldl]. rewrite IH. unfold http.Add. by rewrite lookup_insert_ne.
Qed.

Lemma foldl_Add_same i v x (r : http.Header) :
  http.CanonicalHeaderKey i = i →
  foldl (λ dst value, http.Add dst i value) r (v :: x) !! i
  = Some (default [] (r !! i) ++ v :: x).
Proof.
  intros Hc. revert r v. induction x as [|w x IH]; intros r v.
  - cbn. unfold http.Add. rewrite Hc. by rewrite lookup_insert_eq.
  - change (foldl (λ dst value, http.Add dst i value) (http.Add r i v) (w :: x) !! i
            = Some (default [] (r !! i) ++ v :: w :: x)).
    rewrite IH. unfold http.Add. rewrite Hc, lookup_insert_eq. cbn.
    by rewrite <- app_assoc.
Qed.

Lemma copy_Add_lookup (h : http.Header) k :
  canonical_keys h →
  proxy.copyHeaders http.Add h ∅ !! k =
  match h !! k with
  | Some (v :: vs) => Some (v :: vs)
  | _ => None
  end.
Proof.
  unfold proxy.copyHeaders. revert k.
  apply (map_fold_weak_ind (λ (r : http.Header) (m : http.Header),
    ∀ k, canonical_keys m →
         r !! k = match m !! k with Some (v :: vs) => Some (v :: vs) | _ => None end)).
  - intros k _. by rewrite !lookup_empty.
  - intros i x m r Hi IH k Hc.
    apply map_Forall_insert in Hc as [Hci Hcm]; [|done]. cbn in Hci.
    destruct (decide (i = k)) as [->|Hne].
    + rewrite lookup_insert_eq. destruct x as [|v x].
      * cbn. rewrite (IH k Hcm), Hi. reflexivity.
      * rewrite (foldl_Add_same _ _ _ _ Hci), (IH k Hcm), Hi. reflexivity.
    + rewrite lookup_insert_ne by done. rewrite foldl_Add_other by congruence.
      by apply IH.
Qed.

Lemma relay_lookup (src dst : http.Header) k :
  map_Forall (λ k' _, http.CanonicalHeaderKey k' ≠ k) src →
  proxy.copyHeaders setHeader src dst !! k = dst !! k.
Proof.
  unfold proxy.copyHeaders.
  apply (map_fold_weak_ind (λ (r : http.Header) (m : http.Header),
    map_Forall (λ k' _, http.CanonicalHeaderKey k' ≠ k) m → r !! k = dst !! k)).
  - done.
  - intros i x m r Hi IH Hc.
    apply map_Forall_insert in Hc as [Hci Hcm]; [|done]. cbn in Hci.
    specialize (IH Hcm). revert r IH. induction x as [|v x IHx]; intros r IH; [done|].
    cbn [foldl]. apply IHx. by rewrite setHeader_lookup_ne.
Qed.

Lemma put_string_other key v h k :
  http.CanonicalHeaderKey key ≠ k → put_string key v h !! k = h !! k.
Proof.
  intros H. unfold put_string. destruct v as [[]|]; try reflexivity.
  by apply Set_lookup_ne.
Qed.


Lemma upstream_header_request_id c id :
  Keys c !! "request_id" = Some (VString id) → id ≠ EmptyString →
  upstream_header c !! "X-Request-Id" = Some [id].
Proof.
  intros Hk Hid. unfold upstream_header.
  rewrite !put_string_other by (vm_compute; congruence).
  unfold base_header. cbv zeta. rewrite Hk.
  destruct (Keys c !! "user_id");
    [rewrite Set_lookup_ne by (vm_compute; congruence)|];
    (destruct (decide (id ≠ EmptyString)); [|done]);
    apply (Set_lookup _ "X-Request-ID").
Qed.

Lemma final_accepted code :
  final_code code = true → 0 < code ∧ refused_code code = false.
Proof.
  unfold final_code, refused_code. intros H.
  apply orb_true_iff in H as [H | H].
  - apply bool_decide_eq_true in H as ->. done.
  - apply andb_true_iff in H as [H1 H2].
    apply Z.leb_le in H1. apply Z.leb_le in H2.
    split; [lia|]. apply orb_false_intro; apply Z.ltb_ge; lia.
Qed.

(** The response after a first write with a code that ends the header. *)
Lemma write_response code body c :
  Written c = None → final_code code = true →
  (write code body c).1 = Some tt ∧
  response (write code body c).2
  = {| Status := code; Header_ := WHeader c;
       RBody := if bodyAllowedForStatus code then body else NoBody |}.
Proof.
  intros Hw Hf. destruct (final_accepted _ Hf) as [Hpos Hr].
  unfold write. rewrite Hw. cbv zeta.
  destruct (decide (0 < code)); [|done]. rewrite Hr.
  unfold response. cbn [snd fst Written set_Written Status]. by rewrite Hf.
Qed.

(** Whatever the code, the header of the response after a first write is
    the header map as it was then. *)
Lemma write_header code body c :
  Written c = None → Header_ (response (write code body c).2) = WHeader c.
Proof.
  intros Hw. unfold write. rewrite Hw. cbv zeta.
  destruct (refused_code _); unfold response; cbn [snd Written set_Written Status];
    destruct (final_code _); reflexivity.
Qed.

Lemma write_written code body c :
  Written c = None →
  Written (write code body c).2
  = Some {| Status := if decide (0 < code) then code else 200; Header_ := WHeader c;
            RBody := if bodyAllowedForStatus (if decide (0 < code) then code else 200)
                     then body else NoBody |}.
Proof.
  intros Hw. unfold write. rewrite Hw. cbv zeta. by destruct (refused_code _).
Qed.

Lemma JSON_status code obj c :
  Written c = None → final_code code = true →
  Status (response (JSON code obj c).2) = code.
Proof.
  intros H Hf. rewrite JSON_eq.
  by destruct (write_response code (JSONBody obj)
                 (writeContentType "application/json; charset=utf-8" c).2 H Hf) as [_ ->].
Qed.

Lemma log_JSON_status l m kv code obj c :
  Written c = None → final_code code = true →
  Status (response ((log l m kv;; JSON code obj) c).2) = code.
Proof. intros H Hf. rewrite log_then. by apply JSON_status. Qed.

Lemma Data_status code contentType data c :
  Written c = None →
  Status (response (Data code contentType data c).2) = relayed_status code.
Proof.
  intros H. rewrite Data_eq. unfold write.
  change (Written (writeContentType contentType c).2) with (Written c). rewrite H.
  cbv zeta. unfold relayed_status, response.
  destruct (decide (0 < code)) as [Hp|Hp].
  - destruct (refused_code code); cbn [snd Written set_Written Status];
      destruct (final_code code); reflexivity.
  - assert (final_code code = false) as ->.
    { unfold final_code. apply orb_false_intro.
      - apply bool_decide_eq_false. lia.
      - apply andb_false_intro1. apply Z.leb_gt. lia. }
    cbn [refused_code]. reflexivity.
Qed.

Lemma relay_status target c :
  Written c = None →
  match Backend (env c) with
  | Some resp =>
      Status (response (proxy.relay target (Backend (env c)) c).2) = 500 ∨
      Status (response (proxy.relay target (Backend (env c)) c).2)
        = relayed_status (http.StatusCode resp)
  | None => Status (response (proxy.relay target (Backend (env c)) c).2) = 502
  end.
Proof.
  intros H. destruct (Backend (env c)) as [resp|].
  - destruct (http.RespBody resp) eqn:Hb.
    + right. rewrite (relay_answer target resp _ c Hb). by apply Data_status.
    + left. unfold proxy.relay. rewrite Hb. by apply log_JSON_status.
  - by apply log_JSON_status.
Qed.

Lemma length_append_string s t :
  String.length (s +:+ t) = (String.length s + String.length t)%nat.
Proof.
  induction s as [|a s IH]; [reflexivity|].
  change (S (String.length (s +:+ t)) = S (String.length s + String.length t)).
  by rewrite IH.
Qed.

Lemma length_concat l :
  String.length (foldr String.append EmptyString l)
  = foldr (λ chunk n, (String.length chunk + n)%nat) 0%nat l.
Proof.
  induction l as [|chunk l IH]; [reflexivity|].
  cbn [foldr]. rewrite length_append_string. by rewrite IH.
Qed.

Section ForwardedRequest.

Variable url_Parse : string → option http.URL.
Variable URL_String : http.URL → string.
Variable NewRequest : string → string → option http.URL.


(** C8, as the code has it: there is no ceiling and no 413 of the router's
    own.  A body that reads without error is read whole into one buffer,
    whatever its length, and that buffer is the body sent to the backend;
    the answer has status 413 only when the backend's answer has. *)
Theorem body_read_whole (p : proxy.ServiceProxy) (path : string)
    (c : Context) (parsed url : http.URL) (r : http.BodyReader) :
  reaches url_Parse URL_String NewRequest p path c parsed url →
  http.Body (Request c) = Some r →
  Written c = None →
  let c' := (proxy.ProxyRequest url_Parse URL_String NewRequest p path c).2 in
  ∃ cr,
    Sent (world c') = Sent (world c) ++ [cr] ∧
    http.CBody cr = foldr String.append EmptyString (http.chunks r) ∧
    String.length (http.CBody cr)
      = foldr (λ chunk n, (String.length chunk + n)%nat) 0%nat (http.chunks r) ∧
    (Status (response c') = 413 →
     ∃ resp, Backend (env c) = Some resp ∧ http.StatusCode resp = 413).
Proof.
  intros Hr Hb Hw. cbv zeta. exists (upstream_request url c).
  split; [by apply (ProxyRequest_sent _ _ _ _ _ _ parsed)|].
  assert (Hbody : http.CBody (upstream_request url c)
                  = foldr String.append EmptyString (http.chunks r)).
  { cbn [upstream_request http.CBody]. unfold body_bytes. rewrite Hb. reflexivity. }
  split; [exact Hbody|]. split.
  - rewrite Hbody. apply length_concat.
  - rewrite (ProxyRequest_reaches _ _ _ _ _ _ _ _ Hr).
    pose proof (relay_status (URL_String (target_of parsed path c))
      (set_world (add_Sent (upstream_request url c)) (announced (URL_String (target_of parsed path c)) path c)))
      as Hs.
    change (env (set_world (add_Sent (upstream_request url c))
                   (announced (URL_String (target_of parsed path c)) path c))) with (env c) in Hs.
    specialize (Hs Hw).
    destruct (Backend (env c)) as [resp|].
    + intros H413. exists resp. split; [reflexivity|].
      destruct Hs as [Hs | Hs]; rewrite Hs in H413; [discriminate H413|].
      unfold relayed_status in H413.
      destruct (final_code (http.StatusCode resp)); [exact H413 | discriminate H413].
    + intros H413. rewrite Hs in H413. discriminate H413.
Qed.

End ForwardedRequest.

Lemma demo_reaches body :
  reaches demo.parse demo.String_ demo.NewRequest demo.auth_proxy "/auth/login"
    (demo.carrying body)
    (demo.http_url "localhost:8081" EmptyString EmptyString)
    (demo.http_url "localhost:8081" "/api/v1/auth/login" EmptyString).
Proof.
  unfold reaches, typed_keys, demo.carrying, fresh. cbn [Keys].
  rewrite !lookup_empty. split_and!; try reflexivity; exact I.
Qed.



Lemma body_read_whole_witness :
  ∃ cr,
    Sent (world (proxy.ProxyRequest demo.parse demo.String_ demo.NewRequest demo.auth_proxy
                   "/auth/login" (demo.carrying "abc")).2) = [] ++ [cr] ∧
    http.CBody cr = "abc" ∧
    String.length (http.CBody cr) = 3%nat ∧
    (Status (response (proxy.ProxyRequest demo.parse demo.String_ demo.NewRequest demo.auth_proxy
                         "/auth/login" (demo.carrying "abc")).2) = 413 →
     ∃ resp, Some (demo.answer demo.json) = Some resp ∧ http.StatusCode resp = 413).
Proof.
  exact (body_read_whole demo.parse demo.String_ demo.NewRequest demo.auth_proxy "/auth/login"
           (demo.carrying "abc") _ _ _ (demo_reaches "abc") eq_refl eq_refl).
Defined.

(** C8, counterexample: no bound holds for the buffer the forwarder fills
    from the inbound body. *)
Lemma buffer_unbounded :
  ¬ ∃ bound : nat, ∀ body cr,
      cr ∈ Sent (world (proxy.ProxyRequest demo.parse demo.String_ demo.NewRequest demo.auth_proxy
                          "/auth/login" (demo.carrying body)).2) →
      (String.length (http.CBody cr) ≤ bound)%nat.
Proof.
  intros (bound & H).
  specialize (H (demo.pad (S bound))
                (upstream_request
                   (demo.http_url "localhost:8081" "/api/v1/auth/login" EmptyString)
                   (demo.carrying (demo.pad (S bound))))).
  rewrite (ProxyRequest_sent _ _ _ _ _ _ _ _ (demo_reaches (demo.pad (S bound)))) in H.
  specialize (H ltac:(apply elem_of_app; right; apply list_elem_of_singleton; reflexivity)).
  cbn [upstream_request http.CBody] in H. unfold body_bytes in H.
  change (http.Body (Request (demo.carrying (demo.pad (S bound)))))
    with (Some {| http.chunks := [demo.pad (S bound)]; http.read_error := false |}) in H.
  cbn [http.ReadAll http.chunks fst foldr] in H.
  rewrite length_append_string in H.
  assert (Hp : ∀ n, String.length (demo.pad n) = n).
  { induction n as [|n IH]; [reflexivity|]. cbn. by rewrite IH. }
  rewrite Hp in H. cbn in H. lia.
Qed.
(** ** Footprints *)

Section FootprintRules.

Context (Ph Pk : string → Prop).

Lemma fp_ret {A} (x : A) : footprint Ph Pk (mret x).
Proof. intros c. apply rtc_refl. Qed.

Lemma fp_gets {A} (f : Context → A) : footprint Ph Pk (gets f).
Proof. intros c. apply rtc_refl. Qed.

Lemma fp_panic {A} : footprint Ph Pk (@panic A).
Proof. intros c. apply rtc_refl. Qed.

Lemma fp_bind {A B} (m : M A) (f : A → M B) :
  footprint Ph Pk m → (∀ x, footprint Ph Pk (f x)) → footprint Ph Pk (m ≫= f).
Proof.
  intros Hm Hf c. unfold mbind, M_bind. specialize (Hm c).
  destruct (m c) as [[x|] c1]; cbn in *; [|done].
  etrans; [exact Hm | apply Hf].
Qed.

Lemma fp_Header k v : Ph (http.CanonicalHeaderKey k) → footprint Ph Pk (Header k v).
Proof. intros H c. apply rtc_once. by apply ch_header. Qed.

Lemma fp_write code body : footprint Ph Pk (write code body).
Proof. intros c. apply rtc_once. apply ch_write. Qed.

Lemma fp_ctype ct : Ph "Content-Type" → footprint Ph Pk (writeContentType ct).
Proof. intros H c. apply rtc_once. by apply ch_ctype. Qed.

Lemma fp_JSON code obj : Ph "Content-Type" → footprint Ph Pk (JSON code obj).
Proof. intros H. apply fp_bind; [by apply fp_ctype | intros _; apply fp_write]. Qed.

Lemma fp_Data code ct data : Ph "Content-Type" → footprint Ph Pk (Data code ct data).
Proof. intros H. apply fp_bind; [by apply fp_ctype | intros _; apply fp_write]. Qed.

Lemma fp_Set k v : Pk k → footprint Ph Pk (Set_ k v).
Proof. intros H c. apply rtc_once. by apply ch_key. Qed.

Lemma fp_RequestHeaderSet k v : footprint Ph Pk (RequestHeaderSet k v).
Proof. intros c. apply rtc_once. apply ch_reqheader. Qed.

Lemma fp_log l m kv : is_warn l = false → footprint Ph Pk (log l m kv).
Proof. intros H c. apply rtc_once. by apply ch_log. Qed.

Lemma fp_Recovery next c c1 :
  rtc (change Ph Pk) c1 (next c).2 → rtc (change Ph Pk) c1 (Recovery next c).2.
Proof.
  intros H. unfold Recovery. destruct (next c) as [[x|] c']; [exact H|].
  cbn [snd] in H. etrans; [exact H|]. apply fp_write.
Qed.

Lemma fp_Logger next c c1 :
  rtc (change Ph Pk) c1 (next c).2 → rtc (change Ph Pk) c1 (middleware.Logger next c).2.
Proof.
  intros H. unfold middleware.Logger.
  unfold mbind at 1, M_bind at 1, gets at 1. cbv beta iota.
  unfold mbind at 1, M_bind at 1, gets at 1. cbv beta iota.
  unfold mbind at 1, M_bind at 1.
  destruct (next c) as [[x|] c']; [|exact H].
  cbn [snd] in H. etrans; [exact H|].
  unfold GetString, WriterStatus.
  repeat (unfold mbind at 1, M_bind at 1, gets at 1; cbv beta iota).
  by apply fp_log.
Qed.

End FootprintRules.

Ltac fp_step :=
  lazymatch goal with
  | |- footprint _ _ (mbind _ _) => apply fp_bind
  | |- ∀ _, _ => intro
  | |- footprint _ _ (if ?b then _ else _) => destruct b
  | |- footprint _ _ (match ?x with _ => _ end) => destruct x
  | |- _ =>
      first [ apply fp_ret | apply fp_gets | apply fp_panic | apply fp_write
            | apply fp_RequestHeaderSet | apply fp_log; reflexivity | assumption ]
  end.

Section FootprintTail.

Context (Ph Pk : string → Prop).
Hypothesis Hnames : Forall Ph tail_names.
Hypothesis Hkeys : Forall Pk tail_keys.

Local Ltac name_ok :=
  match goal with
  | |- Ph _ => eapply (proj1 (Forall_forall _ _) Hnames); vm_compute; set_solver
  | |- Pk _ => eapply (proj1 (Forall_forall _ _) Hkeys); vm_compute; set_solver
  end.

Local Ltac go :=
  repeat first
    [ fp_step
    | apply fp_Header; name_ok
    | apply fp_JSON; name_ok
    | apply fp_Data; name_ok
    | apply fp_Set; name_ok ].

Local Ltac go_at :=
  lazymatch goal with
  | |- rtc (change _ _) ?c (?m ?c).2 =>
      let F := fresh in assert (F : footprint Ph Pk m) by go; exact (F c)
  end.

Lemma fp_AuthRequired secret next :
  footprint Ph Pk next → footprint Ph Pk (middleware.AuthRequired secret next).
Proof.
  intros Hn. unfold middleware.AuthRequired, AbortWithStatusJSON, GetHeader. go.
Qed.

Lemma fp_APIKeyOrJWTAuth Sum256 secret next :
  footprint Ph Pk next → footprint Ph Pk (middleware.APIKeyOrJWTAuth Sum256 secret next).
Proof.
  intros Hn. unfold middleware.APIKeyOrJWTAuth, AbortWithStatusJSON, GetHeader. go.
Qed.

Lemma fp_emit d next :
  Forall (λ kv, Ph (http.CanonicalHeaderKey kv.1)) (middleware.headers d) →
  footprint Ph Pk next → footprint Ph Pk (middleware.emit d next).
Proof.
  intros Hd Hn. unfold middleware.emit, AbortWithStatusJSON.
  apply fp_bind.
  - induction Hd as [|kv l Hkv _ IH]; cbn; [apply fp_ret|].
    apply fp_bind; [by apply fp_Header | intros _; exact IH].
  - intros _. go.
Qed.

Lemma fp_RateLimiterRedis R W next :
  footprint Ph Pk next → footprint Ph Pk (middleware.RateLimiterRedis R W next).
Proof.
  intros Hn. unfold middleware.RateLimiterRedis.
  repeat (apply fp_bind; [apply fp_gets | intro]).
  destruct (middleware.pipeline_Exec _ _ _ _ _) as [store' res].
  apply fp_bind.
  { intros c. apply rtc_once. apply ch_store. }
  intros _. apply fp_emit; [|done].
  destruct res; cbn; repeat constructor; cbn; name_ok.
Qed.

Lemma fp_RateLimiterMemory R next :
  footprint Ph Pk next → footprint Ph Pk (middleware.RateLimiterMemory R next).
Proof.
  intros Hn. unfold middleware.RateLimiterMemory.
  repeat (apply fp_bind; [apply fp_gets | intro]).
  destruct (middleware.memory_step _ _ _ _) as [clients' d] eqn:E.
  apply fp_bind.
  { intros c. apply rtc_once. apply ch_clients. }
  intros _. apply fp_emit; [|done].
  unfold middleware.memory_step in E.
  destruct (_ !! _); injection E as <- <-; cbn; repeat constructor; cbn; name_ok.
Qed.

Lemma fp_relay target c b :
  b = Backend (env c) → rtc (change Ph Pk) c (proxy.relay target b c).2.
Proof.
  intros Hb. unfold proxy.relay. destruct b as [resp|].
  - destruct (http.RespBody resp) as [body|]; [|go_at].
    unfold mbind at 1, M_bind at 1, modify at 1. cbv beta iota.
    eapply rtc_l; [apply (ch_relay _ _ c resp); done|].
    apply fp_Data. name_ok.
  - go_at.
Qed.

Variable Sum256 : string → string.
Variable url_Parse : string → option http.URL.
Variable URL_String : http.URL → string.
Variable NewRequest : string → string → option http.URL.

Lemma fp_ProxyRequest p path :
  footprint Ph Pk (proxy.ProxyRequest url_Parse URL_String NewRequest p path).
Proof.
  assert (Hct : Ph "Content-Type").
  { eapply (proj1 (Forall_forall _ _) Hnames). set_solver. }
  intros c.
  destruct (ProxyRequest_cases url_Parse URL_String NewRequest p path c)
    as [(parsed & url & Hr) | [(m & kv & code & obj & -> & _) | ->]].
  - rewrite (ProxyRequest_reaches _ _ _ _ _ _ _ _ Hr).
    etrans; [apply rtc_once, (ch_log Ph Pk c DebugLevel); reflexivity|].
    etrans; [apply rtc_once, (ch_sent Ph Pk _ url)|].
    by apply fp_relay.
  - apply (fp_bind Ph Pk); [by apply fp_log | intros _; by apply fp_JSON].
  - apply rtc_refl.
Qed.

Lemma fp_forward srv b :
  footprint Ph Pk (main.forward url_Parse URL_String NewRequest srv b).
Proof.
  destruct b; cbn [main.forward];
    unfold handlers.ProxyToAuth, handlers.ProxyToCaptcha;
    (apply fp_bind; [apply fp_gets | intros path]);
    (apply fp_bind; [by apply fp_log | intros _]); apply fp_ProxyRequest.
Qed.

Lemma fp_routeChain srv r :
  footprint Ph Pk (main.routeChain Sum256 url_Parse URL_String NewRequest srv r).
Proof.
  unfold main.routeChain, chain. cbn [foldr].
  assert (Hg : footprint Ph Pk
            (foldr (λ h rest, h rest) (main.forward url_Parse URL_String NewRequest srv (main.backend r))
                   (main.guard Sum256 srv (main.auth r)))).
  { destruct (main.auth r); cbn [main.guard foldr].
    - apply fp_forward.
    - apply fp_AuthRequired, fp_forward.
    - apply fp_APIKeyOrJWTAuth, fp_forward. }
  unfold main.limiter. destruct (main.redisClient srv).
  - by apply fp_RateLimiterRedis.
  - by apply fp_RateLimiterMemory.
Qed.

Lemma fp_handlerFor srv method path :
  footprint Ph Pk (main.handlerFor Sum256 url_Parse URL_String NewRequest srv method path).
Proof.
  assert (Hct : Ph "Content-Type").
  { eapply (proj1 (Forall_forall _ _) Hnames). set_solver. }
  unfold main.handlerFor. destruct (decide _).
  - unfold main.health. apply fp_bind; [apply fp_gets | intros now]. by apply fp_JSON.
  - destruct (main.lookup method path) as [r|]; [apply fp_routeChain|].
    unfold main.notFound. apply fp_bind; [|intros _; apply fp_write].
    intros c. apply rtc_once. by apply (ch_header Ph Pk c "Content-Type" "text/plain").
Qed.

End FootprintTail.

(** ** The global middleware *)

Lemma RequestID_eq next c : middleware.RequestID next c = next (with_request_id c).
Proof.
  unfold middleware.RequestID, GetHeader, with_request_id, request_id_of.
  munfold. cbv beta iota zeta. destruct (decide _); reflexivity.
Qed.

Lemma CORS_eq cfg next c :
  middleware.CORS cfg next c =
  if decide (http.Method (Request c) = "OPTIONS")
  then AbortWithStatus 204 (with_cors cfg c)
  else next (with_cors cfg c).
Proof.
  unfold middleware.CORS, GetHeader, with_cors.
  unfold mbind at 1, M_bind at 1, gets at 1. cbv beta iota zeta.
  destruct (_ && _); munfold; cbv beta iota;
    change (http.Method (Request (set_WHeader _ _))) with (http.Method (Request c));
    destruct (decide _); reflexivity.
Qed.

Lemma SecurityHeaders_eq next c :
  middleware.SecurityHeaders next c = next (with_security c).
Proof.
  unfold middleware.SecurityHeaders, with_security. munfold. cbv beta iota zeta.
  change (GinMode (world (set_WHeader _ _))) with (GinMode (world c)).
  destruct (GinMode (world c)); reflexivity.
Qed.

Lemma ServeHTTP_eq Sum256 url_Parse URL_String NewRequest trailingSlash srv c :
  main.redirected trailingSlash (Request c) = None →
  main.ServeHTTP Sum256 url_Parse URL_String NewRequest trailingSlash srv c =
  Recovery (middleware.Logger (middleware.RequestID
    (middleware.CORS (config.CORS (main.cfg srv))
       (middleware.SecurityHeaders
          (main.handlerFor Sum256 url_Parse URL_String NewRequest srv
             (http.Method (Request c)) (http.URL_Path (Request c))))))) c.
Proof.
  intros H. unfold main.ServeHTTP. unfold mbind at 1, M_bind at 1, gets at 1.
  cbv beta iota. rewrite H. reflexivity.
Qed.

(** The engine's redirect is the whole answer: no handler runs, and nothing
    of the world changes. *)
Lemma ServeHTTP_redirect Sum256 url_Parse URL_String NewRequest trailingSlash srv c r :
  main.redirected trailingSlash (Request c) = Some r →
  main.ServeHTTP Sum256 url_Parse URL_String NewRequest trailingSlash srv c
  = (Some tt, set_Written (Some r) c).
Proof.
  intros H. unfold main.ServeHTTP. unfold mbind at 1, M_bind at 1, gets at 1.
  cbv beta iota. rewrite H. reflexivity.
Qed.

(** A method without a tree is never redirected; [OPTIONS] is one. *)
Lemma redirected_options trailingSlash req :
  http.Method req = "OPTIONS" → main.redirected trailingSlash req = None.
Proof.
  intros Hm. unfold main.redirected. rewrite Hm.
  change (main.has_tree "OPTIONS") with false.
  by rewrite andb_false_r.
Qed.

Section FootprintGlobal.

Context (Ph Pk : string → Prop).

Lemma fp_SecurityHeaders next :
  Forall Ph security_names →
  footprint Ph Pk next → footprint Ph Pk (middleware.SecurityHeaders next).
Proof.
  intros Hs Hn. unfold middleware.SecurityHeaders.
  repeat first
    [ fp_step
    | apply fp_Header; eapply (proj1 (Forall_forall _ _) Hs); vm_compute; set_solver ].
Qed.

Lemma fp_CORS cfg next :
  Forall Ph cors_names →
  footprint Ph Pk next → footprint Ph Pk (middleware.CORS cfg next).
Proof.
  intros Hs Hn. unfold middleware.CORS, GetHeader, AbortWithStatus.
  repeat first
    [ fp_step
    | apply fp_Header; eapply (proj1 (Forall_forall _ _) Hs); vm_compute; set_solver ].
Qed.

Lemma fp_RequestID next :
  Ph "X-Request-Id" → Pk "request_id" →
  footprint Ph Pk next → footprint Ph Pk (middleware.RequestID next).
Proof.
  intros Hh Hk Hn. unfold middleware.RequestID, GetHeader.
  repeat first [ fp_step | by apply fp_Header | by apply fp_Set ].
Qed.

End FootprintGlobal.

(** ** What the changes keep *)

Section Kept.

Context (Ph Pk : string → Prop).

Lemma change_env c c' :
  change Ph Pk c c' → env c' = env c ∧ GinMode (world c') = GinMode (world c).
Proof.
  destruct 1; try (split; reflexivity).
  destruct (write_frame code body c) as (-> & _ & _ & -> & _). done.
Qed.

Lemma response_header_set f c k :
  f (WHeader c) !! k = WHeader c !! k →
  Header_ (response (set_WHeader f c)) !! k = Header_ (response c) !! k.
Proof.
  intros H. unfold response. cbn [Written set_WHeader WHeader].
  destruct (Written c) as [r|]; [destruct (final_code (Status r))|];
    cbn [Header_]; done.
Qed.

Lemma response_header_write code body c k :
  Header_ (response (write code body c).2) !! k = Header_ (response c) !! k.
Proof.
  destruct (Written c) as [r|] eqn:Hw.
  - unfold write. by rewrite Hw.
  - rewrite (write_header _ _ _ Hw). unfold response. by rewrite Hw.
Qed.

Lemma change_header k o c c' :
  (∀ n, Ph n → n ≠ k) →
  change Ph Pk c c' →
  relay_clear k (env c) → header_is k o c → header_is k o c'.
Proof.
  intros Hk Hc Hr. unfold header_is.
  destruct Hc as [c k' v Hp | c ct Hp | c resp Hb | c code body | | | | | | ];
    try (intros Hsame; exact Hsame).
  - rewrite response_header_set; [done|].
    apply setHeader_lookup_ne. by apply Hk.
  - change (writeContentType ct c).2
      with (set_WHeader (λ h, match h !! "Content-Type" with
                              | Some (_ :: _) => h
                              | _ => <["Content-Type" := [ct]]> h
                              end) c).
    rewrite response_header_set; [done|].
    destruct (WHeader c !! "Content-Type") as [[|]|]; try done;
      (rewrite lookup_insert_ne; [done | by apply Hk]).
  - rewrite response_header_set; [done|].
    apply relay_lookup. by apply Hr.
  - by rewrite response_header_write.
Qed.

Lemma rtc_header k o c c' :
  (∀ n, Ph n → n ≠ k) →
  rtc (change Ph Pk) c c' →
  relay_clear k (env c) → header_is k o c → header_is k o c'.
Proof.
  intros Hk Hc. induction Hc as [|c c1 c2 H1 _ IH]; [done|].
  intros Hr H. apply IH.
  - destruct (change_env _ _ H1) as [-> _]. exact Hr.
  - by apply (change_header k o c c1).
Qed.

Lemma change_sent id w c c' :
  (∀ n, Pk n → n ≠ "request_id") → id ≠ EmptyString →
  let P := λ cr, http.CHeader cr !! "X-Request-Id" = Some [id] in
  change Ph Pk c c' →
  Keys c !! "request_id" = Some (VString id) ∧ sent_since w P c →
  Keys c' !! "request_id" = Some (VString id) ∧ sent_since w P c'.
Proof.
  intros Hk Hid P Hc. unfold sent_since.
  destruct Hc as [ | | | c code body | c k v Hp | | | | | c url];
    try (intros Hsame; exact Hsame).
  - destruct (write_frame code body c) as (_ & _ & -> & -> & _). done.
  - cbn. intros [H1 H2]. split; [|exact H2].
    rewrite lookup_insert_ne; [exact H1|]. by apply Hk.
  - cbn. intros [H1 (new & H2 & H3)]. split; [exact H1|].
    exists (new ++ [upstream_request url c]). split.
    + rewrite H2. by rewrite app_assoc.
    + apply Forall_app. split; [exact H3|]. apply Forall_singleton.
      unfold P. cbn [upstream_request http.CHeader].
      by apply upstream_header_request_id.
Qed.

Lemma rtc_sent id w c c' :
  (∀ n, Pk n → n ≠ "request_id") → id ≠ EmptyString →
  let P := λ cr, http.CHeader cr !! "X-Request-Id" = Some [id] in
  rtc (change Ph Pk) c c' →
  Keys c !! "request_id" = Some (VString id) ∧ sent_since w P c →
  Keys c' !! "request_id" = Some (VString id) ∧ sent_since w P c'.
Proof.
  intros Hk Hid P Hc. induction Hc as [|c c1 c2 H1 _ IH]; [done|].
  intros H. apply IH. by apply (change_sent id w c c1).
Qed.

Lemma change_log L c c' :
  change Ph Pk c c' →
  (∃ new, Log (world c) = L ++ new ∧ warnings new = []) →
  ∃ new, Log (world c') = L ++ new ∧ warnings new = [].
Proof.
  destruct 1 as [ | | | c code body | | | c l m kv Hl | | | ];
    try (intros Hsame; exact Hsame).
  - destruct (write_frame code body c) as (_ & _ & _ & -> & _). done.
  - unfold log, modify. cbn. intros (new & H1 & H2).
    exists (new ++ [{| time := Now (env c); level := l; msg := m; fields := kv |}]).
    split; [rewrite H1; by rewrite app_assoc|].
    unfold warnings in *. rewrite List.filter_app, H2. cbn.
    unfold record_is_warn. cbn. by rewrite Hl.
Qed.

Lemma rtc_log L c c' :
  rtc (change Ph Pk) c c' →
  (∃ new, Log (world c) = L ++ new ∧ warnings new = []) →
  ∃ new, Log (world c') = L ++ new ∧ warnings new = [].
Proof.
  induction 1 as [|c c1 c2 H1 _ IH]; [done|].
  intros H. apply IH. by apply (change_log L c c1).
Qed.

End Kept.
(** ** Serving a request *)

Lemma setHeader_lookup_eq h k v k' :
  v ≠ EmptyString → http.CanonicalHeaderKey k = k' → setHeader h k v !! k' = Some [v].
Proof.
  intros Hv <-. unfold setHeader. destruct (decide _); [done|]. apply Set_lookup.
Qed.

Lemma append_nonempty s a t : s +:+ String a t ≠ EmptyString.
Proof. by destruct s. Qed.

Lemma uuid_String_nonempty u : middleware.uuid_String u ≠ EmptyString.
Proof. unfold middleware.uuid_String. apply append_nonempty. Qed.

Lemma request_id_nonempty c : request_id_of c ≠ EmptyString.
Proof.
  unfold request_id_of. cbv zeta. destruct (decide _); [apply uuid_String_nonempty|done].
Qed.

Lemma with_cors_frame cfg c :
  Written (with_cors cfg c) = Written c ∧ Keys (with_cors cfg c) = Keys c ∧
  world (with_cors cfg c) = world c ∧ env (with_cors cfg c) = env c ∧
  Request (with_cors cfg c) = Request c.
Proof. unfold with_cors. cbv zeta. destruct (_ && _); split_and!; reflexivity. Qed.

Lemma with_cors_lookup cfg c k :
  k ∉ cors_names → WHeader (with_cors cfg c) !! k = WHeader c !! k.
Proof.
  intros Hk. unfold cors_names in Hk. repeat (apply not_elem_of_cons in Hk as [? Hk]).
  unfold with_cors. cbv zeta.
  destruct (_ && _); cbn [WHeader set_WHeader];
    rewrite !setHeader_lookup_ne by (vm_compute; congruence); reflexivity.
Qed.

Lemma with_security_frame c :
  Written (with_security c) = Written c ∧ env (with_security c) = env c.
Proof.
  unfold with_security. cbv zeta. cbn [world set_WHeader].
  destruct (GinMode (world c)); split; reflexivity.
Qed.

Lemma with_security_sets c k v :
  (k, v) ∈ security_values → Written c = None →
  header_is k (Some [v]) (with_security c).
Proof.
  intros Hin Hw. unfold header_is, response.
  rewrite (proj1 (with_security_frame c)), Hw. cbn [Header_].
  unfold with_security. cbv zeta. cbn [world set_WHeader].
  unfold security_values in Hin.
  repeat (apply elem_of_cons in Hin as [[= -> ->] | Hin]);
    [..|by apply elem_of_nil in Hin];
    destruct (GinMode (world c)); cbn [WHeader set_WHeader];
    rewrite ?setHeader_lookup_ne by (vm_compute; congruence);
    (apply setHeader_lookup_eq; [discriminate | reflexivity]).
Qed.

Lemma with_security_hsts c :
  Written c = None → WHeader c !! "Strict-Transport-Security" = None →
  header_is "Strict-Transport-Security"
    (match GinMode (world c) with ReleaseMode => Some [hsts] | _ => None end)
    (with_security c).
Proof.
  intros Hw Hn. unfold header_is, response.
  rewrite (proj1 (with_security_frame c)), Hw. cbn [Header_].
  unfold with_security. cbv zeta. cbn [world set_WHeader].
  destruct (GinMode (world c)); cbn [WHeader set_WHeader];
    rewrite ?setHeader_lookup_ne by (vm_compute; congruence); try exact Hn.
  apply setHeader_lookup_eq; [discriminate | reflexivity].
Qed.

Lemma redirected_final trailingSlash req r :
  main.redirected trailingSlash req = Some r → final_code (Status r) = true.
Proof.
  unfold main.redirected. destruct (_ && _); [|done]. intros H.
  apply fmap_Some in H as (r0 & _ & ->). cbn [Status].
  unfold main.redirect_code. by destruct (decide _).
Qed.

Lemma response_written r c :
  final_code (Status r) = true → response (set_Written (Some r) c) = r.
Proof. intros H. unfold response. cbn [Written set_Written]. by rewrite H. Qed.

Section Serving.

Variable Sum256 : string → string.
Variable url_Parse : string → option http.URL.
Variable URL_String : http.URL → string.
Variable NewRequest : string → string → option http.URL.
Variable trailingSlash : http.Request → option Response.

Lemma serve_redirected srv req e w r :
  main.redirected trailingSlash req = Some r →
  main.serve Sum256 url_Parse URL_String NewRequest trailingSlash srv req e w
  = set_Written (Some r) (fresh req e w).
Proof.
  intros H. unfold main.serve. fold (fresh req e w).
  by rewrite (ServeHTTP_redirect _ _ _ _ _ _ (fresh req e w) r H).
Qed.

Lemma serve_from_request_id Ph Pk srv req e w :
  main.redirected trailingSlash req = None →
  Forall Ph tail_names → Forall Ph cors_names → Forall Ph security_names →
  Forall Pk tail_keys →
  rtc (change Ph Pk) (with_request_id (fresh req e w)) (main.serve Sum256 url_Parse URL_String NewRequest trailingSlash srv req e w).
Proof.
  intros Hn H1 H2 H3 H4. unfold main.serve. fold (fresh req e w).
  rewrite (ServeHTTP_eq _ _ _ _ _ _ (fresh req e w) Hn). apply fp_Recovery, fp_Logger. rewrite RequestID_eq.
  apply fp_CORS; [done|]. apply fp_SecurityHeaders; [done|]. by apply fp_handlerFor.
Qed.

Lemma serve_from_security Ph Pk srv req e w :
  main.redirected trailingSlash req = None →
  http.Method req ≠ "OPTIONS" →
  Forall Ph tail_names → Forall Pk tail_keys →
  rtc (change Ph Pk)
    (with_security (with_cors (config.CORS (main.cfg srv)) (with_request_id (fresh req e w))))
    (main.serve Sum256 url_Parse URL_String NewRequest trailingSlash srv req e w).
Proof.
  intros Hn Hm H1 H2. unfold main.serve. fold (fresh req e w).
  rewrite (ServeHTTP_eq _ _ _ _ _ _ (fresh req e w) Hn). apply fp_Recovery, fp_Logger.
  rewrite RequestID_eq, CORS_eq.
  change (http.Method (Request (with_request_id (fresh req e w)))) with (http.Method req).
  destruct (decide _) as [|_]; [done|].
  rewrite SecurityHeaders_eq. by apply fp_handlerFor.
Qed.

Lemma serve_whole srv req e w :
  main.redirected trailingSlash req = None →
  rtc (change (λ _, True) (λ _, True)) (fresh req e w)
    (main.serve Sum256 url_Parse URL_String NewRequest trailingSlash srv req e w).
Proof.
  intros Hn.
  etrans; [|apply serve_from_request_id; [exact Hn | by apply Forall_true ..]].
  unfold with_request_id.
  etrans; [apply rtc_once, (ch_key _ _ _ "request_id"); exact I|].
  apply rtc_once, ch_header. exact I.
Qed.

Lemma serve_options srv req e w :
  http.Method req = "OPTIONS" →
  response (main.serve Sum256 url_Parse URL_String NewRequest trailingSlash srv req e w) =
  {| Status := 204;
     Header_ := WHeader (with_cors (config.CORS (main.cfg srv))
                           (with_request_id (fresh req e w)));
     RBody := NoBody |}.
Proof.
  intros Hm. unfold main.serve. fold (fresh req e w).
  rewrite (ServeHTTP_eq _ _ _ _ _ _ (fresh req e w) (redirected_options trailingSlash req Hm)).
  unfold Recovery, middleware.Logger.
  unfold mbind at 1, M_bind at 1, gets at 1. cbv beta iota.
  unfold mbind at 1, M_bind at 1, gets at 1. cbv beta iota.
  unfold mbind at 1, M_bind at 1.
  rewrite RequestID_eq, CORS_eq.
  change (http.Method (Request (with_request_id (fresh req e w)))) with (http.Method req).
  destruct (decide _) as [_|]; [|done].
  unfold AbortWithStatus, write, modify.
  rewrite (proj1 (with_cors_frame _ _)). cbn [Written with_request_id set_WHeader set_Keys fresh].
  reflexivity.
Qed.

(** C4, as the code has it: the request id is the inbound [X-Request-ID]
    when that is not empty and otherwise the fresh UUID, never empty; every
    request sent to a backend while the request is served carries it; and
    the response carries it unless the backend's own answer, whose headers
    are relayed, has a header of that name.  The one response that no
    middleware has touched is the engine's trailing-slash redirect. *)
Theorem request_id_carried (srv : main.Server) (req : http.Request) (e : Env) (w : World) :
  let c' := main.serve Sum256 url_Parse URL_String NewRequest trailingSlash srv req e w in
  let inbound := http.Get (http.ReqHeader req) "X-Request-ID" in
  let id := request_id_of (fresh req e w) in
  id ≠ EmptyString ∧
  (inbound ≠ EmptyString → id = inbound) ∧
  (inbound = EmptyString → id = middleware.uuid_String (NewUUID e)) ∧
  sent_since w (λ cr, http.CHeader cr !! "X-Request-Id" = Some [id]) c' ∧
  (main.redirected trailingSlash req = None → relay_clear "X-Request-Id" e →
   Header_ (response c') !! "X-Request-Id" = Some [id]) ∧
  (∀ r, main.redirected trailingSlash req = Some r → response c' = r ∧ world c' = w).
Proof.
  cbv zeta.
  pose proof (request_id_nonempty (fresh req e w)) as Hid.
  split; [exact Hid|]. split; [|split].
  { unfold request_id_of. cbn [fresh Request]. cbv zeta. by destruct (decide _). }
  { unfold request_id_of. cbn [fresh Request env]. cbv zeta. by destruct (decide _). }
  destruct (main.redirected trailingSlash req) as [r0|] eqn:Hred.
  { rewrite (serve_redirected srv req e w r0 Hred). split; [|split].
    - exists []. split; [by rewrite app_nil_r | constructor].
    - intros Hn. discriminate Hn.
    - intros r [= <-].
      split; [apply response_written; by apply (redirected_final _ _ _ Hred) | reflexivity]. }
  pose proof (serve_from_request_id (λ n, n ≠ "X-Request-Id") (λ n, n ≠ "request_id")
                srv req e w Hred) as Hrtc.
  assert (rtc (change (λ n, n ≠ "X-Request-Id") (λ n, n ≠ "request_id"))
            (with_request_id (fresh req e w))
            (main.serve Sum256 url_Parse URL_String NewRequest trailingSlash srv req e w)) as Hr.
  { apply Hrtc; repeat constructor; discriminate. }
  clear Hrtc. split; [|split].
  - eapply (rtc_sent _ _ _ w _ _ (λ _ H, H) Hid Hr).
    split; [apply lookup_insert_eq|]. exists []. split; [by rewrite app_nil_r | constructor].
  - intros _ Hc.
    apply (rtc_header _ _ "X-Request-Id" _ _ _ (λ _ H, H) Hr); [exact Hc|].
    unfold header_is, response, with_request_id. cbn.
    by apply setHeader_lookup_eq.
  - intros r Hn. discriminate Hn.
Qed.

(** C5, as the code has it: the response to a request whose method is not
    OPTIONS carries the four security headers with the values
    [SecurityHeaders] gives them, unless the backend's own answer, whose
    headers are relayed, has a header of that name; it carries
    [Strict-Transport-Security] exactly when gin runs in release mode, the
    mode [main] selects for the production environment.  A request with
    method OPTIONS is answered 204 by [CORS], which runs before
    [SecurityHeaders]: its response carries none of the five.  The engine's
    trailing-slash redirect is answered before any middleware. *)
Theorem security_headers_present (srv : main.Server) (req : http.Request)
    (e : Env) (w : World) :
  let r := response (main.serve Sum256 url_Parse URL_String NewRequest trailingSlash srv req e w) in
  (main.redirected trailingSlash req = None → http.Method req ≠ "OPTIONS" →
   (∀ k v, (k, v) ∈ security_values → relay_clear k e → Header_ r !! k = Some [v]) ∧
   (relay_clear "Strict-Transport-Security" e →
    Header_ r !! "Strict-Transport-Security"
    = match GinMode w with ReleaseMode => Some [hsts] | _ => None end)) ∧
  (http.Method req = "OPTIONS" →
   Status r = 204 ∧ ∀ k, k ∈ security_names → Header_ r !! k = None) ∧
  (∀ r0, main.redirected trailingSlash req = Some r0 → r = r0) ∧
  (∀ mode, mode ≠ ReleaseMode →
     (main.SetMode (main.cfg srv) mode = ReleaseMode ↔
      config.Environment (main.cfg srv) = "production")).
Proof.
  cbv zeta. split; [|split; [|split]].
  - intros Hred Hm.
    set (c2 := with_cors (config.CORS (main.cfg srv)) (with_request_id (fresh req e w))).
    assert (Hw : Written c2 = None).
    { unfold c2. by rewrite (proj1 (with_cors_frame _ _)). }
    assert (He : env (with_security c2) = e).
    { rewrite (proj2 (with_security_frame c2)). unfold c2.
      destruct (with_cors_frame (config.CORS (main.cfg srv))
                  (with_request_id (fresh req e w))) as (_ & _ & _ & -> & _).
      reflexivity. }
    split.
    + intros k v Hin Hc.
      assert (Hk : k ∉ tail_names).
      { unfold security_values in Hin. unfold tail_names, limiter_names.
        repeat (apply elem_of_cons in Hin as [[= -> ->] | Hin]);
          [..|by apply elem_of_nil in Hin];
          intros Ht; repeat (apply elem_of_cons in Ht as [Ht | Ht]; [discriminate Ht|]);
          by apply elem_of_nil in Ht. }
      pose proof (serve_from_security (λ n, n ≠ k) (λ _, True) srv req e w Hred Hm) as Hr.
      fold c2 in Hr.
      apply (rtc_header _ _ k _ _ _ (λ _ H, H) (Hr ltac:(
        apply Forall_forall; intros n Hn ->; by apply Hk) ltac:(by apply Forall_true))).
      * by rewrite He.
      * by apply with_security_sets.
    + intros Hc.
      pose proof (serve_from_security (λ n, n ≠ "Strict-Transport-Security") (λ _, True)
                    srv req e w Hred Hm) as Hr.
      fold c2 in Hr.
      apply (rtc_header _ _ "Strict-Transport-Security" _ _ _ (λ _ H, H) (Hr ltac:(
        repeat constructor; discriminate) ltac:(by apply Forall_true))).
      * by rewrite He.
      * assert (Hwd : GinMode w = GinMode (world c2)).
        { unfold c2.
          destruct (with_cors_frame (config.CORS (main.cfg srv))
                      (with_request_id (fresh req e w))) as (_ & _ & -> & _ & _).
          reflexivity. }
        rewrite Hwd. apply with_security_hsts; [exact Hw|].
        unfold c2. rewrite with_cors_lookup.
        -- unfold with_request_id. cbn [WHeader set_WHeader set_Keys fresh].
           rewrite setHeader_lookup_ne by (vm_compute; congruence).
           apply lookup_empty.
        -- unfold cors_names. intros Ht.
           repeat (apply elem_of_cons in Ht as [Ht | Ht]; [discriminate Ht|]).
           by apply elem_of_nil in Ht.
  - intros Hm. rewrite (serve_options srv req e w Hm). cbn [Status Header_].
    split; [reflexivity|]. intros k Hk.
    rewrite with_cors_lookup.
    + unfold with_request_id. cbn [WHeader set_WHeader set_Keys fresh].
      rewrite setHeader_lookup_ne; [apply lookup_empty|].
      unfold security_names in Hk.
      repeat (apply elem_of_cons in Hk as [-> | Hk]; [vm_compute; congruence|]).
      by apply elem_of_nil in Hk.
    + unfold security_names in Hk. unfold cors_names.
      repeat (apply elem_of_cons in Hk as [-> | Hk];
        [intros Ht; repeat (apply elem_of_cons in Ht as [Ht | Ht]; [discriminate Ht|]);
         by apply elem_of_nil in Ht|]).
      by apply elem_of_nil in Hk.
  - intros r0 Hred. rewrite (serve_redirected srv req e w r0 Hred).
    apply response_written. by apply (redirected_final _ _ _ Hred).
  - intros mode Hmode. unfold main.SetMode. destruct (decide _); split; done.
Qed.

(** Serving adds no record at warn level to the log. *)
Lemma serve_no_warning srv req e w :
  ∃ new, Log (world (main.serve Sum256 url_Parse URL_String NewRequest trailingSlash srv req e w)) = Log w ++ new ∧ warnings new = [].
Proof.
  destruct (main.redirected trailingSlash req) as [r0|] eqn:Hred.
  - rewrite (serve_redirected srv req e w r0 Hred).
    exists []. split; [by rewrite app_nil_r | reflexivity].
  - apply (rtc_log _ _ (Log w) _ _ (serve_whole srv req e w Hred)).
    exists []. split; [by rewrite app_nil_r | reflexivity].
Qed.

Lemma serveAll_no_warning srv reqs w :
  ∃ new, Log (main.serveAll Sum256 url_Parse URL_String NewRequest trailingSlash srv reqs w).1 = Log w ++ new
         ∧ warnings new = [].
Proof.
  revert w. induction reqs as [|[req e|now] reqs IH]; intros w.
  - exists []. split; [by rewrite app_nil_r | reflexivity].
  - cbn [main.serveAll].
    destruct (serve_no_warning srv req e w) as (n1 & H1 & W1).
    destruct (IH (world (main.serve Sum256 url_Parse URL_String NewRequest trailingSlash srv req e w))) as (n2 & H2 & W2).
    destruct (main.serveAll _ _ _ _ _ srv reqs _) as [w' rs]. cbn [fst] in *.
    exists (n1 ++ n2). split.
    + rewrite H2, H1. by rewrite app_assoc.
    + unfold warnings in *. by rewrite List.filter_app, W1, W2.
  - cbn [main.serveAll]. destruct (IH (main.pass srv now w)) as (n & H & W).
    exists n. split; [|exact W]. rewrite H. unfold main.pass.
    by destruct (main.redisClient srv).
Qed.

End Serving.
(** ** The limiter when the store is unreachable *)

Lemma RateLimiterRedis_outage R W next c :
  RedisFails (env c) = true → middleware.RateLimiterRedis R W next c = next c.
Proof.
  intros H. unfold middleware.RateLimiterRedis. munfold. cbv beta iota.
  unfold middleware.pipeline_Exec. rewrite H. cbv beta iota.
  unfold middleware.emit, middleware.redis_decide. cbn [middleware.headers middleware.proceed foldr].
  munfold. cbv beta iota.
  destruct c as [e r k h wr [m cl st lg sn]]. reflexivity.
Qed.

Lemma filter_and_nil {A} (f g : A → bool) l :
  List.filter f l = [] → List.filter (λ x, f x && g x) l = [].
Proof.
  induction l as [|x l IH]; [done|]. cbn. destruct (f x); [done|]. cbn. exact IH.
Qed.

Lemma no_warning_between a b l : warnings l = [] → warn_between a b l = 0%nat.
Proof.
  intros H. unfold warn_between, warnings in *.
  replace (List.filter _ l) with (@nil LogRecord); [reflexivity|].
  symmetry.
  rewrite <- (filter_and_nil record_is_warn
                (λ r, bool_decide (a ≤ time r) && bool_decide (time r < b)) l H).
  apply List.filter_ext. intros r. by rewrite andb_assoc.
Qed.

Lemma warn_between_app a b l1 l2 :
  warn_between a b (l1 ++ l2) = (warn_between a b l1 + warn_between a b l2)%nat.
Proof. unfold warn_between. by rewrite List.filter_app, length_app. Qed.

(** The log [main] has written when it starts listening holds at most one
    record at warn level. *)
Lemma start_warns_once Atoi ParseDuration environ mode redisUp store now srv w :
  main.start Atoi ParseDuration environ mode redisUp store now = Ok (srv, w) →
  ∀ a b, (warn_between a b (Log w) ≤ 1)%nat.
Proof.
  unfold main.start. destruct (config.Load _ _ _) as [cfg|e]; [|discriminate].
  intros [= _ <-] a b. cbn [Log]. unfold warn_between.
  destruct redisUp; cbn [List.filter record_is_warn level is_warn andb time length].
  - lia.
  - destruct (bool_decide _ && bool_decide _); cbn; lia.
Qed.

Section Outage.

Variable Sum256 : string → string.
Variable url_Parse : string → option http.URL.
Variable URL_String : http.URL → string.
Variable NewRequest : string → string → option http.URL.
Variable trailingSlash : http.Request → option Response.

(** C7, as the code has it: a request during which the round trip to the
    counter store fails passes the limiter as if the limiter were not
    there: the rest of the chain runs, nothing is rejected, no header is
    set.  The outage is not logged: the limiter has no logger, and
    whatever the gateway serves, and whatever fails meanwhile, its log
    gains no record at warn level.  The only warn-level record [main] ever
    writes is the one at start, when the store does not answer the ping. *)
Theorem store_outage_fails_open (R W : Z) (next : M unit) (c : Context)
    (srv : main.Server) (steps : list main.step) (w : World) :
  RedisFails (env c) = true →
  let served :=
    main.serveAll Sum256 url_Parse URL_String NewRequest trailingSlash srv steps w in
  middleware.RateLimiterRedis R W next c = next c ∧
  (∃ new, Log served.1 = Log w ++ new ∧ warnings new = []) ∧
  (∀ Atoi ParseDuration environ mode redisUp store now,
     main.start Atoi ParseDuration environ mode redisUp store now = Ok (srv, w) →
     (redisUp = true → warnings (Log served.1) = []) ∧
     ∀ a b, (warn_between a b (Log served.1) ≤ 1)%nat).
Proof.
  intros H. cbv zeta. split; [by apply RateLimiterRedis_outage|].
  destruct (serveAll_no_warning Sum256 url_Parse URL_String NewRequest trailingSlash
              srv steps w) as (new & H1 & H2).
  split; [by exists new|].
  intros Atoi ParseDuration environ mode redisUp store now Hs. split.
  - intros ->. rewrite H1. unfold warnings in *. rewrite List.filter_app, H2, app_nil_r.
    unfold main.start in Hs. destruct (config.Load _ _ _) as [cfg|e]; [|discriminate].
    injection Hs as _ <-. reflexivity.
  - intros a b.
    rewrite H1, warn_between_app, (no_warning_between _ _ _ H2), Nat.add_0_r.
    exact (start_warns_once _ _ _ _ _ _ _ _ _ Hs a b).
Qed.

End Outage.

Lemma store_outage_fails_open_witness :
  middleware.RateLimiterRedis 100 (60 * config.Second) main.notFound
    (fresh demo.tagged (demo.outage 0) demo.world0)
  = main.notFound (fresh demo.tagged (demo.outage 0) demo.world0) ∧
  ∃ new,
    Log (main.serveAll demo.Sum256 demo.parse demo.String_ demo.NewRequest demo.redirect
           demo.shared
           [main.Serve demo.tagged (demo.outage 0); main.Serve demo.tagged (demo.outage 1)]
           demo.world0).1
      = Log demo.world0 ++ new ∧
    warnings new = [].
Proof.
  destruct (store_outage_fails_open demo.Sum256 demo.parse demo.String_ demo.NewRequest
              demo.redirect 100 (60 * config.Second) main.notFound
              (fresh demo.tagged (demo.outage 0) demo.world0) demo.shared
              [main.Serve demo.tagged (demo.outage 0); main.Serve demo.tagged (demo.outage 1)]
              demo.world0 eq_refl) as (Hnext & Hlog & _).
  split; [exact Hnext | exact Hlog].
Defined.

(** C7, counterexample: the store is unreachable for two requests, 31
    seconds apart; both are let through to the backend and answered, and
    the log holds no record at warn level, neither in the first 30 seconds
    nor in the second. *)
Lemma outage_not_logged :
  let s := config.Second in
  let served :=
    main.serveAll demo.Sum256 demo.parse demo.String_ demo.NewRequest demo.redirect
      demo.shared
      [main.Serve demo.tagged (demo.outage 0); main.Serve demo.tagged (demo.outage (31 * s))]
      demo.world0 in
  map Status served.2 = [200; 200] ∧
  length (Sent served.1) = 2%nat ∧
  warnings (Log served.1) = [] ∧
  warn_between 0 (30 * s) (Log served.1) = 0%nat ∧
  warn_between (30 * s) (60 * s) (Log served.1) = 0%nat.
Proof. vm_compute. split_and!; reflexivity. Qed.

(** ** Concrete requests *)

Lemma demo_cfg_loaded :
  main.start (λ _, None) (λ _, None) ∅ DebugMode true ∅ 0
  = Ok (demo.shared,
        {| GinMode := DebugMode; Clients := ∅; Store := ∅;
           Log := [{| time := 0; level := InfoLevel; msg := "Starting API Gateway...";
                      fields := [] |}];
           Sent := [] |}).
Proof. vm_compute. reflexivity. Qed.

(** C1, at the failing input: whatever the secret, [validateJWT] accepts the
    three-segment token [a.b.c], which no secret signs, and the token with
    its last byte changed, and returns the zero user for both; so
    [AuthRequired] runs the rest of the chain for [Bearer a.b.c], with the
    user id 0 and empty email and role. *)
Theorem forged_token_accepted (secret : string) (next : M unit) (e : Env) (w : World) :
  middleware.validateJWT "a.b.c" secret
    = Ok {| middleware.UserID := 0; middleware.Email := EmptyString;
            middleware.Role := EmptyString |} ∧
  middleware.validateJWT "a.b.d" secret = middleware.validateJWT "a.b.c" secret ∧
  middleware.AuthRequired secret next (fresh demo.forged e w)
    = next (as_zero_user (fresh demo.forged e w)).
Proof.
  split; [vm_compute; reflexivity|]. split; [vm_compute; reflexivity|].
  apply (AuthRequired_accepts secret next (fresh demo.forged e w) "Bearer" "a.b.c").
  - vm_compute. discriminate.
  - vm_compute. reflexivity.
  - vm_compute. reflexivity.
  - vm_compute. reflexivity.
Qed.

(** C2, at the failing input: for [GET /api/v1/auth/me] with
    [Authorization: Bearer a.b.c] the gateway answers with the backend's
    200, not with 401, after sending the backend one request, on behalf of
    user 0. *)
Theorem forged_token_forwarded :
  let c := demo.run demo.forged (demo.at_ 0 (Some (demo.answer demo.json))) in
  Status (response c) = 200 ∧
  map (λ cr, (http.Path (http.CURL cr), http.CHeader cr !! "X-User-Id")) (Sent (world c))
    = [("/api/v1/auth/me", Some ["0"])].
Proof. vm_compute. split; reflexivity. Qed.

(** C4, counterexample: the inbound request carries [X-Request-ID: abc], the
    backend answers with [X-Request-Id: zzz], and the response carries
    [zzz]. *)
Lemma request_id_overwritten :
  let c := demo.run demo.tagged
             (demo.at_ 0 (Some (demo.answer {[ "X-Request-Id" := ["zzz"] ]}))) in
  http.Get (http.ReqHeader demo.tagged) "X-Request-ID" = "abc" ∧
  Header_ (response c) !! "X-Request-Id" = Some ["zzz"] ∧
  Header_ (response c) !! "X-Request-Id" ≠ Some ["abc"].
Proof. vm_compute. split_and!; [reflexivity | reflexivity | discriminate]. Qed.

(** C5, counterexample: the response to a preflight request carries no
    [X-Content-Type-Options] (nor any other security header). *)
Lemma preflight_without_security_headers :
  let c := demo.run demo.preflight (demo.at_ 0 None) in
  Status (response c) = 204 ∧
  Header_ (response c) !! "X-Content-Type-Options" = None ∧
  Header_ (response c) !! "X-Frame-Options" = None.
Proof. vm_compute. split_and!; reflexivity. Qed.


Lemma demo_relay_clear k now :
  http.CanonicalHeaderKey "Content-Type" ≠ k →
  relay_clear k (demo.at_ now (Some (demo.answer demo.json))).
Proof.
  intros Hk resp [= <-]. apply map_Forall_singleton. exact Hk.
Qed.

Lemma request_id_carried_witness :
  Header_ (response (demo.run demo.tagged (demo.at_ 0 (Some (demo.answer demo.json)))))
    !! "X-Request-Id" = Some ["abc"].
Proof.
  apply (request_id_carried demo.Sum256 demo.parse demo.String_ demo.NewRequest demo.redirect demo.server
           demo.tagged (demo.at_ 0 (Some (demo.answer demo.json))) demo.world0).
  - vm_compute. reflexivity.
  - apply demo_relay_clear. vm_compute. discriminate.
Defined.

Lemma security_headers_present_witness :
  Header_ (response (demo.run demo.tagged (demo.at_ 0 (Some (demo.answer demo.json)))))
    !! "X-Frame-Options" = Some ["DENY"].
Proof.
  apply (security_headers_present demo.Sum256 demo.parse demo.String_ demo.NewRequest demo.redirect
           demo.server demo.tagged (demo.at_ 0 (Some (demo.answer demo.json))) demo.world0).
  - vm_compute. reflexivity.
  - discriminate.
  - unfold security_values. apply elem_of_cons. right. apply elem_of_cons. by left.
  - apply demo_relay_clear. vm_compute. discriminate.
Defined.


(** ** The limiters *)

Section Limiters.
Import limiter middleware.


Lemma int_range : int_min < 0 ∧ 1 < int_max.
Proof. unfold int_min, int_max. change (2 ^ 63) with 9223372036854775808. lia. Qed.

Lemma window_pos : 0 < window.
Proof. reflexivity. Qed.

Lemma key_of_inj a b : key_of a = key_of b → a = b.
Proof. unfold key_of. cbn. intros H. by simplify_eq. Qed.




Lemma counted_passed C a W h : counted C a W h = true → passed h = true.
Proof. unfold counted. intros H. by apply andb_true_iff in H as [_ H]. Qed.


(** *** The shared backend *)


Lemma exec_other key k W t store :
  key ≠ k → (pipeline_Exec false key W t store).1 !! k = store !! k.
Proof.
  intros Hne. unfold pipeline_Exec, Expire.
  destruct (decide _); cbn [fst].
  - destruct (live_value t store key); [destruct (decide _)|].
    + by rewrite lookup_delete_ne.
    + by rewrite lookup_insert_ne.
    + by rewrite lookup_delete_ne.
  - destruct (decide _).
    + by rewrite lookup_delete_ne.
    + by rewrite lookup_insert_ne.
Qed.

Lemma formatSec_pos W : 0 < W → 0 < formatSec W.
Proof.
  intros H. unfold formatSec. destruct (decide _) as [_|Hn]; [lia|].
  assert (config.Second ≤ W) by lia.
  assert (1 ≤ W ÷ config.Second); [|lia].
  rewrite Z.quot_div_nonneg by (unfold config.Second; lia).
  apply Z.div_le_lower_bound; unfold config.Second in *; lia.
Qed.

Lemma formatSec_nonpos W : W ≤ 0 → formatSec W ≤ 0.
Proof.
  intros H. unfold formatSec. destruct (decide _) as [|_]; [lia|].
  change 0 with (0 ÷ config.Second) at 1.
  apply Z.quot_le_mono; [reflexivity | exact H].
Qed.

Lemma ttl_pos W : 0 < W → 0 < ttl W.
Proof. intros H. unfold ttl. pose proof (formatSec_pos W H). unfold config.Second. lia. Qed.


Lemma exec_same key W t store n :
  0 < W → sound_counter (S n) (store !! key) →
  ∃ v, 0 ≤ v ∧ v + 1 + Z.of_nat n ≤ int_max ∧
       pipeline_Exec false key W t store
       = (<[key := {| value := v + 1; expires := t + ttl W |}]> store, Some (v + 1)) ∧
       (∀ c, store !! key = Some c → ¬ expires c < t → v = value c).
Proof.
  intros HW Hs. exists (default 0 (live_value t store key)).
  assert (Hv : 0 ≤ default 0 (live_value t store key) ∧
               default 0 (live_value t store key) + 1 + Z.of_nat n ≤ int_max).
  { unfold live_value. unfold sound_counter in Hs.
    destruct (store !! key) as [c|]; cbn.
    - destruct (decide _); cbn; lia.
    - lia. }
  split; [lia|]. split; [lia|]. split.
  - unfold pipeline_Exec, Expire.
    destruct (decide (_ > _)); [lia|].
    destruct (decide (formatSec W ≤ 0)); [pose proof (formatSec_pos W HW); lia|].
    reflexivity.
  - intros c Hc Hlive. unfold live_value. rewrite Hc.
    destruct (decide _); [done|reflexivity].
Qed.



(** *** The in-memory backend *)


Lemma step_other R ip C t clients :
  ip ≠ C → (memory_step R ip t clients).1 !! C = clients !! C.
Proof.
  intros Hne. unfold memory_step.
  destruct (clients !! ip); cbn [fst]; by rewrite lookup_insert_ne.
Qed.


Lemma cleanup_lookup t clients C :
  cleanup t clients !! C =
  match clients !! C with
  | Some cl => if decide (t - lastSeen cl > window * 2) then None else Some cl
  | None => None
  end.
Proof.
  unfold cleanup. rewrite map_lookup_filter.
  destruct (clients !! C) as [cl|]; [|reflexivity]. cbn.
  destruct (decide (t - lastSeen cl > window * 2)).
  - rewrite option_guard_False; [reflexivity|]. cbn. tauto.
  - rewrite option_guard_True; [reflexivity|]. cbn. tauto.
Qed.




Lemma JSON_body code obj c :
  Written c = None → final_code code = true → bodyAllowedForStatus code = true →
  RBody (response (JSON code obj c).2) = JSONBody obj.
Proof.
  intros H Hf Hb. rewrite JSON_eq.
  destruct (write_response code (JSONBody obj)
              (writeContentType "application/json; charset=utf-8" c).2 H Hf) as [_ ->].
  cbn [RBody]. by rewrite Hb.
Qed.


End Limiters.
(** * Further properties of the gateway *)

Import obs.


Lemma Logger_eq next c :
  middleware.Logger next c =
  match next c with
  | (Some _, c1) => (Some tt, set_world (add_Log (access_record c c1)) c1)
  | (None, c1) => (None, c1)
  end.
Proof.
  unfold middleware.Logger.
  unfold mbind at 1, M_bind at 1, gets at 1. cbv beta iota.
  unfold mbind at 1, M_bind at 1, gets at 1. cbv beta iota.
  unfold mbind at 1, M_bind at 1.
  destruct (next c) as [[[]|] c1]; reflexivity.
Qed.


Section Served.

Variable Sum256 : string → string.
Variable url_Parse : string → option http.URL.
Variable URL_String : http.URL → string.
Variable NewRequest : string → string → option http.URL.
Variable trailingSlash : http.Request → option Response.

Lemma serve_eq srv req e w :
  main.redirected trailingSlash req = None →
  http.Method req ≠ "OPTIONS" →
  main.serve Sum256 url_Parse URL_String NewRequest trailingSlash srv req e w =
  match main.handlerFor Sum256 url_Parse URL_String NewRequest srv (http.Method req)
          (http.URL_Path req) (entry (config.CORS (main.cfg srv)) (fresh req e w)) with
  | (Some _, c1) => set_world (add_Log (access_record (fresh req e w) c1)) c1
  | (None, c1) => (AbortWithStatus 500 c1).2
  end.
Proof.
  intros Hn Hm. unfold main.serve. fold (fresh req e w).
  rewrite (ServeHTTP_eq _ _ _ _ _ _ (fresh req e w) Hn).
  unfold Recovery. rewrite Logger_eq, RequestID_eq, CORS_eq.
  change (http.Method (Request (with_request_id (fresh req e w)))) with (http.Method req).
  destruct (decide _) as [|_]; [done|].
  rewrite SecurityHeaders_eq.
  change (Request (fresh req e w)) with req. unfold entry.
  destruct (main.handlerFor _ _ _ _ _ _ _ _) as [[[]|] c1]; reflexivity.
Qed.

Lemma serve_preflight srv req e w :
  http.Method req = "OPTIONS" →
  main.serve Sum256 url_Parse URL_String NewRequest trailingSlash srv req e w =
  let c1 := (AbortWithStatus 204
               (with_cors (config.CORS (main.cfg srv)) (with_request_id (fresh req e w)))).2 in
  set_world (add_Log (access_record (fresh req e w) c1)) c1.
Proof.
  intros Hm. unfold main.serve. fold (fresh req e w).
  rewrite (ServeHTTP_eq _ _ _ _ _ _ (fresh req e w) (redirected_options trailingSlash req Hm)).
  unfold Recovery. rewrite Logger_eq, RequestID_eq, CORS_eq.
  change (http.Method (Request (with_request_id (fresh req e w)))) with (http.Method req).
  destruct (decide _) as [_|]; [|done].
  rewrite (surjective_pairing (AbortWithStatus 204 _)).
  unfold AbortWithStatus at 1. rewrite (write_outcome 204) by (unfold accepted; lia).
  reflexivity.
Qed.

End Served.
(** ** Handlers return *)

Lemma JSON_outcome code obj c : accepted code → (JSON code obj c).1 = Some tt.
Proof. intros H. rewrite JSON_eq. by apply write_outcome. Qed.

Lemma log_JSON_outcome l m kv code obj c :
  accepted code → ((log l m kv;; JSON code obj) c).1 = Some tt.
Proof. intros H. rewrite log_then. by apply JSON_outcome. Qed.

Ltac literal_code := unfold accepted; lia.

(** [relay] returns unless [net/http] refuses the backend's code. *)
Lemma relay_total target c :
  writable (env c) → (proxy.relay target (Backend (env c)) c).1 = Some tt.
Proof.
  intros Hw. destruct (Backend (env c)) as [resp|] eqn:Hb;
    [|apply log_JSON_outcome; literal_code].
  destruct (http.RespBody resp) as [body|] eqn:Hr.
  - rewrite (relay_answer target resp body c Hr), Data_eq. unfold write.
    destruct (Written _); [reflexivity|]. cbv zeta.
    assert (refused_code (if decide (0 < http.StatusCode resp)
                          then http.StatusCode resp else 200) = false) as ->;
      [|reflexivity].
    destruct (Hw resp body Hb Hr) as [H | H];
      (destruct (decide _); [|reflexivity]); unfold refused_code;
      apply orb_false_intro; apply Z.ltb_ge; lia.
  - unfold proxy.relay. rewrite Hr. apply log_JSON_outcome; literal_code.
Qed.

Lemma emit_cases d next c :
  ∃ c1, same_request c c1 ∧ Keys c1 = Keys c ∧ Request c1 = Request c ∧
        Clients (world c1) = Clients (world c) ∧ Store (world c1) = Store (world c) ∧
        middleware.emit d next c =
          if middleware.proceed d then next c1
          else AbortWithStatusJSON 429 middleware.rate_limit_exceeded c1.
Proof.
  unfold middleware.emit.
  assert (Hh : ∀ l c, ∃ c1,
            foldr (λ kv rest, Header kv.1 kv.2;; rest) (mret tt) l c = (Some tt, c1) ∧
            same_request c c1 ∧ Keys c1 = Keys c ∧ Request c1 = Request c ∧
            world c1 = world c).
  { induction l as [|kv l IH]; intros c0.
    - exists c0. unfold same_request. split_and!; reflexivity.
    - cbn [foldr]. unfold mbind at 1, M_bind at 1, Header at 1, modify at 1. cbv beta iota.
      destruct (IH (set_WHeader (λ h, setHeader h kv.1 kv.2) c0))
        as (c1 & -> & Hs & Hk & Hr & Hw).
      exists c1. split; [reflexivity|]. split_and!; done. }
  destruct (Hh (middleware.headers d) c) as (c1 & He & Hs & Hk & Hr & Hw).
  exists c1. split_and!; try done; try (by rewrite Hw).
  unfold mbind at 1, M_bind at 1. rewrite He. by destruct (middleware.proceed d).
Qed.

Section Total.

Variable Sum256 : string → string.
Variable url_Parse : string → option http.URL.
Variable URL_String : http.URL → string.
Variable NewRequest : string → string → option http.URL.

Lemma RateLimiterRedis_eq R W next c :
  middleware.RateLimiterRedis R W next c =
  middleware.emit
    (middleware.redis_decide R W
       (middleware.pipeline_Exec (RedisFails (env c)) ("rate_limit:" +:+ ClientIP (env c))
          W (Now (env c)) (Store (world c))).2)
    next
    (set_world (set_Store (λ _,
       (middleware.pipeline_Exec (RedisFails (env c)) ("rate_limit:" +:+ ClientIP (env c))
          W (Now (env c)) (Store (world c))).1)) c).
Proof.
  unfold middleware.RateLimiterRedis.
  repeat (unfold mbind at 1, M_bind at 1, gets at 1; cbv beta iota).
  destruct (middleware.pipeline_Exec _ _ _ _ _) as [store' res]. reflexivity.
Qed.

Lemma RateLimiterMemory_eq R next c :
  middleware.RateLimiterMemory R next c =
  middleware.emit
    (middleware.memory_step R (ClientIP (env c)) (Now (env c)) (Clients (world c))).2
    next
    (set_world (set_Clients (λ _,
       (middleware.memory_step R (ClientIP (env c)) (Now (env c)) (Clients (world c))).1)) c).
Proof.
  unfold middleware.RateLimiterMemory.
  repeat (unfold mbind at 1, M_bind at 1, gets at 1; cbv beta iota).
  destruct (middleware.memory_step _ _ _ _) as [clients' d]. reflexivity.
Qed.

Lemma limiter_cases srv next c :
  ∃ c1, same_request c c1 ∧ Keys c1 = Keys c ∧ Request c1 = Request c ∧
        (main.limiter srv next c = next c1 ∨
         main.limiter srv next c
           = AbortWithStatusJSON 429 middleware.rate_limit_exceeded c1).
Proof.
  unfold main.limiter. destruct (main.redisClient srv).
  - rewrite RateLimiterRedis_eq.
    match goal with |- context [middleware.emit ?d next ?c0] =>
      destruct (emit_cases d next c0) as (c1 & Hs & Hk & Hr & _ & _ & ->) end.
    exists c1. split; [|split; [exact Hk|split; [exact Hr|]]].
    { unfold same_request in *. cbn in Hs. exact Hs. }
    destruct (middleware.proceed _); auto.
  - rewrite RateLimiterMemory_eq.
    match goal with |- context [middleware.emit ?d next ?c0] =>
      destruct (emit_cases d next c0) as (c1 & Hs & Hk & Hr & _ & _ & ->) end.
    exists c1. split; [|split; [exact Hk|split; [exact Hr|]]].
    { unfold same_request in *. cbn in Hs. exact Hs. }
    destruct (middleware.proceed _); auto.
Qed.

Lemma AuthRequired_cases secret next c :
  (∃ message, middleware.AuthRequired secret next c
              = AbortWithStatusJSON 401 (middleware.unauthorized message) c) ∨
  middleware.AuthRequired secret next c = next (as_zero_user c).
Proof.
  destruct (decide (http.Get (http.ReqHeader (Request c)) "Authorization" = EmptyString))
    as [He|Hne].
  { left. eexists. by apply AuthRequired_missing. }
  destruct (strs.SplitN (http.Get (http.ReqHeader (Request c)) "Authorization") " "%char 2)
    as [|scheme [|token [|]]] eqn:Hs;
    try (left; eexists; apply AuthRequired_malformed; [done|]; intros ? ?; congruence).
  destruct (decide (strs.ToLower scheme = "bearer")) as [Hb|Hb].
  - destruct (decide (length (strs.Split token "."%char) = 3%nat)) as [Hl|Hl].
    + right. by apply (AuthRequired_accepts secret next c scheme token).
    + left. eexists. by apply (AuthRequired_segments secret next c scheme token).
  - left. eexists. apply AuthRequired_malformed; [done|].
    intros s t. rewrite Hs. intros [= <- <-]. exact Hb.
Qed.

Lemma APIKeyOrJWTAuth_eq secret next c :
  middleware.APIKeyOrJWTAuth Sum256 secret next c =
  let reject :=
    AbortWithStatusJSON 401
      (middleware.unauthorized "API key or valid JWT token required") c in
  let authHeader := http.Get (http.ReqHeader (Request c)) "Authorization" in
  if decide (http.Get (http.ReqHeader (Request c)) "X-API-Key" ≠ EmptyString)
  then next (with_api_key Sum256 c)
  else if decide (authHeader ≠ EmptyString) then
    match strs.SplitN authHeader " "%char 2 with
    | [scheme; token] =>
        if decide (strs.ToLower scheme = "bearer") then
          if decide (length (strs.Split token "."%char) ≠ 3%nat) then reject
          else next (as_jwt_user c)
        else reject
    | _ => reject
    end
  else reject.
Proof.
  cbv zeta. unfold middleware.APIKeyOrJWTAuth, GetHeader.
  unfold mbind at 1, M_bind at 1, gets at 1. cbv beta iota.
  destruct (decide _); [reflexivity|].
  unfold mbind at 1, M_bind at 1, gets at 1. cbv beta iota.
  destruct (decide _); [|reflexivity].
  destruct (strs.SplitN _ _ _) as [|scheme [|token [|]]]; try reflexivity.
  destruct (decide _); [|reflexivity].
  unfold middleware.validateJWT. destruct (decide _); reflexivity.
Qed.

Lemma APIKeyOrJWTAuth_cases secret next c :
  middleware.APIKeyOrJWTAuth Sum256 secret next c
    = AbortWithStatusJSON 401
        (middleware.unauthorized "API key or valid JWT token required") c ∨
  middleware.APIKeyOrJWTAuth Sum256 secret next c = next (with_api_key Sum256 c) ∨
  middleware.APIKeyOrJWTAuth Sum256 secret next c = next (as_jwt_user c).
Proof.
  rewrite APIKeyOrJWTAuth_eq. cbv zeta.
  destruct (decide _); [by right; left|].
  destruct (decide _); [|by left].
  destruct (strs.SplitN _ _ _) as [|scheme [|token [|]]]; try (by left).
  destruct (decide _); [|by left].
  destruct (decide _); [by left|]. by right; right.
Qed.

End Total.


Lemma typed_keys_same c c1 : Keys c1 = Keys c → typed_keys c → typed_keys c1.
Proof. unfold typed_keys. by intros ->. Qed.

Lemma typed_as_zero_user c : typed_keys c → typed_keys (as_zero_user c).
Proof.
  unfold typed_keys, as_zero_user. cbn [Keys set_Request set_Keys].
  intros (_ & _ & H). split_and!.
  - rewrite lookup_insert_ne by done. by rewrite lookup_insert_eq.
  - by rewrite lookup_insert_eq.
  - by rewrite !lookup_insert_ne by done.
Qed.

Lemma typed_as_jwt_user c : typed_keys c → typed_keys (as_jwt_user c).
Proof.
  unfold typed_keys, as_jwt_user. cbn [Keys set_Request set_Keys].
  intros (_ & _ & H). split_and!.
  - rewrite !lookup_insert_ne by done. by rewrite lookup_insert_eq.
  - rewrite lookup_insert_ne by done. by rewrite lookup_insert_eq.
  - by rewrite !lookup_insert_ne by done.
Qed.

Lemma typed_with_api_key Sum256 c : typed_keys c → typed_keys (with_api_key Sum256 c).
Proof.
  unfold typed_keys, with_api_key. cbn [Keys set_Request set_Keys].
  intros (H1 & H2 & _). split_and!.
  - by rewrite !lookup_insert_ne by done.
  - by rewrite !lookup_insert_ne by done.
  - rewrite lookup_insert_ne by done. by rewrite lookup_insert_eq.
Qed.

Lemma typed_entry cfg req e w : typed_keys (entry cfg (fresh req e w)).
Proof.
  unfold typed_keys, entry.
  assert (Hk : Keys (with_security (with_cors cfg (with_request_id (fresh req e w))))
               = <["request_id" := VString (request_id_of (fresh req e w))]> ∅).
  { unfold with_security. cbv zeta.
    destruct (GinMode _); cbn [Keys set_WHeader];
      by rewrite (proj1 (proj2 (with_cors_frame cfg _))). }
  rewrite Hk. rewrite !lookup_insert_ne by done. rewrite !lookup_empty. done.
Qed.

Section Returns.

Variable Sum256 : string → string.
Variable url_Parse : string → option http.URL.
Variable URL_String : http.URL → string.
Variable NewRequest : string → string → option http.URL.

Lemma ProxyRequest_total p path :
  never_panics (proxy.ProxyRequest url_Parse URL_String NewRequest p path).
Proof.
  intros c Ht Hw. rewrite ProxyRequest_unfold.
  destruct (url_Parse _); [|apply log_JSON_outcome; literal_code].
  destruct (read_body c).2; [apply log_JSON_outcome; literal_code|].
  destruct (NewRequest _ _); [|apply log_JSON_outcome; literal_code].
  rewrite (dispatch_typed _ _ _ _ Ht).
  apply (relay_total _ (set_world (add_Sent (upstream_request _ c)) (announced _ path c))).
  exact Hw.
Qed.

Lemma forward_total srv b :
  never_panics (main.forward url_Parse URL_String NewRequest srv b).
Proof.
  intros c Ht Hw. rewrite forward_eq. apply ProxyRequest_total.
  - by apply (typed_keys_same c).
  - exact Hw.
Qed.

Lemma guard_total srv p next :
  never_panics next → never_panics (chain (main.guard Sum256 srv p) next).
Proof.
  intros Hn c Ht Hw. destruct p; cbn [main.guard chain foldr].
  - by apply Hn.
  - destruct (AuthRequired_cases (config.Secret (config.JWT (main.cfg srv))) next c)
      as [[m ->] | ->]; [apply JSON_outcome; literal_code|].
    apply Hn; [by apply typed_as_zero_user | exact Hw].
  - destruct (APIKeyOrJWTAuth_cases Sum256 (config.Secret (config.JWT (main.cfg srv))) next c)
      as [-> | [-> | ->]]; [apply JSON_outcome; literal_code| |].
    + apply Hn; [by apply typed_with_api_key | exact Hw].
    + apply Hn; [by apply typed_as_jwt_user | exact Hw].
Qed.

Lemma limiter_total srv next :
  never_panics next → never_panics (main.limiter srv next).
Proof.
  intros Hn c Ht Hw.
  destruct (limiter_cases srv next c) as (c1 & (He & _) & Hk & _ & [-> | ->]);
    [|apply JSON_outcome; literal_code].
  apply Hn; [by apply (typed_keys_same c) | by rewrite He].
Qed.

Lemma routeChain_total srv r :
  never_panics (main.routeChain Sum256 url_Parse URL_String NewRequest srv r).
Proof.
  unfold main.routeChain.
  change (chain (main.limiter srv :: main.guard Sum256 srv (main.auth r))
            (main.forward url_Parse URL_String NewRequest srv (main.backend r)))
    with (main.limiter srv (chain (main.guard Sum256 srv (main.auth r))
            (main.forward url_Parse URL_String NewRequest srv (main.backend r)))).
  apply limiter_total, guard_total, forward_total.
Qed.

Lemma handlerFor_total srv method path :
  never_panics (main.handlerFor Sum256 url_Parse URL_String NewRequest srv method path).
Proof.
  intros c Ht Hw. unfold main.handlerFor.
  destruct (decide _); [apply JSON_outcome; literal_code|].
  destruct (main.lookup method path); [by apply routeChain_total|].
  apply (write_outcome 404 _ (set_WHeader (λ h, <["Content-Type" := ["text/plain"]]> h) c)).
  literal_code.
Qed.

End Returns.
(** ** What the handlers of a route keep of the context *)

Section KeptMore.

Context (Ph Pk : string → Prop).

Lemma change_request c c' :
  change Ph Pk c c' →
  env c' = env c ∧ http.Method (Request c') = http.Method (Request c) ∧
  http.URL_Path (Request c') = http.URL_Path (Request c) ∧
  http.URL_RawQuery (Request c') = http.URL_RawQuery (Request c) ∧
  (∀ k, ¬ Pk k → Keys c' !! k = Keys c !! k) ∧
  ∃ new, Log (world c') = Log (world c) ++ new.
Proof.
  assert (Hnil : ∀ l : list LogRecord, ∃ new, l = l ++ new)
    by (intros l; exists []; by rewrite app_nil_r).
  destruct 1 as [ | | | c code body | | | | | | ];
    [ | | |destruct (write_frame code body c) as (-> & -> & -> & -> & _);
           split_and!; try done; apply Hnil| | | | | | ];
    unfold writeContentType, log, modify; cbn; split_and!;
    try done; try apply Hnil;
    try (intros k' Hk; rewrite lookup_insert_ne; [done|]; by intros <-);
    try (eexists; reflexivity).
Qed.

Lemma rtc_request c c' :
  rtc (change Ph Pk) c c' →
  env c' = env c ∧ http.Method (Request c') = http.Method (Request c) ∧
  http.URL_Path (Request c') = http.URL_Path (Request c) ∧
  http.URL_RawQuery (Request c') = http.URL_RawQuery (Request c) ∧
  (∀ k, ¬ Pk k → Keys c' !! k = Keys c !! k) ∧
  ∃ new, Log (world c') = Log (world c) ++ new.
Proof.
  induction 1 as [c|c c1 c2 H1 _ IH].
  - split_and!; try done. exists []. by rewrite app_nil_r.
  - destruct (change_request _ _ H1) as (E1 & M1 & P1 & Q1 & K1 & n1 & L1).
    destruct IH as (E2 & M2 & P2 & Q2 & K2 & n2 & L2).
    split_and!; try congruence.
    + intros k Hk. by rewrite K2, K1.
    + exists (n1 ++ n2). by rewrite L2, L1, app_assoc.
Qed.

End KeptMore.


Lemma entry_frame cfg c :
  env (entry cfg c) = env c ∧ Request (entry cfg c) = Request c ∧
  world (entry cfg c) = world c ∧ Written (entry cfg c) = Written c ∧
  Keys (entry cfg c) = <["request_id" := VString (request_id_of c)]> (Keys c).
Proof.
  unfold entry.
  destruct (with_cors_frame cfg (with_request_id c)) as (Hw & Hk & Hwd & He & Hr).
  unfold with_security. cbv zeta.
  destruct (GinMode _); cbn [env Request world Written Keys set_WHeader];
    rewrite ?Hw, ?Hk, ?Hwd, ?He, ?Hr; split_and!; reflexivity.
Qed.

Section AccessLog.

Variable Sum256 : string → string.
Variable url_Parse : string → option http.URL.
Variable URL_String : http.URL → string.
Variable NewRequest : string → string → option http.URL.
Variable trailingSlash : http.Request → option Response.

(** Below [Recovery], a request that is not an OPTIONS request is served by
    the handlers of its route, which return, and [Logger] adds its record. *)
Lemma serve_handled srv req e w :
  main.redirected trailingSlash req = None →
  http.Method req ≠ "OPTIONS" →
  writable e →
  main.serve Sum256 url_Parse URL_String NewRequest trailingSlash srv req e w =
  let c1 := (main.handlerFor Sum256 url_Parse URL_String NewRequest srv (http.Method req)
               (http.URL_Path req)
               (entry (config.CORS (main.cfg srv)) (fresh req e w))).2 in
  set_world (add_Log (access_record (fresh req e w) c1)) c1.
Proof.
  intros Hn Hm Hw. rewrite (serve_eq _ _ _ _ _ _ _ _ _ Hn Hm). cbv zeta.
  pose proof (handlerFor_total Sum256 url_Parse URL_String NewRequest srv (http.Method req)
                (http.URL_Path req) _
                (typed_entry (config.CORS (main.cfg srv)) req e w)) as Ht.
  destruct (entry_frame (config.CORS (main.cfg srv)) (fresh req e w)) as (He & _).
  rewrite He in Ht. specialize (Ht Hw).
  destruct (main.handlerFor _ _ _ _ _ _ _ _) as [[[]|] c1]; [reflexivity|discriminate Ht].
Qed.



(** X2: when the code of the backend's answer is one the response writer
    passes on, the last record in the log after a request has been served
    is [Logger]'s: at info level, with the method, path and query of the
    request, the status the writer holds, the client address and the
    request id the response carries.  The status the writer holds is the
    status of the response whenever it is one that ends a header. *)
Theorem access_record_logged (srv : main.Server) (req : http.Request) (e : Env) (w : World) :
  main.redirected trailingSlash req = None →
  writable e →
  let c' := main.serve Sum256 url_Parse URL_String NewRequest trailingSlash srv req e w in
  let status := match Written c' with Some r => Status r | None => 200 end in
  (final_code status = true → Status (response c') = status) ∧
  ∃ before,
    Log (world c') = Log w ++ before ++
      [{| time := Now e; level := InfoLevel; msg := "HTTP Request";
          fields :=
            [("method", VString (http.Method req));
             ("path", VString (http.URL_Path req));
             ("query", VString (http.URL_RawQuery req));
             ("status", VInt status);
             ("latency", VDuration (Elapsed e));
             ("client_ip", VString (ClientIP e));
             ("request_id", VString (request_id_of (fresh req e w)))] |}].
Proof.
  intros Hn Hw. cbv zeta. split.
  { unfold response. destruct (Written _) as [r|]; [|done]. by intros ->. }
  destruct (decide (http.Method req = "OPTIONS")) as [Hm|Hm].
  - rewrite (serve_preflight _ _ _ _ _ _ _ _ _ Hm). cbv zeta.
    exists []. unfold AbortWithStatus.
    destruct (with_cors_frame (config.CORS (main.cfg srv)) (with_request_id (fresh req e w)))
      as (Hw' & Hk & Hwd & He & Hr).
    set (c0 := with_cors _ _) in *.
    destruct (write_frame 204 NoBody c0) as (He1 & Hr1 & Hk1 & Hw1 & _).
    cbv zeta in He1, Hr1, Hk1, Hw1.
    unfold access_record.
    cbn [world set_world add_Log Log Written env Request Keys Status].
    rewrite He1, Hr1, Hk1, Hw1, Hwd, He, Hr, Hk.
    cbn [world env Request Keys with_request_id set_WHeader set_Keys fresh Log].
    rewrite lookup_insert_eq. reflexivity.
  - rewrite (serve_handled _ _ _ _ Hn Hm Hw). cbv zeta.
    set (c0 := entry (config.CORS (main.cfg srv)) (fresh req e w)).
    set (c1 := (main.handlerFor _ _ _ _ _ _ _ c0).2).
    destruct (entry_frame (config.CORS (main.cfg srv)) (fresh req e w))
      as (He0 & Hr0 & Hw0 & _ & Hk0). fold c0 in He0, Hr0, Hw0, Hk0.
    assert (Hrtc : rtc (change (λ _, True) (λ n, n ≠ "request_id")) c0 c1).
    { apply (fp_handlerFor (λ _, True) (λ n, n ≠ "request_id")).
      - by apply Forall_true.
      - repeat constructor; discriminate. }
    destruct (rtc_request _ _ _ _ Hrtc) as (He & Hm1 & _ & _ & Hk & new & Hl).
    exists new. unfold access_record.
    cbn [world set_world add_Log Log Written env Request Keys Status].
    rewrite Hl, He, Hm1, He0, Hr0, Hw0, (Hk "request_id") by (intros H; by apply H).
    rewrite Hk0, lookup_insert_eq.
    cbn [world env Request fresh]. rewrite <- app_assoc.
    reflexivity.
Qed.

End AccessLog.


Lemma access_record_logged_witness :
  let c' := demo.run demo.tagged (demo.at_ 5 None) in
  let status := match Written c' with Some r => Status r | None => 200 end in
  (final_code status = true → Status (response c') = status) ∧
  ∃ before,
    Log (world c') = Log demo.world0 ++ before ++
      [{| time := Now (demo.at_ 5 None); level := InfoLevel; msg := "HTTP Request";
          fields :=
            [("method", VString (http.Method demo.tagged));
             ("path", VString (http.URL_Path demo.tagged));
             ("query", VString (http.URL_RawQuery demo.tagged));
             ("status", VInt status);
             ("latency", VDuration (Elapsed (demo.at_ 5 None)));
             ("client_ip", VString (ClientIP (demo.at_ 5 None)));
             ("request_id",
              VString (request_id_of (fresh demo.tagged (demo.at_ 5 None) demo.world0)))] |}].
Proof.
  apply (access_record_logged demo.Sum256 demo.parse demo.String_ demo.NewRequest demo.redirect
           demo.server demo.tagged (demo.at_ 5 None) demo.world0).
  - vm_compute. reflexivity.
  - intros resp body Hb. discriminate Hb.
Defined.
(** ** Routes *)

Lemma lookup_route method path r :
  main.lookup method path = Some r →
  r ∈ main.routes ∧ main.verb r = method ∧ main.path_matches (main.fullPath r) path = true.
Proof.
  unfold main.lookup. intros H.
  apply fmap_Some in H as ([i r'] & Hf & ->).
  apply list_find_Some in Hf as (Hi & (Hv & Hm) & _).
  apply list_elem_of_lookup_2 in Hi. done.
Qed.

Lemma lookup_not_options method path r :
  main.lookup method path = Some r → method ≠ "OPTIONS".
Proof.
  intros H. destruct (lookup_route _ _ _ H) as (Hin & <- & _).
  unfold main.routes in Hin.
  repeat (apply elem_of_cons in Hin as [-> | Hin]; [discriminate|]).
  by apply elem_of_nil in Hin.
Qed.

Lemma lookup_not_health method path r :
  main.lookup method path = Some r → ¬ (method = "GET" ∧ path = "/health").
Proof.
  intros H [_ ->]. apply lookup_under_v1 in H. discriminate H.
Qed.

Lemma redirected_routed trailingSlash req :
  main.routed (http.Method req) (http.URL_Path req) = true →
  main.redirected trailingSlash req = None.
Proof. intros H. unfold main.redirected. by rewrite H. Qed.

Lemma lookup_routed method path r :
  main.lookup method path = Some r → main.routed method path = true.
Proof. intros H. unfold main.routed. rewrite H. apply orb_true_r. Qed.

Ltac not_listed :=
  let H := fresh in
  intros H; repeat (apply elem_of_cons in H as [H | H]; [discriminate H|]);
  by apply elem_of_nil in H.

Lemma entry_lookup cfg c k :
  k ∉ cors_names → k ∉ security_names → k ≠ "X-Request-Id" →
  WHeader (entry cfg c) !! k = WHeader c !! k.
Proof.
  intros Hc Hs Hr. unfold entry.
  assert (Hsec : ∀ c0, WHeader (with_security c0) !! k = WHeader c0 !! k).
  { intros c0. unfold security_names in Hs.
    repeat (apply not_elem_of_cons in Hs as [? Hs]).
    unfold with_security. cbv zeta.
    destruct (GinMode _); cbn [WHeader set_WHeader];
      rewrite !setHeader_lookup_ne by (vm_compute; congruence); reflexivity. }
  rewrite Hsec, (with_cors_lookup _ _ _ Hc).
  unfold with_request_id. cbn [WHeader set_WHeader set_Keys].
  rewrite setHeader_lookup_ne by (vm_compute; congruence). reflexivity.
Qed.

Section Endpoints.

Variable Sum256 : string → string.
Variable url_Parse : string → option http.URL.
Variable URL_String : http.URL → string.
Variable NewRequest : string → string → option http.URL.
Variable trailingSlash : http.Request → option Response.

Lemma handlerFor_route srv method path r c :
  main.lookup method path = Some r →
  main.handlerFor Sum256 url_Parse URL_String NewRequest srv method path c
  = main.routeChain Sum256 url_Parse URL_String NewRequest srv r c.
Proof.
  intros H. unfold main.handlerFor.
  destruct (decide _) as [Hh|_]; [by destruct (lookup_not_health _ _ _ H)|].
  by rewrite H.
Qed.

Lemma served_parts srv req e w :
  main.redirected trailingSlash req = None →
  http.Method req ≠ "OPTIONS" →
  let c' := main.serve Sum256 url_Parse URL_String NewRequest trailingSlash srv req e w in
  let c1 := (main.handlerFor Sum256 url_Parse URL_String NewRequest srv (http.Method req)
               (http.URL_Path req)
               (entry (config.CORS (main.cfg srv)) (fresh req e w))).2 in
  ((main.handlerFor Sum256 url_Parse URL_String NewRequest srv (http.Method req)
      (http.URL_Path req)
      (entry (config.CORS (main.cfg srv)) (fresh req e w))).1 = Some tt →
   response c' = response c1) ∧
  Clients (world c') = Clients (world c1) ∧
  Store (world c') = Store (world c1) ∧ Sent (world c') = Sent (world c1).
Proof.
  intros Hn Hm. cbv zeta. rewrite (serve_eq _ _ _ _ _ _ _ _ _ Hn Hm).
  destruct (main.handlerFor _ _ _ _ _ _ _ _) as [[[]|] c1]; cbn [fst snd].
  - split_and!; reflexivity.
  - unfold AbortWithStatus.
    destruct (write_frame 500 NoBody c1) as (_ & _ & _ & -> & _).
    split_and!; [discriminate|reflexivity..].
Qed.

Lemma JSON_content_type code obj c :
  Written c = None → WHeader c !! "Content-Type" = None →
  Header_ (response (JSON code obj c).2) !! "Content-Type"
  = Some ["application/json; charset=utf-8"].
Proof.
  intros Hw Hc. rewrite JSON_eq, write_header by exact Hw.
  unfold writeContentType, modify. cbn [snd WHeader set_WHeader].
  rewrite Hc. by rewrite lookup_insert_eq.
Qed.

Lemma health_eq c :
  main.health c
  = JSON 200 [("service", VString "gateway"); ("status", VString "healthy");
              ("time", VTime (Now (env c)))] c.
Proof. reflexivity. Qed.

Lemma entry_no_content_type cfg req e w :
  WHeader (entry cfg (fresh req e w)) !! "Content-Type" = None.
Proof.
  rewrite entry_lookup; [apply lookup_empty| | |discriminate].
  - unfold cors_names. not_listed.
  - unfold security_names. not_listed.
Qed.

(** X3: [GET /health] is answered 200 with the JSON status object by the
    gateway itself: no limiter counts the request, no credentials are asked
    for and no backend is called. *)
Theorem health_answered (srv : main.Server) (req : http.Request) (e : Env) (w : World) :
  http.Method req = "GET" → http.URL_Path req = "/health" →
  let c' := main.serve Sum256 url_Parse URL_String NewRequest trailingSlash srv req e w in
  Status (response c') = 200 ∧
  RBody (response c')
    = JSONBody [("service", VString "gateway"); ("status", VString "healthy");
                ("time", VTime (Now e))] ∧
  Header_ (response c') !! "Content-Type" = Some ["application/json; charset=utf-8"] ∧
  Clients (world c') = Clients w ∧ Store (world c') = Store w ∧
  Sent (world c') = Sent w.
Proof.
  intros Hm Hp. cbv zeta.
  assert (Hn : main.redirected trailingSlash req = None).
  { apply redirected_routed. unfold main.routed. rewrite Hm, Hp. reflexivity. }
  destruct (served_parts srv req e w Hn) as (Hresp & -> & -> & ->);
    [rewrite Hm; discriminate|].
  revert Hresp. rewrite Hm, Hp. unfold main.handlerFor.
  destruct (decide _) as [_|Hd]; [|by destruct Hd].
  set (c0 := entry (config.CORS (main.cfg srv)) (fresh req e w)).
  intros Hresp. rewrite Hresp by (apply JSON_outcome; unfold accepted; lia).
  clear Hresp.
  destruct (entry_frame (config.CORS (main.cfg srv)) (fresh req e w))
    as (He0 & Hr0 & Hw0 & Hwr0 & Hk0). fold c0 in He0, Hr0, Hw0, Hwr0, Hk0.
  rewrite health_eq.
  destruct (JSON_frame 200 [("service", VString "gateway"); ("status", VString "healthy");
                            ("time", VTime (Now (env c0)))] c0) as (_ & _ & _ & Hwd).
  rewrite Hwd, Hw0.
  rewrite (JSON_status _ _ _ Hwr0), (JSON_body _ _ _ Hwr0), He0 by reflexivity.
  split_and!; try reflexivity.
  apply JSON_content_type; [exact Hwr0|]. apply entry_no_content_type.
Qed.

(** X4: a request that matches no route (and that the engine does not
    redirect) is answered 404 by the engine's default handler, after the
    global middlewares; nothing is counted by a limiter and no backend is
    called. *)
Theorem unknown_route_not_found (srv : main.Server) (req : http.Request)
    (e : Env) (w : World) :
  main.routed (http.Method req) (http.URL_Path req) = false →
  main.redirected trailingSlash req = None →
  http.Method req ≠ "OPTIONS" →
  let c' := main.serve Sum256 url_Parse URL_String NewRequest trailingSlash srv req e w in
  Status (response c') = 404 ∧
  RBody (response c') = DataBody "404 page not found" ∧
  Header_ (response c') !! "Content-Type" = Some ["text/plain"] ∧
  Clients (world c') = Clients w ∧ Store (world c') = Store w ∧
  Sent (world c') = Sent w.
Proof.
  intros Hr Hn Hm. cbv zeta.
  destruct (served_parts srv req e w Hn Hm) as (Hresp & -> & -> & ->).
  revert Hresp.
  unfold main.routed in Hr. apply orb_false_elim in Hr as [Hh Hl].
  unfold main.handlerFor.
  destruct (decide _) as [Hd|_].
  { apply bool_decide_eq_false in Hh. by destruct Hh. }
  destruct (main.lookup _ _); [discriminate Hl|].
  set (c0 := entry (config.CORS (main.cfg srv)) (fresh req e w)).
  destruct (entry_frame (config.CORS (main.cfg srv)) (fresh req e w))
    as (He0 & Hr0 & Hw0 & Hwr0 & Hk0). fold c0 in He0, Hr0, Hw0, Hwr0, Hk0.
  set (c1 := set_WHeader (λ h, <["Content-Type" := ["text/plain"]]> h) c0).
  change (main.notFound c0) with (write 404 (DataBody "404 page not found") c1).
  destruct (write_response 404 (DataBody "404 page not found") c1 Hwr0 eq_refl)
    as [Ho Hresp'].
  destruct (write_frame 404 (DataBody "404 page not found") c1) as (_ & _ & _ & Hwd & _).
  intros Hresp. rewrite (Hresp Ho), Hresp', Hwd. cbn [Status RBody Header_].
  change (world c1) with (world c0). rewrite Hw0. cbn [world fresh].
  split_and!; try reflexivity.
  unfold c1. cbn [WHeader set_WHeader]. by rewrite lookup_insert_eq.
Qed.

End Endpoints.

Lemma health_answered_witness :
  Status (response (demo.run sample.probe (demo.at_ 5 None))) = 200.
Proof.
  apply (health_answered demo.Sum256 demo.parse demo.String_ demo.NewRequest demo.redirect
           demo.server sample.probe (demo.at_ 5 None) demo.world0); reflexivity.
Defined.

Lemma unknown_route_not_found_witness :
  Status (response (demo.run sample.nowhere (demo.at_ 5 None))) = 404.
Proof.
  apply (unknown_route_not_found demo.Sum256 demo.parse demo.String_ demo.NewRequest demo.redirect
           demo.server sample.nowhere (demo.at_ 5 None) demo.world0).
  - vm_compute. reflexivity.
  - vm_compute. reflexivity.
  - discriminate.
Defined.
(** ** CORS *)

Lemma allowed_origin_spec (origins : list string) origin :
  existsb (λ allowedOrigin,
             bool_decide (allowedOrigin = "*") || bool_decide (allowedOrigin = origin))
          origins = true
  ↔ "*" ∈ origins ∨ origin ∈ origins.
Proof.
  rewrite existsb_exists. split.
  - intros (x & Hin & Hx). apply list_elem_of_In in Hin.
    apply orb_true_iff in Hx as [Hx | Hx]; apply bool_decide_eq_true in Hx; subst; auto.
  - intros [H | H]; apply list_elem_of_In in H; eexists; (split; [exact H|]).
    + reflexivity.
    + rewrite (bool_decide_eq_true_2 (origin = origin)) by done. apply orb_true_r.
Qed.

Lemma with_security_lookup c k :
  k ∉ security_names → WHeader (with_security c) !! k = WHeader c !! k.
Proof.
  intros Hs. unfold security_names in Hs.
  repeat (apply not_elem_of_cons in Hs as [? Hs]).
  unfold with_security. cbv zeta.
  destruct (GinMode _); cbn [WHeader set_WHeader];
    rewrite !setHeader_lookup_ne by (vm_compute; congruence); reflexivity.
Qed.

Lemma with_cors_origin cfg c :
  WHeader c !! "Access-Control-Allow-Origin" = None →
  let origin := http.Get (http.ReqHeader (Request c)) "Origin" in
  (origin ≠ EmptyString ∧
   ("*" ∈ config.AllowedOrigins cfg ∨ origin ∈ config.AllowedOrigins cfg) →
   WHeader (with_cors cfg c) !! "Access-Control-Allow-Origin" = Some [origin]) ∧
  (¬ (origin ≠ EmptyString ∧
      ("*" ∈ config.AllowedOrigins cfg ∨ origin ∈ config.AllowedOrigins cfg)) →
   WHeader (with_cors cfg c) !! "Access-Control-Allow-Origin" = None).
Proof.
  intros Hnone. cbv zeta. unfold with_cors. cbv zeta.
  cbn [WHeader set_WHeader].
  rewrite !setHeader_lookup_ne by (vm_compute; congruence).
  destruct (existsb _ _) eqn:Ha.
  - apply allowed_origin_spec in Ha.
    destruct (bool_decide (_ ≠ EmptyString)) eqn:Ho; cbn [andb].
    + apply bool_decide_eq_true in Ho. split; [|intros Hn; destruct Hn; done].
      intros _. cbn [WHeader set_WHeader]. by apply setHeader_lookup_eq.
    + apply bool_decide_eq_false in Ho. split; [intros [? _]; done|]. intros _. exact Hnone.
  - cbn [andb]. split; [|intros _; exact Hnone].
    intros [_ Hin]. apply allowed_origin_spec in Hin. congruence.
Qed.

Lemma with_cors_fixed cfg c :
  WHeader (with_cors cfg c) !! "Access-Control-Allow-Credentials" = Some ["true"] ∧
  WHeader (with_cors cfg c) !! "Access-Control-Max-Age" = Some ["86400"].
Proof.
  unfold with_cors. cbv zeta. cbn [WHeader set_WHeader]. split.
  - rewrite setHeader_lookup_ne by (vm_compute; congruence).
    by apply setHeader_lookup_eq.
  - by apply setHeader_lookup_eq.
Qed.


Lemma request_id_no_cors req e w k :
  k ≠ "X-Request-Id" → WHeader (with_request_id (fresh req e w)) !! k = None.
Proof.
  intros H. unfold with_request_id. cbn [WHeader set_WHeader set_Keys fresh].
  rewrite setHeader_lookup_ne by (vm_compute; congruence). apply lookup_empty.
Qed.

Section Cors.

Variable Sum256 : string → string.
Variable url_Parse : string → option http.URL.
Variable URL_String : http.URL → string.
Variable NewRequest : string → string → option http.URL.
Variable trailingSlash : http.Request → option Response.

Lemma served_header srv req e w k o :
  main.redirected trailingSlash req = None →
  k ∉ tail_names → k ∉ security_names →
  relay_clear k e →
  WHeader (with_cors (config.CORS (main.cfg srv)) (with_request_id (fresh req e w))) !! k = o →
  Header_ (response (main.serve Sum256 url_Parse URL_String NewRequest trailingSlash srv req e w))
    !! k = o.
Proof.
  intros Hn Ht Hs Hc Ho.
  destruct (decide (http.Method req = "OPTIONS")) as [Hm|Hm].
  { rewrite (serve_options _ _ _ _ _ srv req e w Hm). exact Ho. }
  pose proof (serve_from_security Sum256 url_Parse URL_String NewRequest trailingSlash
                (λ n, n ≠ k) (λ _, True) srv req e w Hn Hm) as Hr.
  apply (rtc_header _ _ k _ _ _ (λ _ H, H) (Hr ltac:(
    apply Forall_forall; intros n Hin ->; by apply Ht) ltac:(by apply Forall_true))).
  - rewrite (proj2 (with_security_frame _)).
    by destruct (with_cors_frame (config.CORS (main.cfg srv))
                   (with_request_id (fresh req e w))) as (_ & _ & _ & -> & _).
  - unfold header_is, response.
    rewrite (proj1 (with_security_frame _)).
    destruct (with_cors_frame (config.CORS (main.cfg srv))
                (with_request_id (fresh req e w))) as (-> & _).
    cbn [Written with_request_id set_WHeader set_Keys fresh Header_].
    by rewrite with_security_lookup.
Qed.

(** X5: the response names the request's [Origin] in
    [Access-Control-Allow-Origin] exactly when the origin is not empty and
    the configured list holds it or the wildcard, and it always carries
    [Access-Control-Allow-Credentials: true], under the wildcard too
    (provided the backend's relayed answer has no header of these names). *)
Theorem cors_origin_reflected (srv : main.Server) (req : http.Request) (e : Env) (w : World) :
  main.redirected trailingSlash req = None →
  relay_clear "Access-Control-Allow-Origin" e →
  relay_clear "Access-Control-Allow-Credentials" e →
  let r := response (main.serve Sum256 url_Parse URL_String NewRequest trailingSlash srv req e w) in
  let origin := http.Get (http.ReqHeader req) "Origin" in
  let origins := config.AllowedOrigins (config.CORS (main.cfg srv)) in
  let listed := origin ≠ EmptyString ∧ ("*" ∈ origins ∨ origin ∈ origins) in
  (listed → Header_ r !! "Access-Control-Allow-Origin" = Some [origin]) ∧
  (¬ listed → Header_ r !! "Access-Control-Allow-Origin" = None) ∧
  Header_ r !! "Access-Control-Allow-Credentials" = Some ["true"].
Proof.
  intros Hn Ho Hc. cbv zeta.
  destruct (with_cors_origin (config.CORS (main.cfg srv)) (with_request_id (fresh req e w))
              (request_id_no_cors req e w "Access-Control-Allow-Origin" ltac:(discriminate))) as [Hyes Hno].
  split_and!.
  - intros Hl. apply served_header; try done.
    + unfold tail_names, limiter_names. not_listed.
    + unfold security_names. not_listed.
    + by apply Hyes.
  - intros Hl. apply served_header; try done.
    + unfold tail_names, limiter_names. not_listed.
    + unfold security_names. not_listed.
    + by apply Hno.
  - apply served_header; try done.
    + unfold tail_names, limiter_names. not_listed.
    + unfold security_names. not_listed.
    + apply with_cors_fixed.
Qed.

(** X6: a request with method OPTIONS is answered by [CORS] alone, whatever
    its path: 204 without body, with the CORS headers; no limiter counts
    it, no credentials are checked and no backend is called. *)
Theorem preflight_short_circuits (srv : main.Server) (req : http.Request)
    (e : Env) (w : World) :
  http.Method req = "OPTIONS" →
  let c' := main.serve Sum256 url_Parse URL_String NewRequest trailingSlash srv req e w in
  Status (response c') = 204 ∧ RBody (response c') = NoBody ∧
  Header_ (response c') !! "Access-Control-Max-Age" = Some ["86400"] ∧
  Clients (world c') = Clients w ∧ Store (world c') = Store w ∧
  Sent (world c') = Sent w.
Proof.
  intros Hm. cbv zeta.
  rewrite (serve_options _ _ _ _ _ srv req e w Hm). cbn [Status RBody Header_].
  split_and!; try reflexivity; [apply with_cors_fixed|..];
    rewrite (serve_preflight _ _ _ _ _ _ _ _ _ Hm); cbv zeta;
    unfold AbortWithStatus;
    destruct (with_cors_frame (config.CORS (main.cfg srv)) (with_request_id (fresh req e w)))
      as (_ & _ & Hwd & _ & _);
    match goal with |- context [write 204 NoBody ?c0] =>
      destruct (write_frame 204 NoBody c0) as (_ & _ & _ & Hw1 & _) end;
    cbv zeta in Hw1;
    cbn [world set_world add_Log Clients Store Sent];
    rewrite Hw1, Hwd; reflexivity.
Qed.

End Cors.

Lemma cors_origin_reflected_witness :
  Header_ (response (demo.run demo.preflight (demo.at_ 5 None)))
    !! "Access-Control-Allow-Credentials" = Some ["true"].
Proof.
  apply (cors_origin_reflected demo.Sum256 demo.parse demo.String_ demo.NewRequest demo.redirect
           demo.server demo.preflight (demo.at_ 5 None) demo.world0).
  - vm_compute. reflexivity.
  - intros resp Hb. discriminate Hb.
  - intros resp Hb. discriminate Hb.
Defined.

Lemma preflight_short_circuits_witness :
  Status (response (demo.run demo.preflight (demo.at_ 5 None))) = 204.
Proof.
  apply (preflight_short_circuits demo.Sum256 demo.parse demo.String_ demo.NewRequest demo.redirect
           demo.server demo.preflight (demo.at_ 5 None) demo.world0).
  reflexivity.
Defined.
(** ** Routes behind authentication, and routes without *)

Lemma upstream_header_inherited c k :
  k ∈ identity_names →
  Keys c !! "user_id" = None → Keys c !! "user_email" = None →
  Keys c !! "user_role" = None → Keys c !! "api_key_hash" = None →
  upstream_header c !! k = proxy.copyHeaders http.Add (http.ReqHeader (Request c)) ∅ !! k.
Proof.
  intros Hk H1 H2 H3 H4. unfold upstream_header. rewrite H2, H3, H4.
  cbn [put_string]. unfold base_header. cbv zeta. rewrite H1.
  unfold identity_names in Hk.
  repeat (apply elem_of_cons in Hk as [-> | Hk];
    [destruct (decide (_ ≠ EmptyString));
       [rewrite Set_lookup_ne by (vm_compute; congruence)|];
     (destruct (decide (ClientIP (env c) ≠ EmptyString));
       [rewrite !Set_lookup_ne by (vm_compute; congruence)|]); reflexivity|]).
  by apply elem_of_nil in Hk.
Qed.

Section Guarded.

Variable Sum256 : string → string.
Variable url_Parse : string → option http.URL.
Variable URL_String : http.URL → string.
Variable NewRequest : string → string → option http.URL.
Variable trailingSlash : http.Request → option Response.

(** The handlers of a matched route run from the context the global
    middlewares prepared: first the limiter, which hands on the same
    request or answers 429.  When they return, the response is theirs. *)
Lemma route_cases srv req e w r :
  main.lookup (http.Method req) (http.URL_Path req) = Some r →
  let c' := main.serve Sum256 url_Parse URL_String NewRequest trailingSlash srv req e w in
  ∃ c1 m,
    Written c1 = None ∧ Sent (world c1) = Sent w ∧ Request c1 = req ∧ env c1 = e ∧
    Keys c1 = <["request_id" := VString (request_id_of (fresh req e w))]> ∅ ∧
    ((m c1).1 = Some tt → response c' = response (m c1).2) ∧
    Sent (world c') = Sent (world (m c1).2) ∧
    (m = AbortWithStatusJSON 429 middleware.rate_limit_exceeded ∨
     m = chain (main.guard Sum256 srv (main.auth r))
           (main.forward url_Parse URL_String NewRequest srv (main.backend r))).
Proof.
  intros Hl. cbv zeta.
  assert (Hn : main.redirected trailingSlash req = None)
    by (eapply redirected_routed, lookup_routed, Hl).
  destruct (served_parts Sum256 url_Parse URL_String NewRequest trailingSlash srv req e w Hn
              (lookup_not_options _ _ _ Hl)) as (Hresp & _ & _ & ->).
  revert Hresp.
  rewrite (handlerFor_route _ _ _ _ _ _ _ r _ Hl). unfold main.routeChain.
  change (chain (main.limiter srv :: main.guard Sum256 srv (main.auth r))
            (main.forward url_Parse URL_String NewRequest srv (main.backend r)))
    with (main.limiter srv (chain (main.guard Sum256 srv (main.auth r))
            (main.forward url_Parse URL_String NewRequest srv (main.backend r)))).
  destruct (entry_frame (config.CORS (main.cfg srv)) (fresh req e w))
    as (He0 & Hr0 & Hw0 & Hwr0 & Hk0).
  destruct (limiter_cases srv
              (chain (main.guard Sum256 srv (main.auth r))
                 (main.forward url_Parse URL_String NewRequest srv (main.backend r)))
              (entry (config.CORS (main.cfg srv)) (fresh req e w)))
    as (c1 & (He & _ & _ & _ & _ & Hw & Hs & _ & _) & Hk & Hr & Hc).
  intros Hresp. exists c1.
  destruct Hc as [Hc | Hc]; rewrite Hc in Hresp |- *;
    eexists; (split_and!; [..|exact Hresp|reflexivity|]).
  all: try (by rewrite Hw, Hwr0).
  all: try (by rewrite Hs, Hw0).
  all: try (by rewrite Hr, Hr0).
  all: try (by rewrite He, He0).
  all: try (by rewrite Hk, Hk0).
  - by right.
  - by left.
Qed.

(** X7: a request to a route behind an authentication middleware that
    brings no [Authorization] header (and, where an API key is accepted, no
    [X-API-Key]) is answered 401 with the [unauthorized] body, or 429 when
    the limiter, which runs first, has already refused it; no backend is
    called either way. *)
Theorem anonymous_refused (srv : main.Server) (req : http.Request) (e : Env) (w : World)
    (r : main.route) :
  main.lookup (http.Method req) (http.URL_Path req) = Some r →
  main.auth r ≠ main.Public →
  http.Get (http.ReqHeader req) "Authorization" = EmptyString →
  (main.auth r = main.APIKeyOrJWT → http.Get (http.ReqHeader req) "X-API-Key" = EmptyString) →
  let c' := main.serve Sum256 url_Parse URL_String NewRequest trailingSlash srv req e w in
  ((Status (response c') = 401 ∧
    RBody (response c')
      = JSONBody (middleware.unauthorized (credentials_required (main.auth r)))) ∨
   (Status (response c') = 429 ∧
    RBody (response c') = JSONBody middleware.rate_limit_exceeded)) ∧
  Sent (world c') = Sent w.
Proof.
  intros Hl Hp Ha Hk. cbv zeta.
  destruct (route_cases srv req e w r Hl) as (c1 & m & Hw & Hs & Hr & _ & _ & Hresp & -> & Hc).
  assert (Hj : ∀ code obj,
            final_code code = true → bodyAllowedForStatus code = true →
            m c1 = AbortWithStatusJSON code obj c1 →
            Status (response (main.serve Sum256 url_Parse URL_String NewRequest
                                trailingSlash srv req e w)) = code ∧
            RBody (response (main.serve Sum256 url_Parse URL_String NewRequest
                               trailingSlash srv req e w)) = JSONBody obj ∧
            Sent (world (m c1).2) = Sent w).
  { intros code obj Hf Hb Hm. rewrite Hm in Hresp |- *. unfold AbortWithStatusJSON in *.
    rewrite Hresp by (apply JSON_outcome; destruct (final_accepted _ Hf) as [? H];
                      unfold accepted; unfold refused_code in H;
                      apply orb_false_elim in H as [H1 H2];
                      apply Z.ltb_ge in H1; apply Z.ltb_ge in H2; lia).
    rewrite (JSON_status _ _ _ Hw Hf), (JSON_body _ _ _ Hw Hf Hb).
    destruct (JSON_frame code obj c1) as (_ & _ & _ & ->).
    done. }
  assert (H401 : ∀ message,
            m c1 = AbortWithStatusJSON 401 (middleware.unauthorized message) c1 →
            Status (response (main.serve Sum256 url_Parse URL_String NewRequest
                                trailingSlash srv req e w)) = 401 ∧
            RBody (response (main.serve Sum256 url_Parse URL_String NewRequest
                               trailingSlash srv req e w))
              = JSONBody (middleware.unauthorized message) ∧
            Sent (world (m c1).2) = Sent w).
  { intros message. by apply Hj. }
  destruct Hc as [-> | ->].
  - destruct (Hj 429 middleware.rate_limit_exceeded eq_refl eq_refl eq_refl) as (H1 & H2 & H3).
    split; [right|]; done.
  - destruct (main.auth r) eqn:Hauth; [done| |]; cbn [main.guard chain foldr].
    + destruct (H401 "Authorization header is required") as (H1 & H2 & H3).
      { cbn [main.guard chain foldr].
        rewrite AuthRequired_missing; [reflexivity|]. by rewrite Hr. }
      split; [left|]; done.
    + destruct (H401 "API key or valid JWT token required") as (H1 & H2 & H3).
      { cbn [main.guard chain foldr]. rewrite APIKeyOrJWTAuth_eq. cbv zeta. rewrite Hr.
        destruct (decide (http.Get (http.ReqHeader req) "X-API-Key" ≠ EmptyString))
          as [Hx|_]; [by rewrite (Hk eq_refl) in Hx|].
        destruct (decide (http.Get (http.ReqHeader req) "Authorization" ≠ EmptyString))
          as [Hx|_]; [by rewrite Ha in Hx|].
        reflexivity. }
      split; [left|]; done.
Qed.

(** X8: on a route without authentication middleware the gateway passes on
    whatever identity headers the client sent: [X-User-ID], [X-User-Email],
    [X-User-Role] and [X-API-Key-Hash] reach the backend with the client's
    values, and are absent when the client sent none. *)
Theorem identity_headers_inherited (srv : main.Server) (req : http.Request)
    (e : Env) (w : World) (r : main.route) :
  main.lookup (http.Method req) (http.URL_Path req) = Some r →
  main.auth r = main.Public →
  canonical_keys (http.ReqHeader req) →
  let c' := main.serve Sum256 url_Parse URL_String NewRequest trailingSlash srv req e w in
  sent_since w
    (λ cr, ∀ k, k ∈ identity_names →
       (∀ v vs, http.ReqHeader req !! k = Some (v :: vs) →
                http.CHeader cr !! k = Some (v :: vs)) ∧
       (http.ReqHeader req !! k = None → http.CHeader cr !! k = None))
    c'.
Proof.
  intros Hl Hp Hcan. cbv zeta. unfold sent_since.
  destruct (route_cases srv req e w r Hl)
    as (c1 & m & Hw & Hs & Hr & He & Hk & _ & -> & Hc).
  destruct Hc as [-> | ->].
  - exists []. unfold AbortWithStatusJSON.
    destruct (JSON_frame 429 middleware.rate_limit_exceeded c1) as (_ & _ & _ & ->).
    split; [by rewrite app_nil_r | constructor].
  - rewrite Hp. cbn [main.guard chain foldr].
    destruct (forward_sent_cases url_Parse URL_String NewRequest srv (main.backend r) c1)
      as [-> | (parsed & url & _ & ->)].
    + exists []. split; [by rewrite Hs, app_nil_r | constructor].
    + eexists. split; [by rewrite Hs|]. constructor; [|constructor].
      intros k Hin. cbn [upstream_request http.CHeader].
      rewrite (upstream_header_inherited c1 k Hin)
        by (rewrite Hk, lookup_insert_ne by done; apply lookup_empty).
      rewrite Hr, (copy_Add_lookup _ k Hcan).
      split; [by intros v vs -> | by intros ->].
Qed.

End Guarded.

Lemma anonymous_refused_witness :
  Sent (world (demo.run sample.anonymous (demo.at_ 5 (Some (demo.answer demo.json)))))
  = Sent demo.world0.
Proof.
  apply (anonymous_refused demo.Sum256 demo.parse demo.String_ demo.NewRequest demo.redirect
           demo.server sample.anonymous (demo.at_ 5 (Some (demo.answer demo.json)))
           demo.world0 sample.me).
  - vm_compute. reflexivity.
  - discriminate.
  - vm_compute. reflexivity.
  - discriminate.
Defined.

Lemma identity_headers_inherited_witness :
  sent_since demo.world0
    (λ cr, ∀ k, k ∈ identity_names →
       (∀ v vs, http.ReqHeader sample.claiming !! k = Some (v :: vs) →
                http.CHeader cr !! k = Some (v :: vs)) ∧
       (http.ReqHeader sample.claiming !! k = None → http.CHeader cr !! k = None))
    (demo.run sample.claiming (demo.at_ 5 (Some (demo.answer demo.json)))).
Proof.
  apply (identity_headers_inherited demo.Sum256 demo.parse demo.String_ demo.NewRequest demo.redirect
           demo.server sample.claiming (demo.at_ 5 (Some (demo.answer demo.json)))
           demo.world0 sample.login).
  - vm_compute. reflexivity.
  - reflexivity.
  - apply map_Forall_singleton. reflexivity.
Defined.
(** ** The forwarder's answers *)

(** What [c.Header] leaves under a name after it has been called with each
    value of a list in turn: the last value alone, or nothing when the last
    value is empty. *)
Lemma foldl_setHeader_other i k vs (r : http.Header) :
  http.CanonicalHeaderKey i ≠ k →
  foldl (λ dst value, setHeader dst i value) r vs !! k = r !! k.
Proof.
  intros H. revert r. induction vs as [|v vs IH]; intros r; [done|].
  cbn [foldl]. rewrite IH. by apply setHeader_lookup_ne.
Qed.

Lemma foldl_setHeader_last i vs v (r : http.Header) :
  v ≠ EmptyString →
  foldl (λ dst value, setHeader dst i value) r (vs ++ [v]) !! http.CanonicalHeaderKey i
  = Some [v].
Proof.
  intros H. rewrite foldl_app. cbn [foldl]. by apply setHeader_lookup_eq.
Qed.

Lemma relay_copy_last (src dst : http.Header) k vs v :
  canonical_keys src → src !! k = Some (vs ++ [v]) → v ≠ EmptyString →
  proxy.copyHeaders setHeader src dst !! k = Some [v].
Proof.
  unfold proxy.copyHeaders. intros Hc Hk Hv. revert Hc Hk.
  apply (map_fold_weak_ind (λ (r : http.Header) (m : http.Header),
    canonical_keys m → m !! k = Some (vs ++ [v]) → r !! k = Some [v])).
  - intros _ H. by rewrite lookup_empty in H.
  - intros i x m r Hi IH Hc Hk.
    apply map_Forall_insert in Hc as [Hci Hcm]; [|done]. cbn in Hci.
    destruct (decide (i = k)) as [->|Hne].
    + rewrite lookup_insert_eq in Hk. injection Hk as ->.
      pose proof (foldl_setHeader_last k vs v r Hv) as Hlast.
      rewrite Hci in Hlast. exact Hlast.
    + rewrite lookup_insert_ne in Hk by done.
      rewrite foldl_setHeader_other by congruence. by apply IH.
Qed.

Lemma relay_copy_absent (src dst : http.Header) k :
  canonical_keys src → src !! k = None →
  proxy.copyHeaders setHeader src dst !! k = dst !! k.
Proof.
  intros Hc Hk. apply relay_lookup.
  intros k' vs Hk'. cbn. rewrite (Hc k' vs Hk'). intros ->. congruence.
Qed.

Lemma Data_header code ct data c :
  Written c = None →
  let r := response (Data code ct data c).2 in
  (∀ k, k ≠ "Content-Type" → Header_ r !! k = WHeader c !! k) ∧
  (∀ v vs, WHeader c !! "Content-Type" = Some (v :: vs) →
           Header_ r !! "Content-Type" = Some (v :: vs)) ∧
  (WHeader c !! "Content-Type" = None → Header_ r !! "Content-Type" = Some [ct]).
Proof.
  intros Hw. cbv zeta. rewrite Data_eq, write_header by exact Hw.
  unfold writeContentType, modify. cbn [snd WHeader set_WHeader].
  split_and!.
  - intros k Hk. destruct (WHeader c !! "Content-Type") as [[|? ?]|];
      rewrite ?lookup_insert_ne by done; reflexivity.
  - intros v vs H. by rewrite H.
  - intros H. rewrite H. by rewrite lookup_insert_eq.
Qed.

(** The four ways a first write ends, by the code. *)
Lemma write_by_code code body c :
  Written c = None →
  let out := write code body c in
  let r := response out.2 in
  (final_code code = true →
   out.1 = Some tt ∧ Status r = code ∧
   RBody r = if bodyAllowedForStatus code then body else NoBody) ∧
  (code ≤ 0 → out.1 = Some tt ∧ Status r = 200 ∧ RBody r = body) ∧
  (100 ≤ code ≤ 199 → code ≠ 101 →
   out.1 = Some tt ∧ Status r = 200 ∧ RBody r = NoBody) ∧
  (0 < code < 100 ∨ 999 < code →
   out.1 = None ∧ Status r = 200 ∧ RBody r = NoBody ∧
   response (AbortWithStatus 500 out.2).2 = r).
Proof.
  intros Hw. cbv zeta. split_and!.
  - intros Hf. by destruct (write_response code body c Hw Hf) as [-> ->].
  - intros Hc. unfold write. rewrite Hw. cbv zeta.
    destruct (decide (0 < code)); [lia|]. done.
  - intros Hc Hn. unfold write. rewrite Hw. cbv zeta.
    destruct (decide (0 < code)); [|lia].
    assert (refused_code code = false) as ->
      by (unfold refused_code; apply orb_false_intro; apply Z.ltb_ge; lia).
    unfold response. cbn [snd fst Written set_Written Status].
    assert (final_code code = false) as ->; [|done].
    unfold final_code. apply orb_false_intro; [by apply bool_decide_eq_false|].
    apply andb_false_intro1, Z.leb_gt. lia.
  - intros Hc. unfold write. rewrite Hw. cbv zeta.
    destruct (decide (0 < code)); [|lia].
    assert (refused_code code = true) as ->.
    { unfold refused_code. apply orb_true_iff.
      destruct Hc as [Hc | Hc]; [left | right]; apply Z.ltb_lt; lia. }
    unfold AbortWithStatus, write, response.
    cbn [snd fst Written set_Written Status].
    assert (final_code code = false) as ->; [|done].
    unfold final_code. apply orb_false_intro; [apply bool_decide_eq_false; lia|].
    destruct Hc as [Hc | Hc];
      [apply andb_false_intro1 | apply andb_false_intro2]; apply Z.leb_gt; lia.
Qed.

Lemma log_JSON_fails m kv code obj c c0 :
  final_code code = true → bodyAllowedForStatus code = true →
  Written c0 = None → env c0 = env c → (∃ before, Log (world c0) = Log (world c) ++ before) →
  fails_with code obj m c ((log ErrorLevel m kv;; JSON code obj) c0).2.
Proof.
  intros Hf Hb Hw He (before & Hl). unfold fails_with.
  rewrite (log_JSON_status _ _ _ _ _ _ Hw Hf). split; [reflexivity|].
  rewrite log_then.
  set (c1 := set_world _ c0).
  rewrite (JSON_body code obj c1 Hw Hf Hb). split; [reflexivity|].
  destruct (JSON_frame code obj c1) as (_ & _ & _ & ->).
  exists before, kv. unfold c1. cbn [world set_world add_Log Log].
  by rewrite Hl, He, app_assoc.
Qed.

Section ForwarderAnswers.

Variable url_Parse : string → option http.URL.
Variable URL_String : http.URL → string.
Variable NewRequest : string → string → option http.URL.

(** X9: whatever goes wrong while forwarding, [ProxyRequest] answers with a
    JSON error and logs at error level: 500 when the target URL does not
    parse or the request cannot be built, 400 when the inbound body cannot
    be read (nothing is handed to the HTTP client in these cases), 502
    when the client returns an error and 500 when the body of the answer
    cannot be read (the request has been handed to the client then). *)
Theorem proxy_failures_answered (p : proxy.ServiceProxy) (path : string) (c : Context) :
  Written c = None → typed_keys c →
  let c' := (proxy.ProxyRequest url_Parse URL_String NewRequest p path c).2 in
  (url_Parse (proxy.targetURL p) = None →
   fails_with 500 (proxy.proxy_error "Failed to proxy request")
     "Failed to parse target URL" c c' ∧
   Sent (world c') = Sent (world c)) ∧
  (∀ parsed, url_Parse (proxy.targetURL p) = Some parsed →
     ((read_body c).2 = true →
      fails_with 400 [("error", VString "bad_request");
                      ("message", VString "Failed to read request body")]
        "Failed to read request body" c c' ∧
      Sent (world c') = Sent (world c)) ∧
     ((read_body c).2 = false →
      NewRequest (http.Method (Request c)) (URL_String (target_of parsed path c)) = None →
      fails_with 500 (proxy.proxy_error "Failed to create proxy request")
        "Failed to create proxy request" c c' ∧
      Sent (world c') = Sent (world c)) ∧
     (∀ url, (read_body c).2 = false →
      NewRequest (http.Method (Request c)) (URL_String (target_of parsed path c)) = Some url →
      Sent (world c') = Sent (world c) ++ [upstream_request url c] ∧
      (Backend (env c) = None →
       fails_with 502 [("error", VString "service_unavailable");
                       ("message", VString "Backend service is unavailable")]
         "Failed to proxy request" c c') ∧
      (∀ resp, Backend (env c) = Some resp → http.RespBody resp = None →
               fails_with 500 (proxy.proxy_error "Failed to read response")
                 "Failed to read response body" c c'))).
Proof.
  intros Hw Ht. cbv zeta. rewrite ProxyRequest_unfold.
  assert (Hnil : ∃ before, Log (world c) = Log (world c) ++ before)
    by (exists []; by rewrite app_nil_r).
  split.
  - intros ->. split; [by apply log_JSON_fails|].
    by destruct (log_JSON_frame ErrorLevel "Failed to parse target URL"
                   [("error", VError); ("url", VString (proxy.targetURL p))] 500
                   (proxy.proxy_error "Failed to proxy request") c) as (_ & _ & _ & ->).
  - intros parsed ->. split_and!.
    + intros ->. split; [by apply log_JSON_fails|].
      by destruct (log_JSON_frame ErrorLevel "Failed to read request body"
                     [("error", VError)] 400
                     [("error", VString "bad_request");
                      ("message", VString "Failed to read request body")] c)
        as (_ & _ & _ & ->).
    + intros -> ->. split; [by apply log_JSON_fails|].
      by destruct (log_JSON_frame ErrorLevel "Failed to create proxy request"
                     [("error", VError)] 500
                     (proxy.proxy_error "Failed to create proxy request") c)
        as (_ & _ & _ & ->).
    + intros url -> ->. rewrite (dispatch_typed _ _ _ _ Ht).
      set (c0 := set_world (add_Sent (upstream_request url c))
                   (announced (URL_String (target_of parsed path c)) path c)).
      assert (Hw0 : Written c0 = None) by exact Hw.
      assert (He0 : env c0 = env c) by reflexivity.
      assert (Hl0 : ∃ before, Log (world c0) = Log (world c) ++ before)
        by (eexists; reflexivity).
      split_and!.
      * by destruct (relay_frame (URL_String (target_of parsed path c)) (Backend (env c)) c0)
          as (_ & _ & _ & ->).
      * intros ->. unfold proxy.relay. by apply log_JSON_fails.
      * intros resp -> Hb. unfold proxy.relay. rewrite Hb. by apply log_JSON_fails.
Qed.

(** X10: when the HTTP client returns an answer (that of the last request
    it made, after the redirects it followed) and its body can be read,
    what the client of the gateway gets depends on the status code of
    that answer.  A code that ends a header (101, or 200 to 999) is
    relayed, with the body unless the code allows none (101, 204, 304).
    A code that is not positive leaves the writer's 200, with the body.
    An informational code goes out as an interim header and the response
    proper is 200 without body.  For any other code (1 to 99, or above
    999) [net/http] refuses the header: the handler panics, [Recovery]'s
    500 comes after the writer counts its header as written, and the
    response is 200 without body.  In every case, of the values the
    answer gave a header, the last one alone (when it is not empty) is
    what the response carries under that name; a header the answer did
    not give keeps the value the gateway set; and an answer without
    [Content-Type] leaves the response with an empty one. *)
Theorem backend_answer_relayed (p : proxy.ServiceProxy) (path : string) (c : Context)
    (parsed url : http.URL) (resp : http.ClientResponse) (body : string) :
  reaches url_Parse URL_String NewRequest p path c parsed url →
  Written c = None →
  Backend (env c) = Some resp → http.RespBody resp = Some body →
  canonical_keys (http.RespHeader resp) →
  let out := proxy.ProxyRequest url_Parse URL_String NewRequest p path c in
  let r := response out.2 in
  let code := http.StatusCode resp in
  (final_code code = true →
   out.1 = Some tt ∧ Status r = code ∧
   RBody r = if bodyAllowedForStatus code then DataBody body else NoBody) ∧
  (code ≤ 0 → out.1 = Some tt ∧ Status r = 200 ∧ RBody r = DataBody body) ∧
  (100 ≤ code ≤ 199 → code ≠ 101 →
   out.1 = Some tt ∧ Status r = 200 ∧ RBody r = NoBody) ∧
  (0 < code < 100 ∨ 999 < code →
   out.1 = None ∧ Status r = 200 ∧ RBody r = NoBody ∧
   response (AbortWithStatus 500 out.2).2 = r) ∧
  (∀ k vs v, http.RespHeader resp !! k = Some (vs ++ [v]) → v ≠ EmptyString →
             Header_ r !! k = Some [v]) ∧
  (∀ k, http.RespHeader resp !! k = None → k ≠ "Content-Type" →
        Header_ r !! k = WHeader c !! k) ∧
  (http.RespHeader resp !! "Content-Type" = None → WHeader c !! "Content-Type" = None →
   Header_ r !! "Content-Type" = Some [EmptyString]).
Proof.
  intros Hr Hw Hb Hbody Hcan. cbv zeta.
  pose (c0 := set_world (add_Sent (upstream_request url c))
                (announced (URL_String (target_of parsed path c)) path c)).
  pose (c1 := set_WHeader (proxy.copyHeaders setHeader (http.RespHeader resp)) c0).
  assert (Heq : proxy.ProxyRequest url_Parse URL_String NewRequest p path c
                = Data (http.StatusCode resp)
                    (http.Get (http.RespHeader resp) "Content-Type") body c1).
  { rewrite (ProxyRequest_reaches url_Parse URL_String NewRequest p path c parsed url Hr), Hb.
    by apply relay_answer. }
  rewrite Heq.
  assert (Hw1 : Written c1 = None) by exact Hw.
  assert (Hh1 : WHeader c1 = proxy.copyHeaders setHeader (http.RespHeader resp) (WHeader c))
    by reflexivity.
  destruct (Data_header (http.StatusCode resp)
              (http.Get (http.RespHeader resp) "Content-Type") body c1 Hw1)
    as (Hother & Hct & Hnone).
  rewrite Data_eq in *.
  destruct (write_by_code (http.StatusCode resp) (DataBody body)
              (writeContentType (http.Get (http.RespHeader resp) "Content-Type") c1).2 Hw1)
    as (Hfinal & Hzero & Hinfo & Hrefused).
  split_and!; [exact Hfinal | exact Hzero | exact Hinfo | exact Hrefused | | |].
  - intros k vs v Hk Hv.
    pose proof (relay_copy_last _ (WHeader c) k vs v Hcan Hk Hv) as Hlast.
    rewrite <- Hh1 in Hlast.
    destruct (decide (k = "Content-Type")) as [->|Hne].
    + by apply Hct.
    + by rewrite Hother.
  - intros k Hk Hne. rewrite (Hother k Hne), Hh1. by apply relay_copy_absent.
  - intros Hk Hc. rewrite Hnone.
    + unfold http.Get.
      change (http.CanonicalHeaderKey "Content-Type") with "Content-Type".
      by rewrite Hk.
    + rewrite Hh1, relay_copy_absent by done. exact Hc.
Qed.

(** X11: the request to the backend names the client's address, and that
    alone, in [X-Forwarded-For] and [X-Real-IP]: what the inbound request
    carried under these names is replaced, not extended. *)
Theorem client_address_forwarded (p : proxy.ServiceProxy) (path : string) (c : Context)
    (parsed url : http.URL) :
  reaches url_Parse URL_String NewRequest p path c parsed url →
  ClientIP (env c) ≠ EmptyString →
  ∃ cr,
    Sent (world (proxy.ProxyRequest url_Parse URL_String NewRequest p path c).2)
      = Sent (world c) ++ [cr] ∧
    http.CHeader cr !! "X-Forwarded-For" = Some [ClientIP (env c)] ∧
    http.CHeader cr !! "X-Real-Ip" = Some [ClientIP (env c)].
Proof.
  intros Hr Hip. exists (upstream_request url c).
  split; [by apply (ProxyRequest_sent url_Parse URL_String NewRequest p path c parsed url)|].
  cbn [upstream_request http.CHeader]. unfold upstream_header.
  rewrite !put_string_other by (vm_compute; congruence).
  unfold base_header. cbv zeta.
  destruct (decide (ClientIP (env c) ≠ EmptyString)) as [_|]; [|done].
  split.
  - destruct (Keys c !! "user_id");
      [rewrite Set_lookup_ne by (vm_compute; congruence)|];
      (destruct (decide (_ ≠ EmptyString));
        [rewrite Set_lookup_ne by (vm_compute; congruence)|]);
      rewrite Set_lookup_ne by (vm_compute; congruence);
      apply (Set_lookup _ "X-Forwarded-For").
  - destruct (Keys c !! "user_id");
      [rewrite Set_lookup_ne by (vm_compute; congruence)|];
      (destruct (decide (_ ≠ EmptyString));
        [rewrite Set_lookup_ne by (vm_compute; congruence)|]);
      apply (Set_lookup _ "X-Real-IP").
Qed.

End ForwarderAnswers.

Lemma proxy_failures_answered_witness :
  fails_with 500 (proxy.proxy_error "Failed to proxy request") "Failed to parse target URL"
    (demo.carrying "abc")
    (proxy.ProxyRequest demo.parse demo.String_ demo.NewRequest sample.broken "/auth/login"
       (demo.carrying "abc")).2.
Proof.
  apply (proxy_failures_answered demo.parse demo.String_ demo.NewRequest sample.broken "/auth/login"
           (demo.carrying "abc")).
  - reflexivity.
  - apply (demo_reaches "abc").
  - reflexivity.
Defined.

Lemma backend_answer_relayed_witness :
  Status (response (proxy.ProxyRequest demo.parse demo.String_ demo.NewRequest demo.auth_proxy
                      "/auth/login" (demo.carrying "abc")).2) = 200 ∧
  RBody (response (proxy.ProxyRequest demo.parse demo.String_ demo.NewRequest demo.auth_proxy
                     "/auth/login" (demo.carrying "abc")).2) = DataBody "ok".
Proof.
  assert (Hcan : canonical_keys (http.RespHeader (demo.answer demo.json)))
    by (apply map_Forall_singleton; reflexivity).
  destruct (backend_answer_relayed demo.parse demo.String_ demo.NewRequest demo.auth_proxy
              "/auth/login" (demo.carrying "abc") _ _ (demo.answer demo.json) "ok"
              (demo_reaches "abc") eq_refl eq_refl eq_refl Hcan) as (Hf & _).
  destruct (Hf eq_refl) as (_ & H1 & H2). split; [exact H1 | exact H2].
Defined.

(** A backend whose status line reads 42: the handlers panic, the client
    gets 200 without body, and [Logger] writes no record. *)
Lemma refused_status_recovered :
  let c' := demo.run demo.tagged (demo.at_ 5 (Some sample.odd_answer)) in
  Status (response c') = 200 ∧ RBody (response c') = NoBody ∧
  length (Sent (world c')) = 1%nat ∧
  Forall (λ r, msg r ≠ "HTTP Request") (Log (world c')).
Proof.
  vm_compute. split_and!; try reflexivity. repeat constructor; discriminate.
Qed.

Lemma client_address_forwarded_witness :
  ∃ cr,
    Sent (world (proxy.ProxyRequest demo.parse demo.String_ demo.NewRequest demo.auth_proxy
                   "/auth/login" (demo.carrying "abc")).2)
      = Sent (world (demo.carrying "abc")) ++ [cr] ∧
    http.CHeader cr !! "X-Forwarded-For" = Some [ClientIP (env (demo.carrying "abc"))] ∧
    http.CHeader cr !! "X-Real-Ip" = Some [ClientIP (env (demo.carrying "abc"))].
Proof.
  apply (client_address_forwarded demo.parse demo.String_ demo.NewRequest demo.auth_proxy "/auth/login"
           (demo.carrying "abc") _ _ (demo_reaches "abc")).
  discriminate.
Defined.
(** ** API keys *)

Lemma EncodeToString_length s :
  String.length (middleware.EncodeToString s) = (2 * String.length s)%nat.
Proof. induction s as [|a s IH]; [reflexivity|]. cbn. rewrite IH. lia. Qed.

Section ApiKey.

Variable Sum256 : string → string.
Variable url_Parse : string → option http.URL.
Variable URL_String : http.URL → string.
Variable NewRequest : string → string → option http.URL.

Lemma reaches_with_api_key p c parsed url :
  reaches url_Parse URL_String NewRequest p (service_path c) c parsed url →
  reaches url_Parse URL_String NewRequest p (service_path (with_api_key Sum256 c))
    (with_api_key Sum256 c) parsed url.
Proof.
  intros (H1 & H2 & H3 & H4). split_and!; [exact H1 | exact H2 | exact H3 |].
  by apply typed_with_api_key.
Qed.

(** X12: the gateway does not check an API key: with any non-empty
    [X-API-Key], whatever the [Authorization] header says, the request goes
    on to the backend, which receives the hexadecimal SHA-256 digest of the
    key in [X-API-Key-Hash], two characters for each byte of the digest. *)
Theorem api_key_digest_forwarded (srv : main.Server) (b : main.service) (c : Context)
    (parsed url : http.URL) :
  let key := http.Get (http.ReqHeader (Request c)) "X-API-Key" in
  let digest := middleware.EncodeToString (Sum256 key) in
  key ≠ EmptyString →
  reaches url_Parse URL_String NewRequest (proxy_of srv b) (service_path c) c parsed url →
  ∃ cr,
    Sent (world (chain (main.guard Sum256 srv main.APIKeyOrJWT)
                   (main.forward url_Parse URL_String NewRequest srv b) c).2)
      = Sent (world c) ++ [cr] ∧
    http.CHeader cr !! "X-Api-Key-Hash" = Some [digest] ∧
    String.length digest = (2 * String.length (Sum256 key))%nat.
Proof.
  cbv zeta. intros Hkey Hr. cbn [main.guard chain foldr].
  rewrite APIKeyOrJWTAuth_eq. cbv zeta.
  destruct (decide _) as [_|]; [|done].
  apply reaches_with_api_key in Hr.
  eexists. split; [|split].
  - rewrite (forward_sent url_Parse URL_String NewRequest srv b _ parsed url Hr). reflexivity.
  - cbn [upstream_request http.CHeader]. unfold upstream_header.
    assert (Hk : Keys (with_api_key Sum256 c) !! "api_key_hash"
                 = Some (VString (middleware.EncodeToString
                     (Sum256 (http.Get (http.ReqHeader (Request c)) "X-API-Key"))))).
    { unfold with_api_key. cbn [Keys set_Request set_Keys].
      rewrite lookup_insert_ne by done. by rewrite lookup_insert_eq. }
    rewrite Hk. cbn [put_string]. apply (Set_lookup _ "X-API-Key-Hash").
  - apply EncodeToString_length.
Qed.

End ApiKey.

Lemma keyed_reaches :
  reaches demo.parse demo.String_ demo.NewRequest (proxy_of demo.server main.CaptchaService)
    (service_path sample.keyed) sample.keyed sample.captcha_url
    (demo.http_url "localhost:8082" "/api/v1/captcha/solve" "page=2").
Proof.
  unfold reaches, typed_keys, sample.keyed, fresh. cbn [Keys].
  rewrite !lookup_empty. split_and!; try reflexivity; exact I.
Qed.

Lemma api_key_digest_forwarded_witness :
  ∃ cr,
    Sent (world (chain (main.guard demo.Sum256 demo.server main.APIKeyOrJWT)
                   (main.forward demo.parse demo.String_ demo.NewRequest demo.server
                      main.CaptchaService) sample.keyed).2)
      = Sent (world sample.keyed) ++ [cr] ∧
    http.CHeader cr !! "X-Api-Key-Hash"
      = Some [middleware.EncodeToString
                (demo.Sum256 (http.Get (http.ReqHeader (Request sample.keyed)) "X-API-Key"))] ∧
    String.length
      (middleware.EncodeToString
         (demo.Sum256 (http.Get (http.ReqHeader (Request sample.keyed)) "X-API-Key")))
    = (2 * String.length
             (demo.Sum256 (http.Get (http.ReqHeader (Request sample.keyed)) "X-API-Key")))%nat.
Proof.
  apply (api_key_digest_forwarded demo.Sum256 demo.parse demo.String_ demo.NewRequest demo.server
           main.CaptchaService sample.keyed sample.captcha_url
           (demo.http_url "localhost:8082" "/api/v1/captcha/solve" "page=2")).
  - vm_compute. discriminate.
  - exact keyed_reaches.
Defined.
(** ** More on the limiters *)

Section LimitersMore.
Import limiter middleware.

(** Two maps of the in-memory limiter that differ only in entries a
    cleanup pass at [t] removes. *)
Lemma sweep_agree R t : ∀ evs (m1 m2 : gmap string client),
  1 ≤ R →
  (∀ ip, m1 !! ip = m2 !! ip ∨
         (m1 !! ip = None ∧ ∃ cl, m2 !! ip = Some cl ∧ t - lastSeen cl > window * 2)) →
  Forall (λ ev, t ≤ event_time ev) evs →
  memory_run R evs m1 = memory_run R evs m2.
Proof.
  pose proof window_pos as Hwin.
  induction evs as [|ev evs IH]; intros m1 m2 HR Hag Ht; [reflexivity|].
  apply Forall_cons in Ht as [Hev Ht]. destruct ev as [ip now|now]; cbn [event_time] in Hev.
  - cbn [memory_run].
    assert (Hstep : proceed (memory_step R ip now m1).2 = proceed (memory_step R ip now m2).2 ∧
                    (memory_step R ip now m1).1 !! ip = (memory_step R ip now m2).1 !! ip).
    { unfold memory_step. destruct (Hag ip) as [-> | (-> & cl & -> & Hst)].
      - destruct (m2 !! ip); cbn [fst snd proceed]; rewrite !lookup_insert_eq; done.
      - destruct (decide (now - lastSeen cl > window)) as [_|Hn]; [|lia].
        cbn [fst snd proceed count]. rewrite !lookup_insert_eq.
        rewrite bool_decide_eq_false_2 by lia. done. }
    destruct Hstep as [Hp Hl].
    destruct (memory_step R ip now m1) as [m1' d1] eqn:E1.
    destruct (memory_step R ip now m2) as [m2' d2] eqn:E2.
    cbn [fst snd] in Hp, Hl. rewrite Hp. f_equal.
    apply IH; [exact HR| |exact Ht].
    intros k. destruct (decide (ip = k)) as [<-|Hne]; [by left|].
    pose proof (step_other R ip k now m1 Hne) as H1.
    pose proof (step_other R ip k now m2 Hne) as H2.
    rewrite E1 in H1. rewrite E2 in H2. cbn [fst] in H1, H2. rewrite H1, H2. apply Hag.
  - cbn [memory_run]. apply IH; [exact HR| |exact Ht].
    intros k. left. rewrite !cleanup_lookup.
    destruct (Hag k) as [-> | (-> & cl & -> & Hst)]; [reflexivity|].
    destruct (decide _) as [_|Hn]; [reflexivity|lia].
Qed.

(** X13: under the shared backend a client that is over the limit stays
    refused for as long as each of its requests comes before the counter
    expires: every request, refused or not, sets the expiry anew, to the
    whole seconds of the window (one second for a shorter window) after
    itself, so the count never starts again. *)
Theorem redis_lockout_renewed (R W : Z) (C : string) (arrivals : list arrival)
    (store : gmap string counter) (v x : Z) :
  0 < W →
  Forall (λ e, fails e = false) arrivals →
  store !! key_of C = Some {| value := v; expires := x |} →
  R ≤ v → 0 ≤ v → v + Z.of_nat (length arrivals) ≤ int_max →
  renewed (ttl W) C x arrivals →
  Forall (λ h, who h = C → passed h = false) (redis_run R W arrivals store).
Proof.
  revert store v x.
  induction arrivals as [|e rest IH]; intros store v x HW Hf Hs HR Hv Hmax Hre;
    [constructor|].
  apply Forall_cons in Hf as [Hfe Hf]. cbn [redis_run]. rewrite Hfe.
  cbn [renewed] in Hre. cbn [length] in Hmax.
  destruct (decide (ip e = C)) as [HC|HC].
  - destruct Hre as [Hdead Hre]. rewrite HC.
    destruct (exec_same (key_of C) W (now e) store (length rest) HW) as (v' & _ & _ & Hx & Hsame).
    { rewrite Hs. cbn. lia. }
    assert (v' = v) as ->.
    { apply (Hsame _ Hs). cbn. lia. }
    rewrite Hx. constructor.
    + intros _. cbn [passed redis_decide proceed].
      rewrite bool_decide_eq_true_2 by lia. reflexivity.
    + apply (IH _ (v + 1) (now e + ttl W)); try done; try lia.
      by rewrite lookup_insert_eq.
  - destruct (pipeline_Exec false (key_of (ip e)) W (now e) store) as [store' res] eqn:Hx.
    constructor; [intros Hw; by destruct HC|].
    apply (IH _ v x); try done; try lia.
    pose proof (exec_other (key_of (ip e)) (key_of C) W (now e) store) as Ho.
    rewrite Hx in Ho. cbn [fst] in Ho. rewrite Ho; [exact Hs|].
    intros Hk. apply HC. by apply key_of_inj.
Qed.

(** X14: with a limit of at least one, a pass of the cleanup goroutine
    changes no later decision of the in-memory limiter: the entries it
    removes are the ones the next request of their client would have
    started afresh anyway. *)
Theorem sweep_unobservable (R t : Z) (evs : list event) (clients : gmap string client) :
  1 ≤ R →
  Forall (λ ev, t ≤ event_time ev) evs →
  memory_run R evs (cleanup t clients) = memory_run R evs clients.
Proof.
  intros HR Ht. apply (sweep_agree R t); [exact HR| |exact Ht].
  intros ip. rewrite cleanup_lookup. destruct (clients !! ip) as [cl|]; [|by left].
  destruct (decide _) as [Hst|]; [|by left]. right. eauto.
Qed.

End LimitersMore.

Lemma redis_lockout_renewed_witness :
  Forall (λ h, limiter.who h = "10.0.0.1" → limiter.passed h = false)
    (limiter.redis_run 2 (60 * config.Second)
       [sample.arrival (30 * config.Second); sample.arrival (80 * config.Second)]
       sample.used_up).
Proof.
  apply (redis_lockout_renewed 2 (60 * config.Second) "10.0.0.1"
           [sample.arrival (30 * config.Second); sample.arrival (80 * config.Second)]
           sample.used_up 2 (60 * config.Second)).
  - reflexivity.
  - repeat constructor.
  - apply lookup_singleton_eq.
  - reflexivity.
  - discriminate.
  - vm_compute. discriminate.
  - vm_compute. split_and!; try discriminate. exact I.
Defined.

Lemma sweep_unobservable_witness :
  limiter.memory_run 2 [limiter.Arrive "10.0.0.1" (4 * config.Minute)]
    (middleware.cleanup (3 * config.Minute) sample.idle)
  = limiter.memory_run 2 [limiter.Arrive "10.0.0.1" (4 * config.Minute)] sample.idle.
Proof.
  apply (sweep_unobservable 2 (3 * config.Minute)).
  - discriminate.
  - repeat constructor. vm_compute. discriminate.
Defined.
(** ** Configuration that does not parse *)

Section LoadMore.

Variable Atoi : string → option Z.
Variable ParseDuration : string → option Z.

Lemma Getenv_delete_ne (environ : gmap string string) key k :
  key ≠ k → config.Getenv (delete key environ) k = config.Getenv environ k.
Proof. intros H. unfold config.Getenv. by rewrite lookup_delete_ne. Qed.

Lemma Getenv_delete (environ : gmap string string) key :
  config.Getenv (delete key environ) key = EmptyString.
Proof. unfold config.Getenv. by rewrite lookup_delete_eq. Qed.

Lemma getEnv_delete_ne environ key k d :
  key ≠ k → config.getEnv (delete key environ) k d = config.getEnv environ k d.
Proof. intros H. unfold config.getEnv. by rewrite Getenv_delete_ne. Qed.

Lemma getEnvSlice_delete_ne environ key k d :
  key ≠ k → config.getEnvSlice (delete key environ) k d = config.getEnvSlice environ k d.
Proof. intros H. unfold config.getEnvSlice. by rewrite Getenv_delete_ne. Qed.

Lemma getEnvInt_delete_ne environ key k d :
  key ≠ k →
  config.getEnvInt Atoi (delete key environ) k d = config.getEnvInt Atoi environ k d.
Proof. intros H. unfold config.getEnvInt. by rewrite Getenv_delete_ne. Qed.

Lemma getEnvDuration_delete_ne environ key k d :
  key ≠ k →
  config.getEnvDuration ParseDuration (delete key environ) k d
  = config.getEnvDuration ParseDuration environ k d.
Proof. intros H. unfold config.getEnvDuration. by rewrite Getenv_delete_ne. Qed.

Lemma getEnvInt_unparsable environ key v d :
  environ !! key = Some v → Atoi v = None →
  config.getEnvInt Atoi (delete key environ) key d = config.getEnvInt Atoi environ key d.
Proof.
  intros Hk Hv. unfold config.getEnvInt. rewrite Getenv_delete.
  unfold config.Getenv. rewrite Hk. cbn.
  destruct (decide (v ≠ EmptyString)); [by rewrite Hv|reflexivity].
Qed.

Lemma getEnvDuration_unparsable environ key v d :
  environ !! key = Some v → ParseDuration v = None →
  config.getEnvDuration ParseDuration (delete key environ) key d
  = config.getEnvDuration ParseDuration environ key d.
Proof.
  intros Hk Hv. unfold config.getEnvDuration. rewrite Getenv_delete.
  unfold config.Getenv. rewrite Hk. cbn.
  destruct (decide (v ≠ EmptyString)); [by rewrite Hv|reflexivity].
Qed.

(** X15: a numeric or duration setting whose value does not parse is
    ignored without an error: [Load] gives what it gives when the variable
    is not set at all. *)
Theorem unparsable_setting_ignored (environ : gmap string string) (key v : string) :
  environ !! key = Some v →
  (key ∈ integer_variables ∧ Atoi v = None) ∨
  (key ∈ duration_variables ∧ ParseDuration v = None) →
  config.Load Atoi ParseDuration environ
  = config.Load Atoi ParseDuration (delete key environ).
Proof.
  intros Hk [[Hin Hv] | [Hin Hv]].
  - unfold integer_variables in Hin.
    repeat (apply elem_of_cons in Hin as [-> | Hin];
      [unfold config.Load; cbv zeta;
       rewrite (getEnvInt_unparsable _ _ _ _ Hk Hv);
       rewrite !getEnv_delete_ne, !getEnvSlice_delete_ne, !getEnvInt_delete_ne,
         !getEnvDuration_delete_ne by done;
       reflexivity|]).
    by apply elem_of_nil in Hin.
  - unfold duration_variables in Hin.
    repeat (apply elem_of_cons in Hin as [-> | Hin];
      [unfold config.Load; cbv zeta;
       rewrite (getEnvDuration_unparsable _ _ _ _ Hk Hv);
       rewrite !getEnv_delete_ne, !getEnvSlice_delete_ne, !getEnvInt_delete_ne,
         !getEnvDuration_delete_ne by done;
       reflexivity|]).
    by apply elem_of_nil in Hin.
Qed.

End LoadMore.

Lemma unparsable_setting_ignored_witness :
  config.Load (λ _, None) (λ _, None) {[ "GATEWAY_PORT" := "eighty" ]}
  = config.Load (λ _, None) (λ _, None) (delete "GATEWAY_PORT" {[ "GATEWAY_PORT" := "eighty" ]}).
Proof.
  apply (unparsable_setting_ignored (λ _, None) (λ _, None) _ "GATEWAY_PORT" "eighty").
  - apply lookup_singleton_eq.
  - left. split; [|reflexivity]. constructor.
Defined.


(** ** Which backend a route goes to *)

Lemma routes_service r :
  r ∈ main.routes →
  ∃ a pats,
    strs.Split (main.fullPath r) "/"%char = "" :: "api" :: "v1" :: a :: pats ∧
    (∀ rest, a ≠ String ":"%char rest) ∧
    (main.backend r = main.AuthService ↔ a ∈ ["auth"; "api-keys"]) ∧
    (main.backend r = main.CaptchaService ↔ a = "captcha").
Proof.
  unfold main.routes. intros H.
  repeat (apply elem_of_cons in H as [-> | H];
    [eexists _, _; split; [vm_compute; reflexivity|];
     split; [intros rest; discriminate|];
     cbn [main.backend]; split; split;
     first [ reflexivity | discriminate | intros _; set_solver
           | (let Hx := fresh in
              intros Hx;
              repeat (apply elem_of_cons in Hx as [Hx | Hx]; [discriminate Hx|]);
              by apply elem_of_nil in Hx) ]|]).
  by apply elem_of_nil in H.
Qed.

Lemma segments_service a pats segs :
  main.segments_match ("" :: "api" :: "v1" :: a :: pats) segs = true →
  (∀ rest, a ≠ String ":"%char rest) →
  ∃ rest, segs = "" :: "api" :: "v1" :: a :: rest.
Proof.
  intros Hm Ha.
  destruct (under_v1_segments _ _ Hm) as (rest & ->).
  cbn [main.segments_match] in Hm.
  repeat (apply andb_true_iff in Hm as [_ Hm]).
  destruct rest as [|seg rest]; [discriminate Hm|].
  apply andb_true_iff in Hm as [Hs _].
  rewrite (literal_segment _ _ Hs Ha). eauto.
Qed.

(** X16: a request that matches a route has a path of the form
    [/api/v1/<service>/...]; it is handed to the auth service exactly when
    [<service>] is [auth] or [api-keys], and to the captcha service exactly
    when it is [captcha]. *)
Theorem route_backend (srv : main.Server) (method path : string) (r : main.route) :
  main.lookup method path = Some r →
  ∃ service rest,
    strs.Split path "/"%char = "" :: "api" :: "v1" :: service :: rest ∧
    (main.backend r = main.AuthService ↔ service ∈ ["auth"; "api-keys"]) ∧
    (main.backend r = main.CaptchaService ↔ service = "captcha") ∧
    proxy.targetURL (proxy_of srv (main.backend r))
    = if decide (service = "captcha")
      then config.CaptchaURL (config.Services (main.cfg srv))
      else config.AuthURL (config.Services (main.cfg srv)).
Proof.
  intros Hl. destruct (lookup_route _ _ _ Hl) as (Hin & _ & Hm).
  destruct (routes_service r Hin) as (a & pats & Hp & Ha & Hauth & Hcap).
  unfold main.path_matches in Hm. rewrite Hp in Hm.
  destruct (segments_service _ _ _ Hm Ha) as (rest & Hs).
  exists a, rest. split_and!; try done.
  destruct (main.backend r) eqn:Hb; cbn [proxy_of main.proxyHandler handlers.authProxy
    handlers.captchaProxy proxy.targetURL].
  - destruct (decide (a = "captcha")) as [Hc|]; [|reflexivity].
    apply Hcap in Hc. discriminate Hc.
  - destruct (decide (a = "captcha")) as [|Hc]; [reflexivity|].
    destruct Hc. by apply Hcap.
Qed.

Lemma route_backend_witness :
  ∃ service rest,
    strs.Split "/api/v1/auth/login" "/"%char = "" :: "api" :: "v1" :: service :: rest ∧
    (main.backend sample.login = main.AuthService ↔ service ∈ ["auth"; "api-keys"]) ∧
    (main.backend sample.login = main.CaptchaService ↔ service = "captcha") ∧
    proxy.targetURL (proxy_of demo.server (main.backend sample.login))
    = if decide (service = "captcha")
      then config.CaptchaURL (config.Services (main.cfg demo.server))
      else config.AuthURL (config.Services (main.cfg demo.server)).
Proof.
  apply (route_backend demo.server "POST" "/api/v1/auth/login" sample.login).
  vm_compute. reflexivity.
Defined.
(** ** Clients do not affect each other *)

Section Isolation.
Import limiter middleware.

Lemma pipeline_Exec_local f key W t (s1 s2 : gmap string counter) :
  s1 !! key = s2 !! key →
  (pipeline_Exec f key W t s1).2 = (pipeline_Exec f key W t s2).2 ∧
  (pipeline_Exec f key W t s1).1 !! key = (pipeline_Exec f key W t s2).1 !! key.
Proof.
  intros H. unfold pipeline_Exec, live_value. rewrite H.
  destruct f; [done|].
  destruct (s2 !! key) as [c|]; [destruct (decide (expires c < t))|];
    cbn [default]; destruct (decide (_ > int_max)); cbn [fst snd Expire];
    try destruct (decide (formatSec W ≤ 0)); split; try reflexivity;
    rewrite ?lookup_delete_eq, ?lookup_insert_eq; reflexivity.
Qed.

Lemma pipeline_Exec_other f key k W t (s : gmap string counter) :
  key ≠ k → (pipeline_Exec f key W t s).1 !! k = s !! k.
Proof.
  intros H. unfold pipeline_Exec. destruct f; [reflexivity|].
  destruct (decide (_ > int_max)); cbn [fst]; unfold Expire;
    destruct (live_value t s key); try destruct (decide (formatSec W ≤ 0));
    rewrite ?lookup_delete_ne, ?lookup_insert_ne by done; reflexivity.
Qed.

Lemma memory_step_local R ip t (m1 m2 : gmap string client) :
  m1 !! ip = m2 !! ip →
  (memory_step R ip t m1).2 = (memory_step R ip t m2).2 ∧
  (memory_step R ip t m1).1 !! ip = (memory_step R ip t m2).1 !! ip.
Proof.
  intros H. unfold memory_step. rewrite H.
  destruct (m2 !! ip); cbn [fst snd]; rewrite !lookup_insert_eq; done.
Qed.

Lemma redis_isolated R W C : ∀ arrivals (s1 s2 : gmap string counter),
  s1 !! key_of C = s2 !! key_of C →
  filter (λ h, who h = C) (redis_run R W arrivals s1)
  = redis_run R W (filter (λ e, ip e = C) arrivals) s2.
Proof.
  induction arrivals as [|e rest IH]; intros s1 s2 Hs; [reflexivity|].
  cbn [redis_run].
  destruct (pipeline_Exec (fails e) (key_of (ip e)) W (now e) s1) as [s1' res1] eqn:E1.
  destruct (decide (ip e = C)) as [HC|HC].
  - rewrite filter_cons_True by exact HC.
    rewrite (filter_cons_True (λ e, ip e = C)) by exact HC.
    cbn [redis_run].
    destruct (pipeline_Exec (fails e) (key_of (ip e)) W (now e) s2) as [s2' res2] eqn:E2.
    rewrite HC in E1, E2.
    destruct (pipeline_Exec_local (fails e) (key_of C) W (now e) s1 s2 Hs) as [Hres Hst].
    rewrite E1, E2 in Hres, Hst. cbn [fst snd] in Hres, Hst. subst res2.
    f_equal. by apply IH.
  - rewrite filter_cons_False by exact HC.
    rewrite (filter_cons_False (λ e, ip e = C)) by exact HC.
    apply IH. rewrite <- Hs.
    pose proof (pipeline_Exec_other (fails e) (key_of (ip e)) (key_of C) W (now e) s1) as Ho.
    rewrite E1 in Ho. cbn [fst] in Ho. apply Ho.
    intros Hk. apply HC. by apply key_of_inj.
Qed.

Lemma memory_isolated R C : ∀ events (m1 m2 : gmap string client),
  m1 !! C = m2 !! C →
  filter (λ h, who h = C) (memory_run R events m1)
  = memory_run R (filter (λ ev, concerns C ev = true) events) m2.
Proof.
  induction events as [|ev rest IH]; intros m1 m2 Hm; [reflexivity|].
  destruct ev as [ip t|t].
  - cbn [memory_run].
    destruct (memory_step R ip t m1) as [m1' d1] eqn:E1.
    destruct (decide (ip = C)) as [HC|HC].
    + rewrite filter_cons_True by exact HC.
      rewrite (filter_cons_True (λ ev, concerns C ev = true))
        by (cbn; by apply bool_decide_eq_true_2).
      cbn [memory_run].
      destruct (memory_step R ip t m2) as [m2' d2] eqn:E2.
      rewrite HC in E1, E2.
      destruct (memory_step_local R C t m1 m2 Hm) as [Hd Hl].
      rewrite E1, E2 in Hd, Hl. cbn [fst snd] in Hd, Hl. subst d2.
      f_equal. by apply IH.
    + rewrite filter_cons_False by exact HC.
      rewrite (filter_cons_False (λ ev, concerns C ev = true))
        by (cbn; rewrite bool_decide_eq_false_2 by exact HC; discriminate).
      apply IH. rewrite <- Hm.
      pose proof (step_other R ip C t m1 HC) as Ho. by rewrite E1 in Ho.
  - cbn [memory_run].
    rewrite (filter_cons_True (λ ev, concerns C ev = true)) by reflexivity.
    cbn [memory_run]. apply IH. by rewrite !cleanup_lookup, Hm.
Qed.

(** X17: each limiter decides a client's requests from that client's
    requests alone: taking the requests of all other clients away changes
    none of its decisions, under the shared backend and under the
    in-memory one. *)
Theorem clients_isolated (R W : Z) (C : string) (arrivals : list arrival)
    (store : gmap string counter) (events : list event) (clients : gmap string client) :
  filter (λ h, who h = C) (redis_run R W arrivals store)
  = redis_run R W (filter (λ e, ip e = C) arrivals) store ∧
  filter (λ h, who h = C) (memory_run R events clients)
  = memory_run R (filter (λ ev, concerns C ev = true) events) clients.
Proof. split; [by apply redis_isolated | by apply memory_isolated]. Qed.

End Isolation.


(** ** Limits and windows below one *)

Section Degenerate.
Import limiter middleware.

Lemma zero_limit_run R W : ∀ arrivals (store : gmap string counter),
  0 < W → R ≤ 0 →
  Forall (λ e, fails e = false) arrivals →
  map_Forall (λ _ c, 0 ≤ value c ∧ value c + Z.of_nat (length arrivals) ≤ int_max) store →
  Z.of_nat (length arrivals) ≤ int_max →
  Forall (λ h, passed h = false) (redis_run R W arrivals store).
Proof.
  induction arrivals as [|e rest IH]; intros store HW HR Hf Hst Hlen; [constructor|].
  apply Forall_cons in Hf as [Hfe Hf]. cbn [redis_run length] in *. rewrite Hfe.
  destruct (exec_same (key_of (ip e)) W (now e) store (length rest) HW)
    as (v & Hv & Hb & Hx & _).
  { unfold sound_counter. destruct (store !! key_of (ip e)) as [c|] eqn:Hk; [|lia].
    apply (Hst _ _ Hk). }
  rewrite Hx. constructor.
  - cbn [passed redis_decide proceed]. by rewrite bool_decide_eq_true_2 by lia.
  - apply IH; try done; [|lia].
    apply map_Forall_insert_2; [cbn; lia|].
    intros k c Hk. specialize (Hst k c Hk). cbn in Hst. lia.
Qed.

(** X18: a window that is not positive switches the shared limiter off:
    the store deletes the counter as soon as it is set, so every request
    counts as the first and, with a limit of at least one, passes. *)
Theorem zero_window_never_limits (R W : Z) (C : string) (arrivals : list arrival)
    (store : gmap string counter) :
  W ≤ 0 → 1 ≤ R → store !! key_of C = None →
  Forall (λ h, who h = C → passed h = true) (redis_run R W arrivals store).
Proof.
  pose proof int_range as [_ Hmax].
  revert store.
  induction arrivals as [|e rest IH]; intros store HW HR Hs; [constructor|].
  cbn [redis_run].
  destruct (pipeline_Exec (fails e) (key_of (ip e)) W (now e) store) as [store' res] eqn:Hx.
  assert (Hnext : store' !! key_of C = None ∧ (ip e = C → proceed (redis_decide R W res) = true)).
  { destruct (decide (ip e = C)) as [HC|HC].
    - rewrite HC in Hx. unfold pipeline_Exec, live_value in Hx. rewrite Hs in Hx.
      destruct (fails e); [injection Hx as <- <-; done|].
      cbn [default] in Hx. destruct (decide (0 + 1 > int_max)) as [|_]; [lia|].
      cbn [Expire] in Hx.
      destruct (decide (formatSec W ≤ 0)) as [_|Hn];
        [|pose proof (formatSec_nonpos W HW); lia].
      injection Hx as <- <-. split; [by rewrite lookup_delete_eq|].
      intros _. cbn [redis_decide proceed]. by rewrite bool_decide_eq_false_2 by lia.
    - split; [|done].
      pose proof (pipeline_Exec_other (fails e) (key_of (ip e)) (key_of C) W (now e) store)
        as Ho.
      rewrite Hx in Ho. cbn [fst] in Ho. rewrite Ho; [exact Hs|].
      intros Hk. apply HC. by apply key_of_inj. }
  destruct Hnext as [Hs' Hp]. constructor; [exact Hp|]. by apply IH.
Qed.

(** X19: with a limit below one the two backends differ: the shared
    limiter refuses every request, while the in-memory limiter lets the
    first request of a client through, whatever the limit, and announces
    the limit minus one as what remains, unclamped. *)
Theorem limit_below_one (R W : Z) (C : string) (t : Z) (arrivals : list arrival)
    (store : gmap string counter) (events : list event) (clients : gmap string client) :
  0 < W → R ≤ 0 →
  Forall (λ e, fails e = false) arrivals →
  map_Forall (λ _ c, 0 ≤ value c ∧ value c + Z.of_nat (length arrivals) ≤ int_max) store →
  Z.of_nat (length arrivals) ≤ int_max →
  clients !! C = None →
  Forall (λ h, passed h = false) (redis_run R W arrivals store) ∧
  (∃ rest, memory_run R (Arrive C t :: events) clients
           = {| who := C; at_ := t; passed := true |} :: rest) ∧
  headers (memory_step R C t clients).2
  = [("X-RateLimit-Limit", intToString R);
     ("X-RateLimit-Remaining", intToString (int_wrap (R - 1)))].
Proof.
  intros HW HR Hf Hst Hlen Hc. split; [by apply zero_limit_run|].
  cbn [memory_run]. unfold memory_step. rewrite Hc. cbn [snd headers proceed].
  split; [eexists; reflexivity | reflexivity].
Qed.

End Degenerate.

Lemma zero_window_never_limits_witness :
  Forall (λ h, limiter.who h = "10.0.0.1" → limiter.passed h = true)
    (limiter.redis_run 1 0 [sample.arrival 0; sample.arrival 1; sample.arrival 2] ∅).
Proof.
  apply (zero_window_never_limits 1 0 "10.0.0.1").
  - reflexivity.
  - reflexivity.
  - apply lookup_empty.
Defined.

Lemma limit_below_one_witness :
  Forall (λ h, limiter.passed h = false)
    (limiter.redis_run 0 (60 * config.Second) [sample.arrival 0] ∅) ∧
  (∃ rest, limiter.memory_run 0 [limiter.Arrive "10.0.0.1" 0; limiter.Arrive "10.0.0.1" 1] ∅
           = {| limiter.who := "10.0.0.1"; limiter.at_ := 0; limiter.passed := true |}
             :: rest) ∧
  middleware.headers (middleware.memory_step 0 "10.0.0.1" 0 ∅).2
  = [("X-RateLimit-Limit", middleware.intToString 0);
     ("X-RateLimit-Remaining", middleware.intToString (int_wrap (0 - 1)))].
Proof.
  apply (limit_below_one 0 (60 * config.Second) "10.0.0.1" 0 [sample.arrival 0] ∅
           [limiter.Arrive "10.0.0.1" 1] ∅).
  - reflexivity.
  - reflexivity.
  - repeat constructor.
  - apply map_Forall_empty.
  - vm_compute. discriminate.
  - apply lookup_empty.
Defined.
(** ** One request in, at most one request out *)

Section Upstream.

Variable Sum256 : string → string.
Variable url_Parse : string → option http.URL.
Variable URL_String : http.URL → string.
Variable NewRequest : string → string → option http.URL.
Variable trailingSlash : http.Request → option Response.

Lemma guard_cases srv p next c :
  ∃ c1, Sent (world c1) = Sent (world c) ∧
        http.Method (Request c1) = http.Method (Request c) ∧
        http.URL_Path (Request c1) = http.URL_Path (Request c) ∧
        http.URL_RawQuery (Request c1) = http.URL_RawQuery (Request c) ∧
        (chain (main.guard Sum256 srv p) next c = next c1 ∨
         ∃ message, chain (main.guard Sum256 srv p) next c
                    = AbortWithStatusJSON 401 (middleware.unauthorized message) c1).
Proof.
  destruct p; cbn [main.guard chain foldr].
  - exists c. split_and!; auto.
  - destruct (AuthRequired_cases (config.Secret (config.JWT (main.cfg srv))) next c)
      as [[m ->] | ->].
    + exists c. split_and!; eauto.
    + exists (as_zero_user c). split_and!; auto.
  - destruct (APIKeyOrJWTAuth_cases Sum256 (config.Secret (config.JWT (main.cfg srv))) next c)
      as [-> | [-> | ->]].
    + exists c. split_and!; eauto.
    + exists (with_api_key Sum256 c). split_and!; auto.
    + exists (as_jwt_user c). split_and!; auto.
Qed.

Lemma preflight_world srv req e w :
  http.Method req = "OPTIONS" →
  let c' := main.serve Sum256 url_Parse URL_String NewRequest trailingSlash srv req e w in
  Clients (world c') = Clients w ∧ Store (world c') = Store w ∧ Sent (world c') = Sent w.
Proof.
  intros Hm. cbv zeta. rewrite (serve_preflight _ _ _ _ _ _ _ _ _ Hm). cbv zeta.
  unfold AbortWithStatus.
  destruct (with_cors_frame (config.CORS (main.cfg srv))
              (with_request_id (fresh req e w))) as (_ & _ & Hwd & _ & _).
  match goal with |- context [write 204 NoBody ?c0] =>
    destruct (write_frame 204 NoBody c0) as (_ & _ & _ & Hw1 & _) end.
  cbv zeta in Hw1.
  cbn [world set_world add_Log Sent Clients Store]. by rewrite Hw1, Hwd.
Qed.

Lemma unrouted_sent srv req e w :
  main.lookup (http.Method req) (http.URL_Path req) = None →
  main.redirected trailingSlash req = None →
  http.Method req ≠ "OPTIONS" →
  Sent (world (main.serve Sum256 url_Parse URL_String NewRequest trailingSlash srv req e w))
  = Sent w.
Proof.
  intros Hl Hn Hm.
  destruct (served_parts Sum256 url_Parse URL_String NewRequest trailingSlash srv req e w Hn Hm)
    as (_ & _ & _ & ->).
  destruct (entry_frame (config.CORS (main.cfg srv)) (fresh req e w))
    as (_ & _ & Hw0 & _ & _).
  set (c0 := entry (config.CORS (main.cfg srv)) (fresh req e w)) in *.
  unfold main.handlerFor. rewrite Hl.
  destruct (decide _).
  - rewrite health_eq.
    destruct (JSON_frame 200 [("service", VString "gateway"); ("status", VString "healthy");
                              ("time", VTime (Now (env c0)))] c0) as (_ & _ & _ & ->).
    by rewrite Hw0.
  - assert (Hnf : world (main.notFound c0).2 = world c0).
    { change (main.notFound c0)
        with (write 404 (DataBody "404 page not found")
                (set_WHeader (λ h, <["Content-Type" := ["text/plain"]]> h) c0)).
      by destruct (write_frame 404 (DataBody "404 page not found")
                     (set_WHeader (λ h, <["Content-Type" := ["text/plain"]]> h) c0))
        as (_ & _ & _ & -> & _). }
    by rewrite Hnf, Hw0.
Qed.

(** X20: serving one request calls the HTTP client at most once, and only
    when a route matches: the gateway itself neither retries nor fans out
    (the requests the client makes on its own when it follows a redirect
    are not the gateway's).  The request handed to the client has the
    method of the inbound one, and its URL is what the library reads back
    from the target the proxy serialises: the backend's URL with the
    inbound path and the inbound raw query in place. *)
Theorem at_most_one_upstream (srv : main.Server) (req : http.Request) (e : Env) (w : World) :
  let c' := main.serve Sum256 url_Parse URL_String NewRequest trailingSlash srv req e w in
  Sent (world c') = Sent w ∨
  ∃ r parsed cr,
    main.lookup (http.Method req) (http.URL_Path req) = Some r ∧
    url_Parse (proxy.targetURL (proxy_of srv (main.backend r))) = Some parsed ∧
    Sent (world c') = Sent w ++ [cr] ∧
    http.CMethod cr = http.Method req ∧
    NewRequest (http.Method req)
      (URL_String (http.set_RawQuery (http.URL_RawQuery req)
                     (http.set_Path (http.URL_Path req) parsed)))
    = Some (http.CURL cr).
Proof.
  cbv zeta.
  destruct (main.lookup (http.Method req) (http.URL_Path req)) as [r|] eqn:Hl.
  - destruct (route_cases Sum256 url_Parse URL_String NewRequest trailingSlash srv req e w r Hl)
      as (c1 & m & Hw & Hs & Hr & _ & _ & _ & -> & Hc).
    destruct Hc as [-> | ->].
    + left. unfold AbortWithStatusJSON.
      by destruct (JSON_frame 429 middleware.rate_limit_exceeded c1) as (_ & _ & _ & ->).
    + destruct (guard_cases srv (main.auth r)
                  (main.forward url_Parse URL_String NewRequest srv (main.backend r)) c1)
        as (c3 & Hs3 & Hm3 & Hp3 & Hq3 & [-> | [m ->]]).
      * destruct (forward_sent_cases url_Parse URL_String NewRequest srv (main.backend r) c3)
          as [-> | (parsed & url & (Hparse & _ & Hnew & _) & ->)].
        -- left. by rewrite Hs3.
        -- right. exists r, parsed, (upstream_request url c3).
           split; [reflexivity|]. split; [exact Hparse|].
           split; [by rewrite Hs3, Hs|].
           cbn [upstream_request http.CMethod http.CURL].
           rewrite Hm3, Hr. split; [reflexivity|].
           rewrite <- Hnew. unfold target_of, service_path.
           rewrite Hm3, Hq3, Hp3, Hr.
           by rewrite (TrimPrefix_restore _ _ (lookup_under_v1 _ _ _ Hl)).
      * left. unfold AbortWithStatusJSON.
        destruct (JSON_frame 401 (middleware.unauthorized m) c3) as (_ & _ & _ & ->).
        by rewrite Hs3.
  - left.
    destruct (main.redirected trailingSlash req) as [r0|] eqn:Hn.
    { by rewrite (serve_redirected _ _ _ _ _ srv req e w r0 Hn). }
    destruct (decide (http.Method req = "OPTIONS")) as [Hm|Hm].
    { by apply preflight_world. }
    by apply unrouted_sent.
Qed.

End Upstream.
(** ** The runs of the limiters are what the server does *)

Lemma log_JSON_world l m kv code obj c :
  let c' := ((log l m kv;; JSON code obj) c).2 in
  Clients (world c') = Clients (world c) ∧ Store (world c') = Store (world c).
Proof.
  cbv zeta. rewrite log_then.
  by destruct (JSON_frame code obj
                 (set_world (add_Log {| time := Now (env c); level := l; msg := m;
                                        fields := kv |}) c)) as (_ & _ & _ & ->).
Qed.

Lemma relay_world target b c :
  let c' := (proxy.relay target b c).2 in
  Clients (world c') = Clients (world c) ∧ Store (world c') = Store (world c).
Proof.
  cbv zeta. destruct b as [resp|]; [destruct (http.RespBody resp) eqn:Hb|].
  - rewrite (relay_answer target resp _ c Hb), Data_eq.
    match goal with |- context [write ?code ?body ?c0] =>
      by destruct (write_frame code body c0) as (_ & _ & _ & -> & _) end.
  - unfold proxy.relay. rewrite Hb. apply log_JSON_world.
  - apply log_JSON_world.
Qed.

Section Refinement.

Variable Sum256 : string → string.
Variable url_Parse : string → option http.URL.
Variable URL_String : http.URL → string.
Variable NewRequest : string → string → option http.URL.
Variable trailingSlash : http.Request → option Response.

Lemma forward_world srv b c :
  let c' := (main.forward url_Parse URL_String NewRequest srv b c).2 in
  Clients (world c') = Clients (world c) ∧ Store (world c') = Store (world c).
Proof.
  cbv zeta. rewrite forward_eq.
  destruct (ProxyRequest_cases url_Parse URL_String NewRequest (proxy_of srv b)
              (service_path c) (handed b c))
    as [(parsed & url & Hr) | [(m & kv & code & obj & -> & _) | ->]].
  - rewrite (ProxyRequest_reaches _ _ _ _ _ _ _ _ Hr).
    match goal with |- context [proxy.relay ?t ?bk ?c0] =>
      destruct (relay_world t bk c0) as [-> ->] end.
    split; reflexivity.
  - destruct (log_JSON_world ErrorLevel m kv code obj (handed b c)) as [-> ->].
    split; reflexivity.
  - split; reflexivity.
Qed.

Lemma guarded_world srv p b c :
  let c' := (chain (main.guard Sum256 srv p)
               (main.forward url_Parse URL_String NewRequest srv b) c).2 in
  Clients (world c') = Clients (world c) ∧ Store (world c') = Store (world c).
Proof.
  cbv zeta.
  assert (Hj : ∀ m c0, Clients (world (AbortWithStatusJSON 401 (middleware.unauthorized m) c0).2)
                       = Clients (world c0) ∧
                       Store (world (AbortWithStatusJSON 401 (middleware.unauthorized m) c0).2)
                       = Store (world c0)).
  { intros m c0. unfold AbortWithStatusJSON.
    by destruct (JSON_frame 401 (middleware.unauthorized m) c0) as (_ & _ & _ & ->). }
  destruct p; cbn [main.guard chain foldr].
  - apply forward_world.
  - destruct (AuthRequired_cases (config.Secret (config.JWT (main.cfg srv)))
                (main.forward url_Parse URL_String NewRequest srv b) c) as [[m ->] | ->].
    + apply Hj.
    + apply (forward_world srv b (as_zero_user c)).
  - destruct (APIKeyOrJWTAuth_cases Sum256 (config.Secret (config.JWT (main.cfg srv)))
                (main.forward url_Parse URL_String NewRequest srv b) c) as [-> | [-> | ->]].
    + apply Hj.
    + apply (forward_world srv b (with_api_key Sum256 c)).
    + apply (forward_world srv b (as_jwt_user c)).
Qed.

Lemma entry_fresh cfg req e w :
  env (entry cfg (fresh req e w)) = e ∧ world (entry cfg (fresh req e w)) = w ∧
  Written (entry cfg (fresh req e w)) = None.
Proof.
  destruct (entry_frame cfg (fresh req e w)) as (He & _ & Hw & Hwr & _).
  rewrite He, Hw, Hwr. split_and!; reflexivity.
Qed.

(** What the handlers of a route do to the limiter's state, from a context
    in which nothing has been written: the limiter makes its step, and
    what follows it leaves the state alone. *)
Lemma routeChain_limited srv r c0 d c1 :
  (∀ next, main.limiter srv next c0 = middleware.emit d next c1) →
  Written c1 = None →
  let c' := (main.routeChain Sum256 url_Parse URL_String NewRequest srv r c0).2 in
  Clients (world c') = Clients (world c1) ∧ Store (world c') = Store (world c1) ∧
  (middleware.proceed d = false →
   (main.routeChain Sum256 url_Parse URL_String NewRequest srv r c0).1 = Some tt ∧
   refused (response c')).
Proof.
  intros Hlim Hw1. cbv zeta. unfold main.routeChain.
  change (chain (main.limiter srv :: main.guard Sum256 srv (main.auth r))
            (main.forward url_Parse URL_String NewRequest srv (main.backend r)))
    with (main.limiter srv (chain (main.guard Sum256 srv (main.auth r))
            (main.forward url_Parse URL_String NewRequest srv (main.backend r)))).
  rewrite Hlim.
  destruct (emit_cases d (chain (main.guard Sum256 srv (main.auth r))
              (main.forward url_Parse URL_String NewRequest srv (main.backend r))) c1)
    as (c2 & (_ & _ & _ & _ & _ & Hw2 & _) & _ & _ & Hc2 & Hs2 & ->).
  rewrite Hw1 in Hw2.
  destruct (middleware.proceed d).
  - destruct (guarded_world srv (main.auth r) (main.backend r) c2) as [-> ->].
    split_and!; [exact Hc2 | exact Hs2 | discriminate].
  - unfold AbortWithStatusJSON, refused.
    rewrite (JSON_status _ _ _ Hw2), (JSON_body _ _ _ Hw2) by reflexivity.
    destruct (JSON_frame 429 middleware.rate_limit_exceeded c2) as (_ & _ & _ & ->).
    split_and!; [exact Hc2 | exact Hs2 |].
    intros _. split; [|done]. apply JSON_outcome. unfold accepted. lia.
Qed.

Lemma routeChain_memory srv r c0 :
  main.redisClient srv = false → Written c0 = None →
  let c' := (main.routeChain Sum256 url_Parse URL_String NewRequest srv r c0).2 in
  let step := middleware.memory_step (config.Requests (config.RateLimit (main.cfg srv)))
                (ClientIP (env c0)) (Now (env c0)) (Clients (world c0)) in
  Clients (world c') = step.1 ∧ Store (world c') = Store (world c0) ∧
  (middleware.proceed step.2 = false →
   (main.routeChain Sum256 url_Parse URL_String NewRequest srv r c0).1 = Some tt ∧
   refused (response c')).
Proof.
  intros Hm Hw0. cbv zeta.
  apply (routeChain_limited srv r c0 _
           (set_world (set_Clients (λ _,
              (middleware.memory_step (config.Requests (config.RateLimit (main.cfg srv)))
                 (ClientIP (env c0)) (Now (env c0)) (Clients (world c0))).1)) c0)).
  - intros next. unfold main.limiter. rewrite Hm. apply RateLimiterMemory_eq.
  - exact Hw0.
Qed.

Lemma routeChain_redis srv r c0 :
  main.redisClient srv = true → Written c0 = None →
  let c' := (main.routeChain Sum256 url_Parse URL_String NewRequest srv r c0).2 in
  let exec := middleware.pipeline_Exec (RedisFails (env c0))
                (limiter.key_of (ClientIP (env c0)))
                (config.Window (config.RateLimit (main.cfg srv))) (Now (env c0))
                (Store (world c0)) in
  Store (world c') = exec.1 ∧ Clients (world c') = Clients (world c0) ∧
  (middleware.proceed
     (middleware.redis_decide (config.Requests (config.RateLimit (main.cfg srv)))
        (config.Window (config.RateLimit (main.cfg srv))) exec.2) = false →
   (main.routeChain Sum256 url_Parse URL_String NewRequest srv r c0).1 = Some tt ∧
   refused (response c')).
Proof.
  intros Hm Hw0. cbv zeta.
  destruct (routeChain_limited srv r c0
    (middleware.redis_decide (config.Requests (config.RateLimit (main.cfg srv)))
       (config.Window (config.RateLimit (main.cfg srv)))
       (middleware.pipeline_Exec (RedisFails (env c0)) ("rate_limit:" +:+ ClientIP (env c0))
          (config.Window (config.RateLimit (main.cfg srv))) (Now (env c0))
          (Store (world c0))).2)
    (set_world (set_Store (λ _,
       (middleware.pipeline_Exec (RedisFails (env c0)) ("rate_limit:" +:+ ClientIP (env c0))
          (config.Window (config.RateLimit (main.cfg srv))) (Now (env c0))
          (Store (world c0))).1)) c0)) as (Hc & Hs & Hp).
  - intros next. unfold main.limiter. rewrite Hm. apply RateLimiterRedis_eq.
  - exact Hw0.
  - split_and!; [exact Hs | exact Hc | exact Hp].
Qed.

Lemma serve_route srv req e w r :
  main.lookup (http.Method req) (http.URL_Path req) = Some r →
  let c' := main.serve Sum256 url_Parse URL_String NewRequest trailingSlash srv req e w in
  let c1 := (main.routeChain Sum256 url_Parse URL_String NewRequest srv r
               (entry (config.CORS (main.cfg srv)) (fresh req e w))).2 in
  ((main.routeChain Sum256 url_Parse URL_String NewRequest srv r
      (entry (config.CORS (main.cfg srv)) (fresh req e w))).1 = Some tt →
   response c' = response c1) ∧
  Clients (world c') = Clients (world c1) ∧
  Store (world c') = Store (world c1).
Proof.
  intros Hl. cbv zeta.
  assert (Hn : main.redirected trailingSlash req = None)
    by (eapply redirected_routed, lookup_routed, Hl).
  destruct (served_parts Sum256 url_Parse URL_String NewRequest trailingSlash srv req e w Hn
              (lookup_not_options _ _ _ Hl)) as (Hresp & -> & -> & _).
  revert Hresp.
  rewrite (handlerFor_route _ _ _ _ _ _ _ r _ Hl). intros Hresp.
  split_and!; [exact Hresp | reflexivity..].
Qed.

Lemma serve_memory srv req e w r :
  main.lookup (http.Method req) (http.URL_Path req) = Some r →
  main.redisClient srv = false →
  let c' := main.serve Sum256 url_Parse URL_String NewRequest trailingSlash srv req e w in
  let step := middleware.memory_step (config.Requests (config.RateLimit (main.cfg srv)))
                (ClientIP e) (Now e) (Clients w) in
  Clients (world c') = step.1 ∧ Store (world c') = Store w ∧
  (middleware.proceed step.2 = false → refused (response c')).
Proof.
  intros Hl Hm. cbv zeta.
  destruct (serve_route srv req e w r Hl) as (Hresp & -> & ->).
  destruct (entry_fresh (config.CORS (main.cfg srv)) req e w) as (He & Hw & Hwr).
  destruct (routeChain_memory srv r _ Hm Hwr) as (Hc & Hs & Hp).
  rewrite He, Hw in Hc, Hp. rewrite Hw in Hs.
  split_and!; [exact Hc | exact Hs |].
  intros Hd. destruct (Hp Hd) as [Ho Hrf]. by rewrite (Hresp Ho).
Qed.

Lemma serve_redis srv req e w r :
  main.lookup (http.Method req) (http.URL_Path req) = Some r →
  main.redisClient srv = true →
  let c' := main.serve Sum256 url_Parse URL_String NewRequest trailingSlash srv req e w in
  let exec := middleware.pipeline_Exec (RedisFails e) (limiter.key_of (ClientIP e))
                (config.Window (config.RateLimit (main.cfg srv))) (Now e) (Store w) in
  Store (world c') = exec.1 ∧ Clients (world c') = Clients w ∧
  (middleware.proceed
     (middleware.redis_decide (config.Requests (config.RateLimit (main.cfg srv)))
        (config.Window (config.RateLimit (main.cfg srv))) exec.2) = false →
   refused (response c')).
Proof.
  intros Hl Hm. cbv zeta.
  destruct (serve_route srv req e w r Hl) as (Hresp & -> & ->).
  destruct (entry_fresh (config.CORS (main.cfg srv)) req e w) as (He & Hw & Hwr).
  destruct (routeChain_redis srv r _ Hm Hwr) as (Hs & Hc & Hp).
  rewrite He, Hw in Hs, Hp. rewrite Hw in Hc.
  split_and!; [exact Hs | exact Hc |].
  intros Hd. destruct (Hp Hd) as [Ho Hrf]. by rewrite (Hresp Ho).
Qed.

(** A request the limiter refuses is not among those answered with
    another status than 429. *)
Lemma answered_passed C a T e r (p : bool) :
  (p = false → refused r) →
  ((if answered C a T e r then 1 else 0)
   ≤ (if limiter.counted C a T {| limiter.who := ClientIP e; limiter.at_ := Now e;
                                  limiter.passed := p |} then 1 else 0))%nat.
Proof.
  intros Hp. unfold answered, limiter.counted.
  cbn [limiter.who limiter.at_ limiter.passed].
  destruct p.
  - destruct (bool_decide (ClientIP e = C)), (bool_decide (a ≤ Now e)),
      (bool_decide (Now e < a + T)), (bool_decide (Status r = 429)); cbn; lia.
  - destruct (Hp eq_refl) as [-> _].
    rewrite (bool_decide_eq_true_2 (429 = 429)) by reflexivity.
    cbn [negb]. rewrite !andb_false_r. lia.
Qed.

(** The server without the counter store, on steps whose requests match
    routes, against the run of the in-memory limiter on the same steps. *)
Lemma memory_refines srv C a T : ∀ steps w,
  main.redisClient srv = false →
  Forall routed_step steps →
  let R := config.Requests (config.RateLimit (main.cfg srv)) in
  let served := main.serveAll Sum256 url_Parse URL_String NewRequest trailingSlash srv steps w in
  Clients served.1 = memory_after R (map event_of steps) (Clients w) ∧
  Forall2 (λ h resp, limiter.passed h = false → refused resp)
    (limiter.memory_run R (map event_of steps) (Clients w)) served.2 ∧
  (answered_in C a T steps served.2
   ≤ limiter.passed_in C a T (limiter.memory_run R (map event_of steps) (Clients w)))%nat.
Proof.
  intros steps w Hm Hall. cbv zeta. revert w.
  induction Hall as [|[req e|now] steps Hl _ IH]; intros w.
  { split_and!; [reflexivity | constructor | reflexivity]. }
  - cbn [main.serveAll map event_of limiter.memory_run memory_after].
    destruct Hl as [r Hl].
    destruct (serve_memory srv req e w r Hl Hm) as (Hc & _ & Hp).
    specialize (IH (world (main.serve Sum256 url_Parse URL_String NewRequest trailingSlash
                             srv req e w))).
    destruct (main.serveAll _ _ _ _ _ srv steps _) as [w' rs]. cbn [fst snd] in IH |- *.
    rewrite Hc in IH. destruct IH as (IH1 & IH2 & IH3).
    destruct (middleware.memory_step _ _ _ (Clients w)) as [clients' d].
    cbn [fst snd] in *. split_and!; [exact IH1 | constructor; [exact Hp | exact IH2] |].
    cbn [answered_in limiter.passed_in].
    pose proof (answered_passed C a T e
                  (response (main.serve Sum256 url_Parse URL_String NewRequest trailingSlash
                               srv req e w)) (middleware.proceed d) Hp).
    lia.
  - cbn [main.serveAll map event_of limiter.memory_run memory_after answered_in].
    specialize (IH (main.pass srv now w)). unfold main.pass in IH |- *.
    rewrite Hm in IH |- *. exact IH.
Qed.

(** The server with the counter store, against the run of the shared
    limiter on the requests among the steps. *)
Lemma redis_refines srv C a T : ∀ steps w,
  main.redisClient srv = true →
  Forall routed_step steps →
  let R := config.Requests (config.RateLimit (main.cfg srv)) in
  let W := config.Window (config.RateLimit (main.cfg srv)) in
  let served := main.serveAll Sum256 url_Parse URL_String NewRequest trailingSlash srv steps w in
  Store served.1 = redis_after W (flat_map arrival_of steps) (Store w) ∧
  Forall2 (λ h resp, limiter.passed h = false → refused resp)
    (limiter.redis_run R W (flat_map arrival_of steps) (Store w)) served.2 ∧
  (answered_in C a T steps served.2
   ≤ limiter.passed_in C a T
       (limiter.redis_run R W (flat_map arrival_of steps) (Store w)))%nat.
Proof.
  intros steps w Hm Hall. cbv zeta. revert w.
  induction Hall as [|[req e|now] steps Hl _ IH]; intros w.
  { split_and!; [reflexivity | constructor | reflexivity]. }
  - cbn [main.serveAll flat_map arrival_of app limiter.redis_run redis_after
         limiter.ip limiter.now limiter.fails].
    destruct Hl as [r Hl].
    destruct (serve_redis srv req e w r Hl Hm) as (Hs & _ & Hp).
    specialize (IH (world (main.serve Sum256 url_Parse URL_String NewRequest trailingSlash
                             srv req e w))).
    destruct (main.serveAll _ _ _ _ _ srv steps _) as [w' rs]. cbn [fst snd] in IH |- *.
    rewrite Hs in IH. destruct IH as (IH1 & IH2 & IH3).
    destruct (middleware.pipeline_Exec _ _ _ _ (Store w)) as [store' res].
    cbn [fst snd] in *. split_and!; [exact IH1 | constructor; [exact Hp | exact IH2] |].
    cbn [answered_in limiter.passed_in].
    pose proof (answered_passed C a T e
                  (response (main.serve Sum256 url_Parse URL_String NewRequest trailingSlash
                               srv req e w)) _ Hp).
    lia.
  - cbn [main.serveAll flat_map arrival_of app answered_in].
    specialize (IH (main.pass srv now w)). unfold main.pass in IH |- *.
    rewrite Hm in IH |- *. exact IH.
Qed.

(** X21: when the gateway runs without the counter store, what it does
    over a sequence of steps (requests that match routes, and the passes
    of the limiter's cleanup goroutine in between) is the run of the
    in-memory limiter on the client addresses and instants of the requests
    and on the passes: the limiter's map afterwards is the map after the
    run, and every request the run refuses is answered 429 with the
    [rate_limit_exceeded] body. *)
Theorem memory_run_served (srv : main.Server) (steps : list main.step) (w : World) :
  main.redisClient srv = false →
  Forall routed_step steps →
  let R := config.Requests (config.RateLimit (main.cfg srv)) in
  let served := main.serveAll Sum256 url_Parse URL_String NewRequest trailingSlash srv steps w in
  Clients served.1 = memory_after R (map event_of steps) (Clients w) ∧
  Forall2 (λ h resp, limiter.passed h = false → refused resp)
    (limiter.memory_run R (map event_of steps) (Clients w)) served.2.
Proof.
  intros Hm Hall. cbv zeta.
  destruct (memory_refines srv EmptyString 0 0 steps w Hm Hall) as (H1 & H2 & _).
  split; [exact H1 | exact H2].
Qed.

(** X22: when the gateway runs with the counter store, what it does over a
    sequence of steps whose requests match routes is the run of the shared
    limiter on the client addresses and instants of the requests, with the
    round trips that fail and with the expiry the store is asked for (the
    whole seconds of the window); the cleanup goroutine does not exist
    then.  The store afterwards is the store after the run, and every
    request the run refuses is answered 429 with the [rate_limit_exceeded]
    body. *)
Theorem redis_run_served (srv : main.Server) (steps : list main.step) (w : World) :
  main.redisClient srv = true →
  Forall routed_step steps →
  let R := config.Requests (config.RateLimit (main.cfg srv)) in
  let W := config.Window (config.RateLimit (main.cfg srv)) in
  let served := main.serveAll Sum256 url_Parse URL_String NewRequest trailingSlash srv steps w in
  Store served.1 = redis_after W (flat_map arrival_of steps) (Store w) ∧
  Forall2 (λ h resp, limiter.passed h = false → refused resp)
    (limiter.redis_run R W (flat_map arrival_of steps) (Store w)) served.2.
Proof.
  intros Hm Hall. cbv zeta.
  destruct (redis_refines srv EmptyString 0 0 steps w Hm Hall) as (H1 & H2 & _).
  split; [exact H1 | exact H2].
Qed.

End Refinement.

Lemma memory_run_served_witness :
  Clients (main.serveAll demo.Sum256 demo.parse demo.String_ demo.NewRequest demo.redirect
             demo.server
             [main.Serve demo.tagged (demo.at_ 0 None); main.Cleanup (60 * config.Second);
              main.Serve demo.tagged (demo.at_ (61 * config.Second) None)] demo.world0).1
  = memory_after (config.Requests (config.RateLimit (main.cfg demo.server)))
      (map event_of
         [main.Serve demo.tagged (demo.at_ 0 None); main.Cleanup (60 * config.Second);
          main.Serve demo.tagged (demo.at_ (61 * config.Second) None)])
      (Clients demo.world0).
Proof.
  apply (memory_run_served demo.Sum256 demo.parse demo.String_ demo.NewRequest demo.redirect
           demo.server
           [main.Serve demo.tagged (demo.at_ 0 None); main.Cleanup (60 * config.Second);
            main.Serve demo.tagged (demo.at_ (61 * config.Second) None)] demo.world0).
  - reflexivity.
  - repeat constructor; vm_compute; eexists; reflexivity.
Defined.

Lemma redis_run_served_witness :
  Store (main.serveAll demo.Sum256 demo.parse demo.String_ demo.NewRequest demo.redirect
           demo.shared
           [main.Serve demo.tagged (demo.at_ 0 None);
            main.Serve demo.tagged (demo.at_ 1 None)] demo.world0).1
  = redis_after (config.Window (config.RateLimit (main.cfg demo.shared)))
      (flat_map arrival_of
         [main.Serve demo.tagged (demo.at_ 0 None);
          main.Serve demo.tagged (demo.at_ 1 None)])
      (Store demo.world0).
Proof.
  apply (redis_run_served demo.Sum256 demo.parse demo.String_ demo.NewRequest demo.redirect
           demo.shared
           [main.Serve demo.tagged (demo.at_ 0 None);
            main.Serve demo.tagged (demo.at_ 1 None)] demo.world0).
  - reflexivity.
  - repeat constructor; vm_compute; eexists; reflexivity.
Defined.
(** ** The limit, as the clients of the gateway see it *)




Section Limit.

Variable Sum256 : string → string.
Variable url_Parse : string → option http.URL.
Variable URL_String : http.URL → string.
Variable NewRequest : string → string → option http.URL.
Variable trailingSlash : http.Request → option Response.


End Limit.


(** The window [Load] computes when the configured number of seconds
    overflows is not a whole number of seconds, and the counter then lives
    shorter than the window: with a limit of 1, two requests 1.1 seconds
    apart both pass, within a window of a little under 1.3 seconds; within
    the second the counter lives, one does. *)
Lemma wrapped_window_lets_two_pass :
  let steps := sample.logins [0; 1100000000] in
  let srv := sample.limited 1 sample.wrapped_window true in
  let rs := (main.serveAll demo.Sum256 demo.parse demo.String_ demo.NewRequest demo.redirect
               srv steps demo.world0).2 in
  int_wrap (18446744075 * config.Second) = sample.wrapped_window ∧
  middleware.ttl sample.wrapped_window = config.Second ∧
  answered_in "10.0.0.1" 0 sample.wrapped_window steps rs = 2%nat ∧
  answered_in "10.0.0.1" 0 (middleware.ttl sample.wrapped_window) steps rs = 1%nat.
Proof. vm_compute. split_and!; reflexivity. Qed.

